(** * Analysis scripts of the game-theory experiment: a shallow embedding

    The Python sources under [analysis/] ([descriptive.py], [inference.py],
    [visualize.py], [figures.py]) are batch transforms over a pandas table.
    This file embeds the functions the specification talks about, and the
    data each summary, test and figure computes besides, and proves the
    specification's statements and further properties of that code.

    Modelling conventions.
    - A [float64] value is a primitive binary64 float of Rocq ([PrimFloat]):
      [+], [-], [*], [/], [sqrt] and the comparisons are the IEEE 754
      operations numpy performs, NaN included.
    - An [int64] column is a [Z] and arithmetic on it wraps ([wrap64]).
      Python's own integers ([len], [sum] of lengths) are unbounded [Z].
    - The column [action] is a sequence of Unicode code points, and [\d] is a
      decimal digit of the interpreter's Unicode database, a parameter (the
      class [Unicode]); the other text columns are strings of bytes.
    - A pandas [DataFrame] is the list of its rows, in order; a derived
      column is a field of a derived row record.
    - The numerical kernels of scipy and pandas ([kruskal], [mannwhitneyu],
      [spearmanr], the mean, median and standard deviation of a sample) are
      not code of this repository: they are the fields of the class
      [StatsLib] (and, for [ttest_1samp] and the mean of a numpy array, of
      the class [TestLib]), total functions, and every statement holds for
      each implementation.  What is drawn by matplotlib is not modelled, only
      the arrays handed to it.
    - Every cell of the table holds a value: a missing action or stake is
      outside the model. *)

From Stdlib Require Import ZArith List String Ascii Bool Lia Permutation Sorted.
From Stdlib Require Import PrimFloat FloatOps SpecFloat FloatAxioms.
From Stdlib Require Uint63 FloatLemmas.
Import ListNotations.

Open Scope string_scope.
Open Scope Z_scope.

(** ** Numbers *)

(** A Python value that is either an [int] or a [float]: the outcome column
    of the tests, and returned constants such as the literal [0]. *)
Inductive scalar : Type :=
| SInt (z : Z)
| SFloat (f : float).

(** Two's complement wrap-around of [int64] arithmetic. *)
Definition wrap64 (z : Z) : Z := (z + 2 ^ 63) mod 2 ^ 64 - 2 ^ 63.

Definition int64_add (a b : Z) : Z := wrap64 (a + b).
Definition int64_mul (a b : Z) : Z := wrap64 (a * b).

(** Conversion of an integer to [float64], rounding to nearest, ties to even
    (a C cast, and Python's [float] on an integer literal). *)
Definition float_of_Z (z : Z) : float :=
  SF2Prim (binary_normalize prec emax z 0 false).

Definition to_float (x : scalar) : float :=
  match x with
  | SInt z => float_of_Z z
  | SFloat f => f
  end.

(** [pandas.isna] on a float. *)
Definition isna (f : float) : bool := PrimFloat.is_nan f.

(** [Series.dropna] on a float column. *)
Definition dropna (xs : list float) : list float :=
  filter (fun x => negb (isna x)) xs.

(** ** Strings *)

(** A Python [str] is a sequence of Unicode code points.  The column
    [action] is the one the scripts look into, with [startswith] and with
    regular expressions, and it is kept as the list of its code points.  The
    other text columns are only compared, with one another and with
    literals, and are kept as strings of bytes: their UTF-8 encoding, which
    has the same equalities and the same order. *)
Definition pystr : Type := list Z.

Definition code (c : ascii) : Z := Z.of_nat (nat_of_ascii c).

(** A literal of the source: each of its ASCII characters is its own code
    point. *)
Fixpoint str (s : string) : pystr :=
  match s with
  | EmptyString => []
  | String c s' => code c :: str s'
  end.

Coercion str : string >-> pystr.

(** [==] on two [str]. *)
Fixpoint eqb_str (a b : pystr) : bool :=
  match a, b with
  | [], [] => true
  | x :: a', y :: b' => ((x =? y) && eqb_str a' b')%bool
  | _, _ => false
  end.

(** What [\d] matches and what [float] reads as a digit is decided by the
    Unicode database of the interpreter: the characters with a decimal digit
    value ([Py_UNICODE_TODECIMAL]).  The database grows from one version of
    Python to the next, so it is a parameter: [decimal c] is the digit value
    of the code point [c], if it has one.  In every version a digit value
    lies between 0 and 9, and the ASCII characters with one are ['0'] to
    ['9']. *)
Class Unicode : Type := {
  decimal : Z -> option Z;
  decimal_digit : forall c d, decimal c = Some d -> 0 <= d <= 9;
  decimal_ascii :
    forall c, 0 <= c < 128 ->
              decimal c = if ((48 <=? c) && (c <=? 57))%bool then Some (c - 48) else None
}.

(** A database given by the first code point of each run of ten digits,
    ['0'] to ['9'] in order. *)
Definition decimal_in (zeros : list Z) (c : Z) : option Z :=
  match find (fun z => ((z <=? c) && (c <? z + 10))%bool) zeros with
  | Some z => Some (c - z)
  | None => None
  end.

(** The 66 runs of Unicode 14.0, the database of CPython 3.11: ASCII,
    Arabic-Indic, Devanagari, fullwidth and so on. *)
Definition decimal_zeros : list Z :=
  [ 48; 1632; 1776; 1984; 2406; 2534; 2662; 2790; 2918; 3046; 3174; 3302;
    3430; 3558; 3664; 3792; 3872; 4160; 4240; 6112; 6160; 6470; 6608; 6784;
    6800; 6992; 7088; 7232; 7248; 42528; 43216; 43264; 43472; 43504; 43600;
    44016; 65296; 66720; 68912; 69734; 69872; 69942; 70096; 70384; 70736;
    70864; 71248; 71360; 71472; 71904; 72016; 72784; 73040; 73120; 92768;
    92864; 93008; 120782; 120792; 120802; 120812; 120822; 123200; 123632;
    125264; 130032 ].

Definition unicode_14 : Unicode.
Proof.
  refine {| decimal := decimal_in decimal_zeros |}.
  - intros c d; unfold decimal_in.
    destruct (find _ decimal_zeros) as [z|] eqn:E; [|discriminate].
    apply find_some in E as [_ E]; apply andb_prop in E as [E1 E2].
    apply Z.leb_le in E1; apply Z.ltb_lt in E2; intros [= <-]; lia.
  - intros c Hc; unfold decimal_in.
    destruct (find _ decimal_zeros) as [z|] eqn:E.
    + apply find_some in E as [Hin E]; apply andb_prop in E as [E1 E2].
      apply Z.leb_le in E1; apply Z.ltb_lt in E2.
      destruct Hin as [<- | Hin].
      * assert ((48 <=? c) = true) as -> by (apply Z.leb_le; lia).
        assert ((c <=? 57) = true) as -> by (apply Z.leb_le; lia).
        reflexivity.
      * exfalso; repeat (destruct Hin as [<- | Hin]; [lia|]); exact Hin.
    + pose proof (find_none _ _ E 48 (or_introl eq_refl)) as E'; cbv beta in E'.
      destruct (48 <=? c) eqn:E1; [|reflexivity].
      destruct (c <=? 57) eqn:E2; [|reflexivity].
      apply Z.leb_le in E2; simpl in E'.
      assert ((c <? 58) = true) by (apply Z.ltb_lt; lia); congruence.
Defined.

Definition is_digit `{Unicode} (c : Z) : bool :=
  match decimal c with
  | Some _ => true
  | None => false
  end.

Definition digit_value `{Unicode} (c : Z) : Z :=
  match decimal c with
  | Some d => d
  | None => 0
  end.

(** The longest run of digits at the start of [s] (a greedy [\d*]). *)
Fixpoint take_digits `{Unicode} (s : pystr) : pystr :=
  match s with
  | [] => []
  | c :: s' => if is_digit c then c :: take_digits s' else []
  end.

Definition all_digits `{Unicode} (s : pystr) : bool := forallb is_digit s.

(** [s] with the prefix [p] removed, when [s] starts with [p]. *)
Fixpoint strip_prefix (p s : pystr) : option pystr :=
  match p, s with
  | [], _ => Some s
  | a :: p', b :: s' => if a =? b then strip_prefix p' s' else None
  | _ :: _, [] => None
  end.

(** [str.startswith]. *)
Definition startswith (p s : pystr) : bool :=
  match strip_prefix p s with
  | Some _ => true
  | None => false
  end.

(** A match of [lit(\d+)] anchored at the start of [s]: the captured digits. *)
Definition match_here `{Unicode} (lit s : pystr) : option pystr :=
  match strip_prefix lit s with
  | Some rest =>
      match take_digits rest with
      | [] => None
      | ds => Some ds
      end
  | None => None
  end.

(** [Series.str.extract(r'lit(\d+)')] on one value: the capture group of the
    leftmost match ([re.search]), [None] (a missing value) when there is none. *)
Fixpoint str_extract `{Unicode} (lit s : pystr) {struct s} : option pystr :=
  match match_here lit s with
  | Some ds => Some ds
  | None =>
      match s with
      | [] => None
      | _ :: s' => str_extract lit s'
      end
  end.

(** What [float] reads in a string of digits: each digit by its value, most
    significant first. *)
Fixpoint digits_to_Z `{Unicode} (acc : Z) (s : pystr) : Z :=
  match s with
  | [] => acc
  | c :: s' => digits_to_Z (10 * acc + digit_value c) s'
  end.

(** [.astype(float)] on the extracted column: a missing value becomes NaN,
    a digit string is read as a decimal number. *)
Definition astype_float `{Unicode} (o : option pystr) : float :=
  match o with
  | Some ds => float_of_Z (digits_to_Z 0 ds)
  | None => nan
  end.

(** The integer that a sequence of digits writes in decimal notation: the
    digit at position [i] from the right counts [10 ^ i] times its value. *)
Fixpoint decimal_number `{Unicode} (ds : pystr) : Z :=
  match ds with
  | [] => 0
  | c :: ds' => digit_value c * 10 ^ Z.of_nat (List.length ds') + decimal_number ds'
  end.

(** ** The decision table *)

(** One row of the decisions CSV. *)
Record DecisionRecord : Type := mkRecord {
  session_id : string;
  agent_id : string;
  model_provider : string;
  game_type : string;
  knowledge_level : string;
  stake : Z;
  round : Z;
  total_rounds : Z;
  action : pystr;
  payoff : scalar
}.

Definition DataFrame : Type := list DecisionRecord.

(** [df[df['game_type'] == g]]. *)
Definition select_game (g : string) (df : DataFrame) : DataFrame :=
  filter (fun r => String.eqb (game_type r) g) df.

(** The normalisation shared by every game: [amount / (10 * stake)], a
    [float64] column divided by an [int64] column. *)
Definition pct_of_stake (amount : float) (stake : Z) : float :=
  (amount / float_of_Z (int64_mul 10 stake))%float.

(** ** Grouping *)

(** [DataFrame.groupby(key)]: one group per distinct key, the keys in
    ascending order, each group keeping its rows in table order. *)
Section GroupBy.
Context {A K : Type}.
Variable K_eq_dec : forall x y : K, {x = y} + {x <> y}.
Variable K_leb : K -> K -> bool.
Variable key : A -> K.

Fixpoint insert_sorted (k : K) (ks : list K) : list K :=
  match ks with
  | [] => [k]
  | k' :: ks' => if K_leb k k' then k :: ks else k' :: insert_sorted k ks'
  end.

(** [sorted]. *)
Definition sorted (ks : list K) : list K := fold_right insert_sorted [] ks.

(** [Series.unique]: the distinct values. *)
Definition unique (ks : list K) : list K := nodup K_eq_dec ks.

Definition group_keys (rows : list A) : list K := sorted (unique (map key rows)).

Definition group_rows (k : K) (rows : list A) : list A :=
  filter (fun r => if K_eq_dec (key r) k then true else false) rows.

Definition groupby (rows : list A) : list (K * list A) :=
  map (fun k => (k, group_rows k rows)) (group_keys rows).
End GroupBy.

(** The condition a descriptive summary is grouped by:
    [['model_provider', 'knowledge_level', 'stake']]. *)
Definition condition : Type := (string * string * Z)%type.

Definition condition_eq_dec (a b : condition) : {a = b} + {a <> b}.
Proof.
  decide equality; [apply Z.eq_dec | decide equality; apply string_dec].
Defined.

(** Tuples compare lexicographically, strings by character code. *)
Definition condition_leb (a b : condition) : bool :=
  let '(m1, k1, s1) := a in
  let '(m2, k2, s2) := b in
  match String.compare m1 m2 with
  | Lt => true
  | Gt => false
  | Eq =>
      match String.compare k1 k2 with
      | Lt => true
      | Gt => false
      | Eq => Z.leb s1 s2
      end
  end.

Definition record_condition (r : DecisionRecord) : condition :=
  (model_provider r, knowledge_level r, stake r).

(** ** The numerical libraries *)

(** What the scripts call in scipy and pandas.  [kruskal], [mannwhitneyu] and
    [spearmanr] return the pair (statistic, p-value); the sample statistics
    receive the values they are computed over. *)
Class StatsLib : Type := {
  kruskal : list (list scalar) -> float * float;
  mannwhitneyu : list scalar -> list scalar -> float * float;
  spearmanr : list Z -> list float -> float * float;
  sample_mean : list scalar -> float;
  sample_median : list scalar -> float;
  sample_std : list scalar -> float
}.

(** The aggregations of [groupby(...).agg] on a float column skip missing
    values: ['count'] counts the values present, ['mean'] and ['median'] are
    taken over them. *)
Definition agg_count (xs : list float) : Z := Z.of_nat (List.length (dropna xs)).

Definition agg_mean `{StatsLib} (xs : list float) : float :=
  sample_mean (map SFloat (dropna xs)).

Definition agg_median `{StatsLib} (xs : list float) : float :=
  sample_median (map SFloat (dropna xs)).

Definition agg_std `{StatsLib} (xs : list float) : float :=
  sample_std (map SFloat (dropna xs)).

(** A function that returns either [{'error': msg}] or a result. *)
Inductive outcome_of (A : Type) : Type :=
| Error (msg : string)
| Result (a : A).

Arguments Error {A} msg.
Arguments Result {A} a.

(** [0.05] as numpy reads it: the nearest binary64 value. *)
Definition alpha : float := 0x1.999999999999ap-5%float.

(** * [descriptive.py] *)

Module Descriptive.

(** *** [ultimatum_offers]: the proposer rows and their derived columns *)

Record ProposerRow : Type := mkProposer {
  proposer_record : DecisionRecord;
  offer_amount : float;
  offer_pct : float
}.

Definition proposer_row `{Unicode} (r : DecisionRecord) : ProposerRow :=
  let amount := astype_float (str_extract "offer_" (action r)) in
  mkProposer r amount (pct_of_stake amount (stake r)).

Definition proposer_data `{Unicode} (df : DataFrame) : list ProposerRow :=
  map proposer_row
      (filter (fun r => startswith "offer_" (action r)) (select_game "ultimatum" df)).

Definition proposer_condition (row : ProposerRow) : condition :=
  record_condition (proposer_record row).

Record OfferStats : Type := mkOfferStats {
  os_condition : condition;
  mean_offer_pct : float;
  median_offer_pct : float;
  std_offer_pct : float;
  os_n : Z
}.

Definition offer_stats `{StatsLib} `{Unicode} (df : DataFrame) : list OfferStats :=
  map (fun '(k, rows) =>
         let col := map offer_pct rows in
         mkOfferStats k (agg_mean col) (agg_median col) (agg_std col) (agg_count col))
      (groupby condition_eq_dec condition_leb proposer_condition (proposer_data df)).

(** The responder rows: [ug_data['action'].isin(['accept', 'reject'])]. *)
Definition responder_data (df : DataFrame) : DataFrame :=
  filter (fun r => (eqb_str (action r) "accept" || eqb_str (action r) "reject")%bool)
         (select_game "ultimatum" df).

(** [responder_data['action'] == 'accept'], a boolean averaged as 0 or 1. *)
Definition accepted (r : DecisionRecord) : Z :=
  if eqb_str (action r) "accept" then 1 else 0.

Record AcceptanceStats : Type := mkAcceptanceStats {
  as_condition : condition;
  acceptance_rate : float;
  as_n : Z
}.

Definition acceptance_stats `{StatsLib} (df : DataFrame) : list AcceptanceStats :=
  map (fun '(k, rows) =>
         mkAcceptanceStats k (sample_mean (map (fun r => SInt (accepted r)) rows))
                           (Z.of_nat (List.length rows)))
      (groupby condition_eq_dec condition_leb record_condition (responder_data df)).

Definition ultimatum_offers `{StatsLib} `{Unicode} (df : DataFrame)
  : list OfferStats * list AcceptanceStats :=
  (offer_stats df, acceptance_stats df).

(** *** [dictator_stats] *)

Record GivingRow : Type := mkGiving {
  giving_record : DecisionRecord;
  given : float;
  giving_pct : float
}.

Definition giving_row `{Unicode} (r : DecisionRecord) : GivingRow :=
  let amount := astype_float (str_extract "give_" (action r)) in
  mkGiving r amount (pct_of_stake amount (stake r)).

Definition dg_data `{Unicode} (df : DataFrame) : list GivingRow :=
  map giving_row
      (filter (fun r => startswith "give_" (action r)) (select_game "dictator" df)).

Definition giving_condition (row : GivingRow) : condition :=
  record_condition (giving_record row).

Record GivingStats : Type := mkGivingStats {
  gs_condition : condition;
  mean_giving_pct : float;
  median_giving_pct : float;
  n : Z
}.

Definition dictator_stats `{StatsLib} `{Unicode} (df : DataFrame) : list GivingStats :=
  map (fun '(k, rows) =>
         let col := map giving_pct rows in
         mkGivingStats k (agg_mean col) (agg_median col) (agg_count col))
      (groupby condition_eq_dec condition_leb giving_condition (dg_data df)).

(** The actions [dictator_stats] takes an amount from: those that pass the
    [startswith('give_')] filter and in which [give_(\d+)] matches. *)
Definition is_giving `{Unicode} (a : pystr) : bool :=
  (startswith "give_" a
   && match str_extract "give_" a with Some _ => true | None => false end)%bool.

(** The dictator records of a condition whose action gives an amount. *)
Definition givers `{Unicode} (k : condition) (df : DataFrame) : DataFrame :=
  filter (fun r => is_giving (action r))
         (group_rows condition_eq_dec record_condition k (select_game "dictator" df)).

End Descriptive.

(** * [inference.py] *)

Module Inference.

(** A row of [game_data] once the column ['outcome'] is set. *)
Record OutcomeRow : Type := mkOutcome {
  record : DecisionRecord;
  outcome : scalar
}.

Definition len {A : Type} (l : list A) : Z := Z.of_nat (List.length l).

(** [(game_data['action'] == 'cooperate').astype(int)]. *)
Definition cooperated (r : DecisionRecord) : Z :=
  if eqb_str (action r) "cooperate" then 1 else 0.

Definition cooperation_row (r : DecisionRecord) : OutcomeRow :=
  mkOutcome r (SInt (cooperated r)).

(** The extracted amount over ten times the stake, as an outcome. *)
Definition pct_row `{Unicode} (lit : string) (r : DecisionRecord) : OutcomeRow :=
  mkOutcome r (SFloat (pct_of_stake (astype_float (str_extract lit (action r))) (stake r))).

Definition payoff_row (r : DecisionRecord) : OutcomeRow :=
  mkOutcome r (payoff r).

Definition gives (rows : DataFrame) : DataFrame :=
  filter (fun r => startswith "give_" (action r)) rows.

Definition stake_of (row : OutcomeRow) : Z := stake (record row).

(** [game_data[game_data[col] == v]['outcome']]. *)
Definition outcomes_where (sel : OutcomeRow -> bool) (rows : list OutcomeRow) : list scalar :=
  map outcome (filter sel rows).

(** *** [stake_effect_test] *)

(** The first half of [stake_effect_test]: the outcome column for the
    three supported games, an early error return for any other. *)
Definition stake_outcomes `{Unicode} (game : string) (df : DataFrame)
  : outcome_of (list OutcomeRow) :=
  let game_data := select_game game df in
  if String.eqb game "prisoners-dilemma" then
    Result (map cooperation_row game_data)
  else if String.eqb game "public-goods" then
    Result (map (pct_row "contribute_") game_data)
  else if String.eqb game "dictator" then
    Result (map (pct_row "give_") (gives game_data))
  else
    Error ("Unsupported game type for stake analysis: " ++ game).

(** The games [stake_effect_test] analyses. *)
Definition supported_game (game : string) : bool :=
  (String.eqb game "prisoners-dilemma" || String.eqb game "public-goods"
   || String.eqb game "dictator")%bool.

(** The rows whose stakes form the groups: every row of the game, and for
    the dictator game only those whose action starts with [give_]. *)
Definition stake_rows (game : string) (df : DataFrame) : DataFrame :=
  if String.eqb game "dictator" then gives (select_game game df)
  else select_game game df.

(** [[g['outcome'].values for _, g in game_data.groupby('stake')]]. *)
Definition stake_groups (game_data : list OutcomeRow) : list (list scalar) :=
  map (fun kg => map outcome (snd kg)) (groupby Z.eq_dec Z.leb stake_of game_data).

(** The pairs [(ks[i], ks[j])] with [i < j], in the order of the two loops. *)
Fixpoint pairs {K : Type} (ks : list K) : list (K * K) :=
  match ks with
  | [] => []
  | k :: rest => map (pair k) rest ++ pairs rest
  end.

Record KruskalWallis : Type := mkKruskal {
  h : float;
  p : float;
  sig : bool
}.

Record Pairwise : Type := mkPairwise {
  stake_1 : Z;
  stake_2 : Z;
  u_stat : float;
  pw_p_value : float;
  mean_1 : float;
  mean_2 : float
}.

Record StakeEffect : Type := mkStakeEffect {
  se_game_type : string;
  kruskal_wallis : KruskalWallis;
  eta_squared : float;
  pairwise : list Pairwise
}.

(** [sum(len(g) for g in groups)]. *)
Definition n_total (groups : list (list scalar)) : Z :=
  fold_right Z.add 0 (map len groups).

(** [(h_stat - len(groups) + 1) / (n_total - len(groups))], evaluated left
    to right in [float64]. *)
Definition eta_sq (h_stat : float) (groups : list (list scalar)) : float :=
  ((h_stat - float_of_Z (len groups) + 1) / float_of_Z (n_total groups - len groups))%float.

Definition pairwise_row `{StatsLib} (game_data : list OutcomeRow) (ss : Z * Z) : Pairwise :=
  let g1 := outcomes_where (fun row => Z.eqb (stake_of row) (fst ss)) game_data in
  let g2 := outcomes_where (fun row => Z.eqb (stake_of row) (snd ss)) game_data in
  let '(u, pv) := mannwhitneyu g1 g2 in
  mkPairwise (fst ss) (snd ss) u pv (sample_mean g1) (sample_mean g2).

Definition stake_effect_test `{StatsLib} `{Unicode} (df : DataFrame) (game : string)
  : outcome_of StakeEffect :=
  match stake_outcomes game df with
  | Error msg => Error msg
  | Result game_data =>
      let groups := stake_groups game_data in
      if len groups <? 2 then Error "Need at least 2 stake levels"
      else
        let '(h_stat, p_value) := kruskal groups in
        let stakes := sorted Z.leb (unique Z.eq_dec (map stake_of game_data)) in
        Result (mkStakeEffect game
                  (mkKruskal h_stat p_value (p_value <? alpha)%float)
                  (eta_sq h_stat groups)
                  (map (pairwise_row game_data) (pairs stakes)))
  end.

(** *** [model_comparison_test] *)

(** The outcome column of [model_comparison_test]. *)
Definition comparison_outcomes `{Unicode} (game : string) (df : DataFrame) : list OutcomeRow :=
  let game_data := select_game game df in
  if String.eqb game "prisoners-dilemma" then map cooperation_row game_data
  else if String.eqb game "dictator" then map (pct_row "give_") (gives game_data)
  else map payoff_row game_data.

Definition provider_data (provider : string) (game_data : list OutcomeRow) : list scalar :=
  outcomes_where (fun row => String.eqb (model_provider (record row)) provider) game_data.

(** [np.sqrt((a.std()**2 + b.std()**2) / 2)], a square being the product of
    the value with itself. *)
Definition pooled_std `{StatsLib} (a b : list scalar) : float :=
  sqrt ((sample_std a * sample_std a + sample_std b * sample_std b) / 2)%float.

(** [(a.mean() - b.mean()) / pooled_std if pooled_std > 0 else 0]. *)
Definition cohens_d `{StatsLib} (a b : list scalar) : scalar :=
  if (0 <? pooled_std a b)%float
  then SFloat ((sample_mean a - sample_mean b) / pooled_std a b)%float
  else SInt 0.

Record ModelComparison : Type := mkModelComparison {
  mc_game_type : string;
  claude_mean : float;
  openai_mean : float;
  claude_n : Z;
  openai_n : Z;
  mann_whitney_u : float;
  mc_p_value : float;
  significant : bool;
  mc_cohens_d : scalar
}.

Definition model_comparison_test `{StatsLib} `{Unicode} (df : DataFrame) (game : string)
  : outcome_of ModelComparison :=
  let game_data := comparison_outcomes game df in
  let claude_data := provider_data "claude" game_data in
  let openai_data := provider_data "openai" game_data in
  if ((len claude_data =? 0) || (len openai_data =? 0))%bool
  then Error "Need data from both models"
  else
    let '(u, p_value) := mannwhitneyu claude_data openai_data in
    Result (mkModelComparison game
              (sample_mean claude_data) (sample_mean openai_data)
              (len claude_data) (len openai_data)
              u p_value (p_value <? alpha)%float
              (cohens_d claude_data openai_data)).

(** *** [learning_analysis] *)

Record RoundRate : Type := mkRoundRate {
  rr_round : Z;
  cooperation_rate : float;
  rr_n : Z
}.

Record Trend : Type := mkTrend {
  spearman_rho : scalar;
  p_value : scalar;
  direction : string
}.

Record Learning : Type := mkLearning {
  round_rates : list RoundRate;
  trend : Trend
}.

(** The iterated prisoner's dilemma rows:
    [(game_type == 'prisoners-dilemma') & (total_rounds > 1)]. *)
Definition iterated_pd (df : DataFrame) : DataFrame :=
  filter (fun r => (String.eqb (game_type r) "prisoners-dilemma" && (1 <? total_rounds r))%bool) df.

Definition round_rate `{StatsLib} (kg : Z * DataFrame) : RoundRate :=
  let col := map (fun r => SInt (cooperated r)) (snd kg) in
  mkRoundRate (fst kg) (sample_mean col) (len col).

Definition round_rates_of `{StatsLib} (df : DataFrame) : list RoundRate :=
  map round_rate (groupby Z.eq_dec Z.leb round (iterated_pd df)).

(** [rho > 0] on the value bound to [rho]. *)
Definition is_positive (x : scalar) : bool :=
  match x with
  | SInt z => 0 <? z
  | SFloat f => (0 <? f)%float
  end.

Definition learning_analysis `{StatsLib} (df : DataFrame) : Learning :=
  let rates := round_rates_of df in
  let '(rho, pv) :=
    if 2 <? len rates
    then let '(r, q) := spearmanr (map rr_round rates) (map cooperation_rate rates) in
         (SFloat r, SFloat q)
    else (SInt 0, SInt 1) in
  mkLearning rates
    (mkTrend rho pv (if is_positive rho then "increasing" else "decreasing")).

End Inference.

(** * [visualize.py] *)

Module Visualize.

(** [np.cumsum] of an [int64] array. *)
Fixpoint cumsum_from (acc : Z) (xs : list Z) : list Z :=
  match xs with
  | [] => []
  | x :: rest => int64_add acc x :: cumsum_from (int64_add acc x) rest
  end.

Definition np_cumsum (xs : list Z) : list Z := cumsum_from 0 xs.

(** [ndarray.sum] of an [int64] array. *)
Definition np_sum (xs : list Z) : Z := fold_left int64_add xs 0.

(** [calculate_gini] on integer balances (satoshis).  The guard returns the
    integer literal [0]; otherwise [2 * np.sum(cumsum)] is an [int64]
    product, [/ cumsum[-1]] a true division of two [int64] values, and the
    rest is [float64] arithmetic. *)
Definition calculate_gini (balances : list Z) : scalar :=
  let balances := sorted Z.leb balances in
  let n := Z.of_nat (List.length balances) in
  if ((n =? 0) || (np_sum balances =? 0))%bool then SInt 0
  else
    let cumsum := np_cumsum balances in
    let doubled := int64_mul 2 (np_sum cumsum) in
    SFloat ((float_of_Z (n + 1) - float_of_Z doubled / float_of_Z (last cumsum 0%Z))
            / float_of_Z n)%float.

End Visualize.

(** * [descriptive.py]: the other summaries *)

Module GameStats.

(** *** [cooperation_rates] *)

Record CooperationRate : Type := mkCooperationRate {
  cr_condition : condition;
  cooperation_rate : float;
  n_decisions : Z;
  se : float
}.

(** The column [cooperated] is the boolean [action == 'cooperate'], averaged
    as 0 or 1; ['count'] counts its entries, none of which is missing, and
    [se] is [x.std() / np.sqrt(len(x))] on the group's column. *)
Definition cooperation_rates `{StatsLib} (df : DataFrame) : list CooperationRate :=
  map (fun '(k, rows) =>
         let x := map (fun r => SInt (Inference.cooperated r)) rows in
         mkCooperationRate k (sample_mean x) (Inference.len x)
           (sample_std x / sqrt (float_of_Z (Inference.len x)))%float)
      (groupby condition_eq_dec condition_leb record_condition
               (select_game "prisoners-dilemma" df)).

(** *** [trust_game_stats] *)

Record InvestorRow : Type := mkInvestor {
  investor_record : DecisionRecord;
  investment : float;
  investment_pct : float
}.

Definition investor_row `{Unicode} (r : DecisionRecord) : InvestorRow :=
  let amount := astype_float (str_extract "invest_" (action r)) in
  mkInvestor r amount (pct_of_stake amount (stake r)).

Definition investor_data `{Unicode} (df : DataFrame) : list InvestorRow :=
  map investor_row
      (filter (fun r => startswith "invest_" (action r)) (select_game "trust" df)).

Record TrusteeRow : Type := mkTrustee {
  trustee_record : DecisionRecord;
  returned : float
}.

Definition trustee_data `{Unicode} (df : DataFrame) : list TrusteeRow :=
  map (fun r => mkTrustee r (astype_float (str_extract "return_" (action r))))
      (filter (fun r => startswith "return_" (action r)) (select_game "trust" df)).

Definition investor_condition (row : InvestorRow) : condition :=
  record_condition (investor_record row).

Record InvestStats : Type := mkInvestStats {
  is_condition : condition;
  mean_investment_pct : float;
  is_n : Z
}.

(** [trustee_data] is built and then left aside: only [invest_stats] is
    returned. *)
Definition trust_game_stats `{StatsLib} `{Unicode} (df : DataFrame) : list InvestStats :=
  let investors := investor_data df in
  let trustees := trustee_data df in
  map (fun '(k, rows) =>
         let col := map investment_pct rows in
         mkInvestStats k (agg_mean col) (agg_count col))
      (groupby condition_eq_dec condition_leb investor_condition investors).

(** *** [public_goods_stats] *)

Record ContributionRow : Type := mkContribution {
  contribution_record : DecisionRecord;
  contribution : float;
  contribution_pct : float
}.

Definition contribution_row `{Unicode} (r : DecisionRecord) : ContributionRow :=
  let amount := astype_float (str_extract "contribute_" (action r)) in
  mkContribution r amount (pct_of_stake amount (stake r)).

(** No [startswith] filter here: every public-goods record gets a row. *)
Definition pgg_data `{Unicode} (df : DataFrame) : list ContributionRow :=
  map contribution_row (select_game "public-goods" df).

(** The key [['model_provider', 'knowledge_level', 'stake', 'round']]. *)
Definition round_condition : Type := (string * string * Z * Z)%type.

Definition round_condition_eq_dec (a b : round_condition) : {a = b} + {a <> b}.
Proof.
  decide equality; [apply Z.eq_dec | apply condition_eq_dec].
Defined.

Definition round_condition_leb (a b : round_condition) : bool :=
  let '(m1, k1, s1, r1) := a in
  let '(m2, k2, s2, r2) := b in
  match String.compare m1 m2 with
  | Lt => true
  | Gt => false
  | Eq =>
      match String.compare k1 k2 with
      | Lt => true
      | Gt => false
      | Eq =>
          match Z.compare s1 s2 with
          | Lt => true
          | Gt => false
          | Eq => Z.leb r1 r2
          end
      end
  end.

Definition record_round_condition (r : DecisionRecord) : round_condition :=
  (model_provider r, knowledge_level r, stake r, round r).

Definition contribution_condition (row : ContributionRow) : round_condition :=
  record_round_condition (contribution_record row).

Record ContributionStats : Type := mkContributionStats {
  cs_condition : round_condition;
  mean_contribution_pct : float;
  cs_n : Z
}.

Definition public_goods_stats `{StatsLib} `{Unicode} (df : DataFrame) : list ContributionStats :=
  map (fun '(k, rows) =>
         let col := map contribution_pct rows in
         mkContributionStats k (agg_mean col) (agg_count col))
      (groupby round_condition_eq_dec round_condition_leb contribution_condition
               (pgg_data df)).

(** The actions [public_goods_stats] takes an amount from: those in which
    [contribute_(\d+)] matches, wherever the match starts. *)
Definition contributes `{Unicode} (a : pystr) : bool :=
  match str_extract "contribute_" a with Some _ => true | None => false end.

(** The public-goods records of a key whose action holds an amount. *)
Definition contributors `{Unicode} (k : round_condition) (df : DataFrame) : DataFrame :=
  filter (fun r => contributes (action r))
         (group_rows round_condition_eq_dec record_round_condition k
                     (select_game "public-goods" df)).

End GameStats.

(** * [inference.py]: the other tests *)

(** What these tests call besides: scipy's one-sample t-test, which returns
    the pair (statistic, p-value), and the mean of a numpy array. *)
Class TestLib : Type := {
  ttest_1samp : list scalar -> float -> float * float;
  ndarray_mean : list scalar -> float
}.

Module Tests.

Import Inference.

(** *** [pd_cooperation_test] *)

Record TTest : Type := mkTTest {
  t : float;
  tt_p : float;
  tt_sig : bool
}.

Record CooperationTest : Type := mkCooperationTest {
  overall_cooperation_rate : float;
  ct_n : Z;
  vs_nash : TTest;
  vs_human_50pct : TTest
}.

(** The two population means, [0] and [0.5], are given to the t-test as
    floats. *)
Definition pd_cooperation_test `{StatsLib} `{TestLib} (df : DataFrame) : CooperationTest :=
  let pd_data := select_game "prisoners-dilemma" df in
  let col := map (fun r => SInt (cooperated r)) pd_data in
  let overall_rate := sample_mean col in
  let n := len pd_data in
  let '(t_nash, p_nash) := ttest_1samp col 0%float in
  let '(t_human, p_human) := ttest_1samp col 0.5%float in
  mkCooperationTest overall_rate n
    (mkTTest t_nash p_nash (p_nash <? alpha)%float)
    (mkTTest t_human p_human (p_human <? alpha)%float).

(** *** [knowledge_effect_test] *)

(** The outcome column: cooperation for the prisoner's dilemma, the payoff
    for every other game. *)
Definition knowledge_outcomes (game : string) (df : DataFrame) : list OutcomeRow :=
  let game_data := select_game game df in
  if String.eqb game "prisoners-dilemma" then map cooperation_row game_data
  else map payoff_row game_data.

Definition level_of (row : OutcomeRow) : string := knowledge_level (record row).

(** [{level: g['outcome'].values for level, g in game_data.groupby('knowledge_level')}]:
    a dictionary in insertion order, its keys the distinct levels. *)
Definition knowledge_groups (game_data : list OutcomeRow) : list (string * list scalar) :=
  map (fun kg => (fst kg, map outcome (snd kg)))
      (groupby string_dec String.leb level_of game_data).

Record KnowledgeEffect : Type := mkKnowledgeEffect {
  ke_game_type : string;
  means : list (string * float);
  ns : list (string * Z);
  ke_kruskal_wallis : KruskalWallis
}.

Definition knowledge_effect_test `{StatsLib} `{TestLib} (df : DataFrame) (game : string)
  : outcome_of KnowledgeEffect :=
  let groups := knowledge_groups (knowledge_outcomes game df) in
  if len groups <? 2 then Error "Need at least 2 knowledge levels"
  else
    let '(h_stat, p_value) := kruskal (map snd groups) in
    Result (mkKnowledgeEffect game
              (map (fun kv => (fst kv, ndarray_mean (snd kv))) groups)
              (map (fun kv => (fst kv, len (snd kv))) groups)
              (mkKruskal h_stat p_value (p_value <? alpha)%float)).

End Tests.

(** * [visualize.py]: the balance and transfer tables *)

(** Balances and amounts are whole numbers of satoshis, [int64] columns. *)
Module Wealth.

(** One row of a balances CSV. *)
Record BalanceRecord : Type := mkBalance {
  round : Z;
  agent_name : string;
  model : string;
  priming : string;
  balance : Z
}.

(** [range(n)]. *)
Definition range (n : nat) : list Z := map Z.of_nat (seq 0 n).

(** [bal[bal['round'] == r]['balance'].values]. *)
Definition balances_at (r : Z) (bal : list BalanceRecord) : list Z :=
  map balance (filter (fun b => round b =? r) bal).

(** The list [plot_gini_over_time] builds for one condition: one
    coefficient per round of [range(101)]. *)
Definition gini_series (bal : list BalanceRecord) : list scalar :=
  map (fun r => Visualize.calculate_gini (balances_at r bal)) (range 101).

(** The two curves drawn: [gini_a] and [gini_b]. *)
Definition plot_gini_over_time (bal_a bal_b : list BalanceRecord)
  : list scalar * list scalar :=
  (gini_series bal_a, gini_series bal_b).

End Wealth.

Module Transfers.

(** One row of a transfers CSV. *)
Record TransferRecord : Type := mkTransfer {
  round : Z;
  from_priming : string;
  to_priming : string;
  amount : Z
}.

(** *** [plot_transfer_flow_matrix] *)

Definition priming_pair : Type := (string * string)%type.

Definition priming_pair_eq_dec (a b : priming_pair) : {a = b} + {a <> b}.
Proof. decide equality; apply string_dec. Defined.

Definition priming_pair_leb (a b : priming_pair) : bool :=
  match String.compare (fst a) (fst b) with
  | Lt => true
  | Gt => false
  | Eq => String.leb (snd a) (snd b)
  end.

Definition pair_of (t : TransferRecord) : priming_pair := (from_priming t, to_priming t).

(** [trans_b.groupby(['from_priming', 'to_priming'])['amount'].sum().reset_index()]. *)
Definition flow (trans : list TransferRecord) : list (priming_pair * Z) :=
  map (fun '(k, rows) => (k, Visualize.np_sum (map amount rows)))
      (groupby priming_pair_eq_dec priming_pair_leb pair_of trans).

Definition primings : list string := ["competitive"; "strategic"; "neutral"; "cooperative"].

(** [x in l]. *)
Definition contains (x : string) (l : list string) : bool := existsb (String.eqb x) l.

(** [l.index(x)], the position of the first [x].  Python raises [ValueError]
    when there is none; the length of the list stands for that here, and
    the caller asks behind [x in l] only. *)
Fixpoint index (x : string) (l : list string) : nat :=
  match l with
  | [] => 0%nat
  | y :: l' => if String.eqb y x then 0%nat else S (index x l')
  end.

Definition Matrix : Type := list (list float).

(** [np.zeros((rows, cols))]. *)
Definition zeros (rows cols : nat) : Matrix := repeat (repeat 0%float cols) rows.

Fixpoint update {A : Type} (i : nat) (f : A -> A) (l : list A) : list A :=
  match l, i with
  | [], _ => []
  | x :: l', O => f x :: l'
  | x :: l', S i' => x :: update i' f l'
  end.

(** [matrix[i, j] = v] for indices within the matrix (numpy raises
    [IndexError] beyond, which [index] behind [contains] never reaches). *)
Definition set_cell (i j : nat) (v : float) (m : Matrix) : Matrix :=
  update i (update j (fun _ => v)) m.

(** The matrix [plot_transfer_flow_matrix] draws: zero, then one cell
    assigned per row of [flow] whose two primings are both listed. *)
Definition flow_matrix (trans : list TransferRecord) : Matrix :=
  fold_left
    (fun matrix row =>
       let '(from_p, to_p, total) := row in
       if (contains from_p primings && contains to_p primings)%bool
       then set_cell (index from_p primings) (index to_p primings) (float_of_Z total) matrix
       else matrix)
    (flow trans) (zeros 4 4).

(** What flows from one priming to another: the [int64] sum of the amounts. *)
Definition flow_total (a b : string) (trans : list TransferRecord) : Z :=
  Visualize.np_sum
    (map amount
         (filter (fun t => (String.eqb (from_priming t) a && String.eqb (to_priming t) b)%bool)
                 trans)).

(** A 4 x 4 table over [primings], row by sender and column by recipient. *)
Definition flow_table (g : string -> string -> float) : Matrix :=
  map (fun a => map (fun b => g a b) primings) primings.

(** *** [plot_transfer_volume_over_time] and the total of [generate_summary_stats] *)

(** [trans.groupby('round')['amount'].sum()]: the index and the values. *)
Definition round_volume (trans : list TransferRecord) : list (Z * Z) :=
  map (fun '(k, rows) => (k, Visualize.np_sum (map amount rows)))
      (groupby Z.eq_dec Z.leb round trans).

(** The entry ['Total Volume (sats)'] of [generate_summary_stats]:
    [trans['amount'].sum()]. *)
Definition total_volume (trans : list TransferRecord) : Z :=
  Visualize.np_sum (map amount trans).

End Transfers.

(** * [figures.py] *)

Module Figures.

Import Inference.

(** *** [fig1_cooperation_heatmap] *)

(** The games the two loops run over: the entries of the list [games]. *)
Inductive Game : Type :=
| PrisonersDilemma
| PublicGoods
| Dictator
| Trust
| Ultimatum.

Definition game_name (game : Game) : string :=
  match game with
  | PrisonersDilemma => "prisoners-dilemma"
  | PublicGoods => "public-goods"
  | Dictator => "dictator"
  | Trust => "trust"
  | Ultimatum => "ultimatum"
  end.

Definition games : list Game := [PrisonersDilemma; PublicGoods; Dictator; Trust; Ultimatum].

Definition models : list string := ["claude"; "openai"].

(** The mean of [amounts / (10 * stake)] over some rows, missing values
    skipped: [(amounts / (10 * rows['stake'].values.reshape(-1, 1))).mean().iloc[0]]. *)
Definition mean_pct `{StatsLib} `{Unicode} (lit : string) (rows : DataFrame) : float :=
  agg_mean (map (fun r => pct_of_stake (astype_float (str_extract lit (action r))) (stake r))
                rows).

(** The rows of a game whose action starts with [lit], and their mean
    normalised amount, or the integer [0] when there is no such row. *)
Definition prefixed_rate `{StatsLib} `{Unicode} (lit : string) (subset : DataFrame) : scalar :=
  let rows := filter (fun r => startswith lit (action r)) subset in
  if 0 <? len rows then SFloat (mean_pct lit rows) else SInt 0.

(** The "prosocial" rate of one model in one game: the branch of the chain
    of tests on the game's name that the game takes. *)
Definition rate `{StatsLib} `{Unicode} (df : DataFrame) (model : string) (game : Game) : scalar :=
  let subset :=
    filter (fun r => (String.eqb (model_provider r) model
                      && String.eqb (game_type r) (game_name game))%bool) df in
  match game with
  | PrisonersDilemma => SFloat (sample_mean (map (fun r => SInt (cooperated r)) subset))
  | PublicGoods =>
      if 0 <? len subset then SFloat (mean_pct "contribute_" subset) else SInt 0
  | Dictator => prefixed_rate "give_" subset
  | Trust => prefixed_rate "invest_" subset
  | Ultimatum => prefixed_rate "offer_" subset
  end.

(** [rate if not np.isnan(rate) else 0], stored in a [float64] array. *)
Definition shown (rate : scalar) : float :=
  if isna (to_float rate) then 0%float else to_float rate.

(** The array [data]: one row per model, one column per game. *)
Definition heatmap `{StatsLib} `{Unicode} (df : DataFrame) : list (list float) :=
  map (fun model => map (fun game => shown (rate df model game)) games) models.

(** *** [fig5_trust_scatter] *)

(** [values[:k]] for a length [k]. *)
Definition slice_to {A : Type} (k : Z) (xs : list A) : list A := firstn (Z.to_nat k) xs.

Definition model_data (model : string) (df : DataFrame) : DataFrame :=
  filter (fun r => String.eqb (model_provider r) model) (select_game "trust" df).

(** [investments['pct']]. *)
Definition investment_pcts `{Unicode} (model : string) (df : DataFrame) : list float :=
  map (fun r => pct_of_stake (astype_float (str_extract "invest_" (action r))) (stake r))
      (filter (fun r => startswith "invest_" (action r)) (model_data model df)).

(** [returns['amount']]. *)
Definition return_amounts `{Unicode} (model : string) (df : DataFrame) : list float :=
  map (fun r => astype_float (str_extract "return_" (action r)))
      (filter (fun r => startswith "return_" (action r)) (model_data model df)).

(** The two arrays given to [ax.scatter] for one model, when it is called. *)
Definition trust_points `{Unicode} (model : string) (df : DataFrame)
  : option (list float * list float) :=
  let investments := investment_pcts model df in
  let returns := return_amounts model df in
  if ((0 <? len investments) && (0 <? len returns))%bool then
    Some (slice_to (len returns) investments,
          if len returns >=? len investments
          then slice_to (len investments) returns
          else returns)
  else None.

End Figures.

(** The database the examples are run with. *)
#[global] Existing Instance unicode_14.

(** * Sample data *)

(** Concrete rows and a concrete library, to run the definitions. *)
Module Sample.

Definition row (provider game : string) (stake round total : Z) (action : pystr)
  : DecisionRecord :=
  mkRecord "s1" "a1" provider game "none" stake round total action (SInt 0).

(** The boundary case of the specification: stake 10, action [offer_5]. *)
Definition offer_5_stake_10 : DecisionRecord :=
  row "claude" "ultimatum" 10 1 1 "offer_5".

(** An amount written with a digit that is not ASCII: [give_5] followed by
    the Arabic-Indic digit three, U+0663. *)
Definition give_53_stake_10 : DecisionRecord :=
  row "openai" "dictator" 10 1 1 (str "give_5" ++ [1635])%list.

Definition fsum (xs : list float) : float := fold_left PrimFloat.add xs 0%float.

Definition mean (xs : list scalar) : float :=
  (fsum (map to_float xs) / float_of_Z (Z.of_nat (List.length xs)))%float.

(** The sample standard deviation, with [n - 1] in the denominator. *)
Definition std (xs : list scalar) : float :=
  let m := mean xs in
  let sq := map (fun x => ((to_float x - m) * (to_float x - m))%float) xs in
  sqrt (fsum sq / float_of_Z (Z.of_nat (List.length xs) - 1))%float.

Definition median (xs : list scalar) : float :=
  let ys := sorted PrimFloat.leb (map to_float xs) in
  let k := Nat.div2 (List.length ys) in
  if Nat.even (List.length ys)
  then ((nth (k - 1) ys nan + nth k ys nan) / 2)%float
  else nth k ys nan.

(** A library whose rank tests answer [(stat, pv)] on every input; the
    sample statistics are the textbook ones. *)
Definition lib (stat pv : float) : StatsLib :=
  {| kruskal := fun _ => (stat, pv);
     mannwhitneyu := fun _ _ => (stat, pv);
     spearmanr := fun _ _ => (stat, pv);
     sample_mean := mean;
     sample_median := median;
     sample_std := std |}.

(** Two stake levels, three prisoner's dilemma decisions each. *)
Definition pd_two_stakes : DataFrame :=
  [ row "claude" "prisoners-dilemma" 1 1 1 "cooperate";
    row "claude" "prisoners-dilemma" 1 1 1 "defect";
    row "openai" "prisoners-dilemma" 1 1 1 "defect";
    row "claude" "prisoners-dilemma" 10 1 1 "cooperate";
    row "openai" "prisoners-dilemma" 10 1 1 "cooperate";
    row "openai" "prisoners-dilemma" 10 1 1 "cooperate" ].

(** Three decisions at stake 1 and four at stake 10: the ranks are 2.5 for
    the four defections and 6 for the three cooperations, the rank sums 11
    and 17, and the Kruskal-Wallis statistic is [0.125 / 0.75 = 1/6]. *)
Definition pd_three_and_four : DataFrame :=
  [ row "claude" "prisoners-dilemma" 1 1 1 "cooperate";
    row "claude" "prisoners-dilemma" 1 1 1 "defect";
    row "openai" "prisoners-dilemma" 1 1 1 "defect";
    row "claude" "prisoners-dilemma" 10 1 1 "cooperate";
    row "openai" "prisoners-dilemma" 10 1 1 "cooperate";
    row "claude" "prisoners-dilemma" 10 1 1 "defect";
    row "openai" "prisoners-dilemma" 10 1 1 "defect" ].

(** A library whose [spearmanr] answers with the sum of its second argument
    and the sum of its first, so that both can be read in the result. *)
Definition lib_sums : StatsLib :=
  {| kruskal := fun _ => (0%float, 1%float);
     mannwhitneyu := fun _ _ => (0%float, 1%float);
     spearmanr := fun xs ys => (fsum ys, float_of_Z (fold_right Z.add 0 xs));
     sample_mean := mean;
     sample_median := median;
     sample_std := std |}.

(** Two rounds of an iterated prisoner's dilemma, an ultimatum offer in
    round 3 and a one-shot prisoner's dilemma in round 4. *)
Definition two_rounds_and_others : DataFrame :=
  [ row "claude" "prisoners-dilemma" 1 1 5 "cooperate";
    row "claude" "prisoners-dilemma" 1 2 5 "defect";
    row "claude" "ultimatum" 10 3 5 "offer_5";
    row "claude" "prisoners-dilemma" 1 4 1 "cooperate" ].

(** Three rounds of an iterated prisoner's dilemma, an ultimatum offer in
    round 4 and a one-shot prisoner's dilemma in round 5. *)
Definition three_rounds_and_others : DataFrame :=
  [ row "claude" "prisoners-dilemma" 1 3 5 "defect";
    row "claude" "prisoners-dilemma" 1 1 5 "cooperate";
    row "openai" "prisoners-dilemma" 1 1 5 "defect";
    row "claude" "prisoners-dilemma" 1 2 5 "cooperate";
    row "claude" "ultimatum" 10 4 5 "offer_5";
    row "claude" "prisoners-dilemma" 1 5 1 "cooperate" ].



(** Each provider always plays the same move: no variance on either side. *)
Definition pd_constant : DataFrame :=
  [ row "claude" "prisoners-dilemma" 1 1 1 "cooperate";
    row "openai" "prisoners-dilemma" 1 1 1 "defect";
    row "claude" "prisoners-dilemma" 10 1 1 "cooperate";
    row "openai" "prisoners-dilemma" 10 1 1 "defect" ].

(** Dictator decisions.  In the condition of ['openai']: an amount, an
    amount written with the Arabic-Indic digit three (U+0663), an amount
    that comes after other text, and two actions that give no amount.  In
    the condition of ['claude']: one amount. *)
Definition dictators : DataFrame :=
  [ row "openai" "dictator" 10 1 1 "give_45";
    row "claude" "dictator" 10 1 1 "give_10";
    row "openai" "dictator" 10 1 1 "keep_100";
    row "openai" "dictator" 10 1 1 "give_nothing";
    row "openai" "dictator" 10 1 1 (str "give_" ++ [1635])%list;
    row "openai" "dictator" 10 1 1 "give_up, or give_5" ].

(** One trust decision. *)
Definition one_trust : DataFrame := [ row "claude" "trust" 10 1 1 "invest_50" ].

(** A contribution stated in the middle of a sentence, its amount written
    with an ASCII digit and an Arabic-Indic one (U+0663). *)
Definition contribute_53 : DecisionRecord :=
  row "claude" "public-goods" 10 2 3 (str "I contribute_5" ++ [1635] ++ str " sats")%list.

(** Public-goods decisions: one without an amount in round 1; in round 2
    one that states its amount in a sentence and one that writes it with an
    Arabic-Indic digit. *)
Definition contributions : DataFrame :=
  [ row "claude" "public-goods" 10 1 3 "pass";
    row "claude" "public-goods" 10 2 3 "I contribute_5 sats";
    row "claude" "public-goods" 10 2 3 (str "contribute_" ++ [1635])%list ].

(** Trust decisions of one session: two investments, one return. *)
Definition trust_session : DataFrame :=
  [ row "claude" "trust" 10 1 1 "invest_50";
    row "claude" "trust" 10 1 1 "return_30";
    row "claude" "trust" 10 1 1 "invest_20" ].

(** Prisoner's dilemma decisions at two knowledge levels. *)
Definition two_levels : DataFrame :=
  [ mkRecord "s1" "a1" "claude" "prisoners-dilemma" "none" 1 1 1 "cooperate" (SInt 0);
    mkRecord "s1" "a2" "claude" "prisoners-dilemma" "full" 1 1 1 "defect" (SInt 0);
    mkRecord "s2" "a1" "openai" "prisoners-dilemma" "full" 1 1 1 "cooperate" (SInt 0) ].

(** A t-test that answers [(stat, pv)] on every input, and the textbook mean. *)
Definition testlib (stat pv : float) : TestLib :=
  {| ttest_1samp := fun _ _ => (stat, pv);
     ndarray_mean := mean |}.

(** Three transfers over two rounds, one of them from an agent whose priming
    is not one of the four. *)
Definition transfers : list Transfers.TransferRecord :=
  [ Transfers.mkTransfer 2 "competitive" "neutral" 30;
    Transfers.mkTransfer 1 "strategic" "competitive" 5;
    Transfers.mkTransfer 2 "unprimed" "neutral" 7 ].

End Sample.

(** * Properties *)

(** ** Strings: the pattern [lit(\d+)] *)

Lemma eqb_str_eq (a b : pystr) : eqb_str a b = true <-> a = b.
Proof.
  revert b; induction a as [|x a IH]; intros [|y b]; simpl; split;
    try discriminate; try reflexivity.
  - intros E; apply andb_prop in E as [Exy E].
    apply Z.eqb_eq in Exy; apply IH in E; congruence.
  - intros [= -> ->]; rewrite Z.eqb_refl; now apply IH.
Qed.

Lemma strip_prefix_app (p s : pystr) : strip_prefix p (p ++ s)%list = Some s.
Proof.
  induction p as [|c p IH]; simpl.
  - reflexivity.
  - now rewrite Z.eqb_refl.
Qed.

Lemma strip_prefix_inv (p s rest : pystr) :
  strip_prefix p s = Some rest -> s = (p ++ rest)%list.
Proof.
  revert s; induction p as [|c p IH]; intros s; simpl.
  - now intros [= ->].
  - destruct s as [|b s]; [discriminate|].
    destruct (c =? b) eqn:E; [|discriminate].
    apply Z.eqb_eq in E; subst b.
    intros H; now rewrite (IH _ H).
Qed.

Lemma startswith_app (p s : pystr) : startswith p (p ++ s)%list = true.
Proof. unfold startswith; now rewrite strip_prefix_app. Qed.

Lemma startswith_inv (p s : pystr) :
  startswith p s = true -> exists rest, s = (p ++ rest)%list.
Proof.
  unfold startswith; destruct (strip_prefix p s) as [rest|] eqn:E; [|discriminate].
  intros _; exists rest; now apply strip_prefix_inv.
Qed.

Lemma take_digits_all `{Unicode} (ds : pystr) : all_digits (take_digits ds) = true.
Proof.
  induction ds as [|c ds IH]; simpl; [reflexivity|].
  destruct (is_digit c) eqn:E; simpl; [now rewrite E|reflexivity].
Qed.

(** A greedy digit run stops where the digits stop. *)
Lemma take_digits_app `{Unicode} (ds rest : pystr) :
  all_digits ds = true -> take_digits rest = [] ->
  take_digits (ds ++ rest)%list = ds.
Proof.
  intros Hd Hr; induction ds as [|c ds IH]; simpl in *.
  - exact Hr.
  - apply andb_prop in Hd as [Hc Hd]; rewrite Hc; f_equal; auto.
Qed.

Lemma match_here_app `{Unicode} (lit ds rest : pystr) :
  ds <> [] -> all_digits ds = true -> take_digits rest = [] ->
  match_here lit (lit ++ ds ++ rest)%list = Some ds.
Proof.
  intros Hne Hd Hr; unfold match_here.
  rewrite strip_prefix_app, take_digits_app by assumption.
  destruct ds; [contradiction|reflexivity].
Qed.

Lemma str_extract_unfold `{Unicode} (lit s : pystr) :
  str_extract lit s =
  match match_here lit s with
  | Some ds => Some ds
  | None => match s with
            | [] => None
            | _ :: s' => str_extract lit s'
            end
  end.
Proof. destruct s; reflexivity. Qed.

(** On [lit<digits>] followed by anything that is not a digit, the extracted
    group is the digit run. *)
Lemma str_extract_app `{Unicode} (lit ds rest : pystr) :
  ds <> [] -> all_digits ds = true -> take_digits rest = [] ->
  str_extract lit (lit ++ ds ++ rest)%list = Some ds.
Proof.
  intros; rewrite str_extract_unfold, match_here_app; auto.
Qed.

(** What [str_extract] returns is a non-empty run of digits. *)
Lemma match_here_digits `{Unicode} (lit s ds : pystr) :
  match_here lit s = Some ds -> ds <> [] /\ all_digits ds = true.
Proof.
  unfold match_here; destruct (strip_prefix lit s) as [rest|]; [|discriminate].
  pose proof (take_digits_all rest) as Hd.
  destruct (take_digits rest) eqn:E; [discriminate|].
  intros [= <-]; split; [discriminate|exact Hd].
Qed.

Lemma str_extract_digits `{Unicode} (lit s ds : pystr) :
  str_extract lit s = Some ds -> ds <> [] /\ all_digits ds = true.
Proof.
  induction s as [|c s IH]; rewrite str_extract_unfold;
    destruct (match_here lit _) eqn:E; try discriminate.
  - intros [= <-]; eapply match_here_digits; eauto.
  - intros [= <-]; eapply match_here_digits; eauto.
  - exact IH.
Qed.

(** *** Where the digits are read, and what they write *)

Lemma take_digits_nil_iff `{Unicode} (s : pystr) :
  take_digits s = [] <-> forall c rest, s = c :: rest -> is_digit c = false.
Proof.
  destruct s as [|c s]; simpl.
  - split; [intros _ c rest H0; discriminate|reflexivity].
  - destruct (is_digit c) eqn:E; split.
    + discriminate.
    + intros H0; specialize (H0 c s eq_refl); congruence.
    + intros _ c' rest [= <- <-]; exact E.
    + reflexivity.
Qed.

(** A string is its leading digits followed by something that does not
    start with a digit. *)
Lemma take_digits_split `{Unicode} (s : pystr) :
  exists post, s = (take_digits s ++ post)%list /\ take_digits post = [].
Proof.
  induction s as [|c s (post & Hs & Hp)]; simpl.
  - exists []; auto.
  - destruct (is_digit c) eqn:E.
    + exists post; split; [simpl; congruence|exact Hp].
    + exists (c :: s); split; [reflexivity|simpl; now rewrite E].
Qed.

Lemma match_here_inv `{Unicode} (lit s ds : pystr) :
  match_here lit s = Some ds ->
  exists post, s = (lit ++ ds ++ post)%list /\ take_digits post = [].
Proof.
  unfold match_here.
  destruct (strip_prefix lit s) as [rest|] eqn:E; [|discriminate].
  apply strip_prefix_inv in E; subst s.
  destruct (take_digits_split rest) as (post & Hrest & Hpost).
  destruct (take_digits rest) eqn:Et; [discriminate|].
  intros [= <-]; exists post; split; [now rewrite <- Hrest|exact Hpost].
Qed.

Lemma match_here_none `{Unicode} (lit s : pystr) :
  match_here lit s = None <->
  forall c post, s = (lit ++ c :: post)%list -> is_digit c = false.
Proof.
  unfold match_here; split.
  - intros H0 c post ->; rewrite strip_prefix_app in H0; simpl in H0.
    destruct (is_digit c); [discriminate|reflexivity].
  - intros H0; destruct (strip_prefix lit s) as [rest|] eqn:E; [|reflexivity].
    apply strip_prefix_inv in E; subst s.
    destruct rest as [|c rest]; [reflexivity|].
    simpl; now rewrite (H0 c rest eq_refl).
Qed.

(** Nothing is extracted exactly when [lit] is nowhere followed by a
    digit. *)
Lemma str_extract_none `{Unicode} (lit s : pystr) :
  str_extract lit s = None <->
  forall pre c post, s = (pre ++ lit ++ c :: post)%list -> is_digit c = false.
Proof.
  induction s as [|a s IH]; rewrite str_extract_unfold.
  - destruct (match_here lit []) as [ds|] eqn:E; split; try discriminate; try reflexivity.
    + intros H0; destruct (match_here_digits _ _ _ E) as [Hne Hd].
      apply match_here_inv in E as (post & Hs & _).
      destruct ds as [|c ds]; [contradiction|].
      simpl in Hd; apply andb_prop in Hd as [Hc _].
      rewrite (H0 [] c (ds ++ post)%list Hs) in Hc; discriminate.
    + intros _ pre c post Hs.
      destruct pre; simpl in Hs; [|discriminate].
      eapply match_here_none; eauto.
  - destruct (match_here lit (a :: s)) as [ds|] eqn:E; split; try discriminate.
    + intros H0; destruct (match_here_digits _ _ _ E) as [Hne Hd].
      apply match_here_inv in E as (post & Hs & _).
      destruct ds as [|c ds]; [contradiction|].
      simpl in Hd; apply andb_prop in Hd as [Hc _].
      rewrite (H0 [] c (ds ++ post)%list Hs) in Hc; discriminate.
    + intros Hn pre c post Hs.
      destruct pre as [|b pre]; simpl in Hs.
      * eapply match_here_none; eauto.
      * injection Hs as _ Hs; eapply IH; eauto.
    + intros H0; apply IH; intros pre c post Hs.
      apply (H0 (a :: pre) c post); simpl; now rewrite Hs.
Qed.

(** What is extracted is the whole run of digits after the leftmost [lit]
    that a digit follows. *)
Lemma str_extract_some `{Unicode} (lit s ds : pystr) :
  str_extract lit s = Some ds ->
  exists pre post,
    s = (pre ++ lit ++ ds ++ post)%list
    /\ ds <> [] /\ all_digits ds = true /\ take_digits post = []
    /\ forall pre' c post',
         s = (pre' ++ lit ++ c :: post')%list -> is_digit c = true ->
         (List.length pre <= List.length pre')%nat.
Proof.
  intros H0; destruct (str_extract_digits _ _ _ H0) as [Hne Hd].
  revert H0; induction s as [|a s IH]; rewrite str_extract_unfold;
    destruct (match_here lit _) as [ds'|] eqn:E; try discriminate.
  - intros [= ->]; apply match_here_inv in E as (post & Hs & Hp).
    exists [], post; repeat split; auto; intros; simpl; lia.
  - intros [= ->]; apply match_here_inv in E as (post & Hs & Hp).
    exists [], post; repeat split; auto; intros; simpl; lia.
  - intros H0; destruct (IH H0) as (pre & post & Hs & _ & _ & Hp & Hleft).
    exists (a :: pre), post; simpl; rewrite Hs.
    repeat split; auto.
    intros pre' c post' Hs' Hc.
    destruct pre' as [|b pre']; simpl in Hs'.
    + rewrite <- Hs in Hs'.
      rewrite (proj1 (match_here_none lit (a :: s)) E c post' Hs') in Hc; discriminate.
    + injection Hs' as _ Hs'; rewrite <- Hs in Hs'.
      simpl; apply le_n_S; eapply Hleft; eauto.
Qed.

(** The leftmost place where a digit follows [lit] is where the digits are
    read, to the last digit of the run. *)
Lemma str_extract_intro `{Unicode} (lit pre ds post : pystr) :
  ds <> [] -> all_digits ds = true -> take_digits post = [] ->
  (forall pre' c post',
      (pre ++ lit ++ ds ++ post = pre' ++ lit ++ c :: post')%list ->
      is_digit c = true -> (List.length pre <= List.length pre')%nat) ->
  str_extract lit (pre ++ lit ++ ds ++ post)%list = Some ds.
Proof.
  intros Hne Hd Hp; induction pre as [|a pre IH]; intros Hleft.
  - simpl; now apply str_extract_app.
  - rewrite str_extract_unfold.
    destruct (match_here lit _) as [ds'|] eqn:E.
    + destruct (match_here_digits _ _ _ E) as [Hne' Hd'].
      apply match_here_inv in E as (post' & Hs & _).
      destruct ds' as [|c ds']; [contradiction|].
      simpl in Hd'; apply andb_prop in Hd' as [Hc _].
      specialize (Hleft [] c (ds' ++ post')%list Hs Hc); simpl in Hleft; lia.
    + simpl; apply IH; intros pre' c post' Hs Hc.
      specialize (Hleft (a :: pre') c post'); simpl in Hleft.
      rewrite Hs in Hleft; specialize (Hleft eq_refl Hc); lia.
Qed.

Lemma all_digits_Forall `{Unicode} (ds : pystr) :
  all_digits ds = true <-> forall c, In c ds -> is_digit c = true.
Proof. unfold all_digits; apply forallb_forall. Qed.

Lemma digit_value_range `{Unicode} (c : Z) : 0 <= digit_value c <= 9.
Proof.
  unfold digit_value; destruct (decimal c) as [d|] eqn:E; [|lia].
  eapply decimal_digit; eauto.
Qed.

(** In every database the ASCII digits are digits, with their usual value. *)
Lemma decimal_ascii_digit `{Unicode} (c : Z) : 48 <= c <= 57 -> decimal c = Some (c - 48).
Proof.
  intros Hc; rewrite decimal_ascii by lia.
  assert ((48 <=? c) = true) as -> by (apply Z.leb_le; lia).
  assert ((c <=? 57) = true) as -> by (apply Z.leb_le; lia).
  reflexivity.
Qed.

Lemma is_digit_ascii_digit `{Unicode} (c : Z) : 48 <= c <= 57 -> is_digit c = true.
Proof. intros Hc; unfold is_digit; now rewrite decimal_ascii_digit. Qed.

Lemma digit_value_ascii_digit `{Unicode} (c : Z) : 48 <= c <= 57 -> digit_value c = c - 48.
Proof. intros Hc; unfold digit_value; now rewrite decimal_ascii_digit. Qed.

(** Reading the digits from the left gives the number they write. *)
Lemma digits_to_Z_number `{Unicode} (ds : pystr) (acc : Z) :
  digits_to_Z acc ds = acc * 10 ^ Z.of_nat (List.length ds) + decimal_number ds.
Proof.
  revert acc; induction ds as [|c ds IH]; intros acc.
  - simpl; lia.
  - cbn [digits_to_Z decimal_number List.length]; rewrite IH.
    rewrite Nat2Z.inj_succ, Z.pow_succ_r by lia; ring.
Qed.

Lemma decimal_number_nonneg `{Unicode} (ds : pystr) : 0 <= decimal_number ds.
Proof.
  induction ds as [|c ds IH]; simpl; [lia|].
  pose proof (digit_value_range c).
  assert (0 <= 10 ^ Z.of_nat (List.length ds)) by (apply Z.pow_nonneg; lia).
  nia.
Qed.

(** ** Integer arithmetic *)

Lemma wrap64_small (z : Z) : - 2 ^ 63 <= z < 2 ^ 63 -> wrap64 z = z.
Proof.
  intros Hz; unfold wrap64.
  rewrite Z.mod_small; lia.
Qed.

Lemma wrap64_range (z : Z) : - 2 ^ 63 <= wrap64 z < 2 ^ 63.
Proof.
  unfold wrap64.
  pose proof (Z.mod_pos_bound (z + 2 ^ 63) (2 ^ 64) ltac:(lia)); lia.
Qed.

Lemma wrap64_eqm (z : Z) : wrap64 z mod 2 ^ 64 = z mod 2 ^ 64.
Proof.
  unfold wrap64.
  rewrite <- Zminus_mod_idemp_l, Z.mod_mod by lia.
  rewrite Zminus_mod_idemp_l; f_equal; lia.
Qed.

Lemma wrap64_congr (a b : Z) : a mod 2 ^ 64 = b mod 2 ^ 64 -> wrap64 a = wrap64 b.
Proof.
  intros H; unfold wrap64.
  rewrite <- (Zplus_mod_idemp_l a), <- (Zplus_mod_idemp_l b), H; reflexivity.
Qed.

Lemma int64_mul_exact (a b : Z) :
  - 2 ^ 63 <= a * b < 2 ^ 63 -> int64_mul a b = a * b.
Proof. apply wrap64_small. Qed.

(** ** Grouping *)

Section GroupByFacts.
Context {A K : Type}.
Variable K_eq_dec : forall x y : K, {x = y} + {x <> y}.
Variable K_leb : K -> K -> bool.
Variable key : A -> K.

Lemma insert_sorted_perm (k : K) (ks : list K) :
  Permutation (k :: ks) (insert_sorted K_leb k ks).
Proof.
  induction ks as [|k' ks IH]; simpl.
  - apply Permutation_refl.
  - destruct (K_leb k k').
    + apply Permutation_refl.
    + eapply perm_trans; [apply perm_swap|]; now apply perm_skip.
Qed.

(** Sorting rearranges and nothing else. *)
Lemma sorted_perm (ks : list K) : Permutation ks (sorted K_leb ks).
Proof.
  induction ks as [|k ks IH]; simpl.
  - apply perm_nil.
  - eapply perm_trans; [apply perm_skip, IH|apply insert_sorted_perm].
Qed.

Lemma group_keys_perm (rows : list A) :
  Permutation (nodup K_eq_dec (map key rows)) (group_keys K_eq_dec K_leb key rows).
Proof. apply sorted_perm. Qed.

(** The group keys are the keys that occur. *)
Lemma group_keys_In (rows : list A) (k : K) :
  In k (group_keys K_eq_dec K_leb key rows) <-> exists r, In r rows /\ key r = k.
Proof.
  split.
  - intros H.
    apply (Permutation_in _ (Permutation_sym (group_keys_perm rows))) in H.
    apply nodup_In, in_map_iff in H as (r & Hk & Hr); eauto.
  - intros (r & Hr & Hk).
    apply (Permutation_in _ (group_keys_perm rows)), nodup_In.
    subst k; now apply in_map.
Qed.

Lemma group_keys_NoDup (rows : list A) : NoDup (group_keys K_eq_dec K_leb key rows).
Proof.
  eapply Permutation_NoDup; [apply group_keys_perm|apply NoDup_nodup].
Qed.

(** One group per distinct key. *)
Lemma groupby_length (rows : list A) :
  List.length (groupby K_eq_dec K_leb key rows)
  = List.length (nodup K_eq_dec (map key rows)).
Proof.
  unfold groupby; rewrite length_map.
  symmetry; apply Permutation_length, group_keys_perm.
Qed.

Lemma group_rows_In (k : K) (rows : list A) (r : A) :
  In r (group_rows K_eq_dec key k rows) <-> In r rows /\ key r = k.
Proof.
  unfold group_rows; rewrite filter_In.
  destruct (K_eq_dec (key r) k) as [E|N]; split.
  - intros [Hr _]; auto.
  - intros [Hr _]; auto.
  - intros [_ Hf]; discriminate.
  - intros [_ Hk]; contradiction.
Qed.

(** No group is empty. *)
Lemma group_rows_nonempty (rows : list A) (k : K) :
  In k (group_keys K_eq_dec K_leb key rows) -> group_rows K_eq_dec key k rows <> [].
Proof.
  intros H; apply group_keys_In in H as (r & Hr & Hk).
  assert (In r (group_rows K_eq_dec key k rows)) as Hin by now apply group_rows_In.
  intros E; rewrite E in Hin; exact Hin.
Qed.

Lemma group_row_count (r : A) (ks : list K) :
  NoDup ks -> In (key r) ks ->
  fold_right Z.add 0
    (map (fun k => if K_eq_dec (key r) k then 1 else 0) ks) = 1.
Proof.
  induction 1 as [|k ks Hk Hnd IH]; simpl; [contradiction|].
  intros [-> | Hin].
  - destruct (K_eq_dec (key r) (key r)) as [_|N]; [|contradiction].
    assert (fold_right Z.add 0
              (map (fun k => if K_eq_dec (key r) k then 1 else 0) ks) = 0) as ->; [|lia].
    clear IH Hnd; induction ks as [|k' ks IH']; simpl; [reflexivity|].
    destruct (K_eq_dec (key r) k') as [E|_].
    + exfalso; apply Hk; left; auto.
    + rewrite IH'; [reflexivity|]; intros H; apply Hk; now right.
  - destruct (K_eq_dec (key r) k) as [E|_].
    + exfalso; apply Hk; now rewrite <- E.
    + now rewrite IH.
Qed.

(** The groups partition the rows: their sizes add up to the table's. *)
Lemma group_sizes_total (rows : list A) (ks : list K) :
  NoDup ks -> (forall r, In r rows -> In (key r) ks) ->
  fold_right Z.add 0
    (map (fun k => Z.of_nat (List.length (group_rows K_eq_dec key k rows))) ks)
  = Z.of_nat (List.length rows).
Proof.
  intros Hnd; induction rows as [|r rows IH]; intros Hall.
  - clear Hnd Hall; induction ks as [|k ks IHk]; simpl; [reflexivity|exact IHk].
  - assert (forall l : list K,
              fold_right Z.add 0
                (map (fun k => Z.of_nat (List.length (group_rows K_eq_dec key k (r :: rows)))) l)
              = fold_right Z.add 0 (map (fun k => if K_eq_dec (key r) k then 1 else 0) l)
                + fold_right Z.add 0
                    (map (fun k => Z.of_nat (List.length (group_rows K_eq_dec key k rows))) l)) as Hsplit.
    { induction l as [|k l IHl]; cbn [map fold_right]; [reflexivity|].
      rewrite IHl; unfold group_rows; cbn [filter].
      destruct (K_eq_dec (key r) k); cbn [List.length]; lia. }
    rewrite Hsplit, IH, group_row_count; auto.
    + cbn [List.length]; lia.
    + apply Hall; now left.
    + intros r' Hr'; apply Hall; now right.
Qed.

Lemma groupby_sizes_total (rows : list A) :
  fold_right Z.add 0
    (map (fun kg => Z.of_nat (List.length (snd kg))) (groupby K_eq_dec K_leb key rows))
  = Z.of_nat (List.length rows).
Proof.
  unfold groupby; rewrite map_map; simpl.
  apply group_sizes_total.
  - apply group_keys_NoDup.
  - intros r Hr; apply group_keys_In; eauto.
Qed.
End GroupByFacts.

(** [sorted] sorts, for a comparison that is total. *)
Section SortedFacts.
Context {K : Type}.
Variable K_leb : K -> K -> bool.
Hypothesis K_leb_total : forall a b, K_leb a b = true \/ K_leb b a = true.

Lemma insert_sorted_HdRel (k a : K) (ks : list K) :
  K_leb a k = true -> HdRel (fun x y => K_leb x y = true) a ks ->
  HdRel (fun x y => K_leb x y = true) a (insert_sorted K_leb k ks).
Proof.
  intros Hak Hhd; destruct ks as [|k' ks]; simpl.
  - now constructor.
  - destruct (K_leb k k'); constructor; auto.
    now inversion Hhd.
Qed.

Lemma insert_sorted_Sorted (k : K) (ks : list K) :
  Sorted (fun x y => K_leb x y = true) ks ->
  Sorted (fun x y => K_leb x y = true) (insert_sorted K_leb k ks).
Proof.
  induction 1 as [|k' ks Hs IH Hhd]; simpl.
  - repeat constructor.
  - destruct (K_leb k k') eqn:E.
    + repeat constructor; auto.
    + constructor; [exact IH|].
      apply insert_sorted_HdRel; [|exact Hhd].
      destruct (K_leb_total k k') as [H|H]; [congruence|exact H].
Qed.

Lemma sorted_Sorted (ks : list K) :
  Sorted (fun x y => K_leb x y = true) (sorted K_leb ks).
Proof.
  induction ks as [|k ks IH]; simpl; [constructor|now apply insert_sorted_Sorted].
Qed.
End SortedFacts.

(** Integer keys and balances come out in ascending order. *)
Lemma sorted_Z_ascending (l : list Z) : Sorted Z.le (sorted Z.leb l).
Proof.
  assert (Sorted (fun x y => Z.leb x y = true) (sorted Z.leb l)) as H.
  { apply sorted_Sorted; intros a b; rewrite !Z.leb_le; lia. }
  induction H as [|k ks Hs IH Hhd]; constructor; auto.
  destruct Hhd; constructor; now apply Z.leb_le.
Qed.

(** ** [descriptive.py]: the normalised amounts *)

Lemma select_game_In (g : string) (df : DataFrame) (r : DecisionRecord) :
  In r (select_game g df) <-> In r df /\ game_type r = g.
Proof.
  unfold select_game; rewrite filter_In, String.eqb_eq; reflexivity.
Qed.

Lemma proposer_data_In `{Unicode} (df : DataFrame) (row : Descriptive.ProposerRow) :
  In row (Descriptive.proposer_data df) <->
  exists r, In r df /\ game_type r = "ultimatum"
            /\ startswith "offer_" (action r) = true
            /\ row = Descriptive.proposer_row r.
Proof.
  unfold Descriptive.proposer_data; rewrite in_map_iff; split.
  - intros (r & <- & Hr); apply filter_In in Hr as [Hr Hs].
    apply select_game_In in Hr as [Hr Hg]; eauto 6.
  - intros (r & Hr & Hg & Hs & ->); exists r; split; [reflexivity|].
    apply filter_In; split; [now apply select_game_In|exact Hs].
Qed.

Lemma dg_data_In `{Unicode} (df : DataFrame) (row : Descriptive.GivingRow) :
  In row (Descriptive.dg_data df) <->
  exists r, In r df /\ game_type r = "dictator"
            /\ startswith "give_" (action r) = true
            /\ row = Descriptive.giving_row r.
Proof.
  unfold Descriptive.dg_data; rewrite in_map_iff; split.
  - intros (r & <- & Hr); apply filter_In in Hr as [Hr Hs].
    apply select_game_In in Hr as [Hr Hg]; eauto 6.
  - intros (r & Hr & Hg & Hs & ->); exists r; split; [reflexivity|].
    apply filter_In; split; [now apply select_game_In|exact Hs].
Qed.

(** C1.  Whatever the Unicode database, an ultimatum record of the table
    whose action is [offer_] followed by a non-empty run [ds] of decimal
    digits (and then by nothing, or by text that does not start with a
    digit) is kept among the proposer rows, and on each row made from it
    [offer_amount] is [N] and [offer_pct] is [N / (10 * s)]: [N] the integer
    that [ds] writes in decimal notation, each digit counting by its digit
    value, [s] the record's positive stake, and the quotient a [float64]
    division of [N] by the [int64] product [10 * s].  The same holds of a
    dictator record whose action is [give_<digits>], for [given] and
    [giving_pct].  The [int64] product is the mathematical one as long as
    it fits 63 bits. *)
Theorem offer_and_giving_pct_formula :
  forall (u : Unicode) (df : DataFrame) (r : DecisionRecord) (ds rest : pystr),
    In r df ->
    ds <> [] -> (forall c, In c ds -> is_digit c = true) ->
    (forall c rest', rest = c :: rest' -> is_digit c = false) ->
    0 < stake r ->
    let N := decimal_number ds in
    let s := stake r in
    let pct := (float_of_Z N / float_of_Z (int64_mul 10 s))%float in
    (game_type r = "ultimatum" -> action r = (str "offer_" ++ ds ++ rest)%list ->
     In (Descriptive.mkProposer r (float_of_Z N) pct) (Descriptive.proposer_data df)
     /\ forall row, In row (Descriptive.proposer_data df) ->
                    Descriptive.proposer_record row = r ->
                    Descriptive.offer_pct row = pct)
    /\ (game_type r = "dictator" -> action r = (str "give_" ++ ds ++ rest)%list ->
        In (Descriptive.mkGiving r (float_of_Z N) pct) (Descriptive.dg_data df)
        /\ forall row, In row (Descriptive.dg_data df) ->
                       Descriptive.giving_record row = r ->
                       Descriptive.giving_pct row = pct)
    /\ (10 * s < 2 ^ 63 -> int64_mul 10 s = 10 * s).
Proof.
  intros u df r ds rest Hr Hne Hd Hrest Hs N s pct.
  apply all_digits_Forall in Hd; apply take_digits_nil_iff in Hrest.
  assert (forall lit, astype_float (str_extract lit (lit ++ ds ++ rest)%list)
                      = float_of_Z N) as Hex.
  { intros lit; rewrite str_extract_app by assumption.
    unfold astype_float, N; now rewrite digits_to_Z_number. }
  split; [|split].
  - intros Hg Ha; split.
    + apply proposer_data_In; exists r; split; [exact Hr|split; [exact Hg|split]].
      * rewrite Ha; apply startswith_app.
      * unfold Descriptive.proposer_row; rewrite Ha, Hex; reflexivity.
    + intros row Hrow <-.
      apply proposer_data_In in Hrow as (r' & _ & _ & _ & ->); simpl in *.
      rewrite Ha, Hex; reflexivity.
  - intros Hg Ha; split.
    + apply dg_data_In; exists r; split; [exact Hr|split; [exact Hg|split]].
      * rewrite Ha; apply startswith_app.
      * unfold Descriptive.giving_row; rewrite Ha, Hex; reflexivity.
    + intros row Hrow <-.
      apply dg_data_In in Hrow as (r' & _ & _ & _ & ->); simpl in *.
      rewrite Ha, Hex; reflexivity.
  - intros Hb; apply int64_mul_exact; subst s; lia.
Qed.

(** [offer_5] at stake 10, and [give_5] followed by the Arabic-Indic digit
    three (U+0663) at stake 10: the amounts read are 5 and 53. *)
Lemma offer_and_giving_pct_formula_witness :
  In (Descriptive.mkProposer Sample.offer_5_stake_10 5%float (5 / 100)%float)
     (Descriptive.proposer_data [Sample.offer_5_stake_10; Sample.give_53_stake_10])
  /\ In (Descriptive.mkGiving Sample.give_53_stake_10 53%float (53 / 100)%float)
        (Descriptive.dg_data [Sample.offer_5_stake_10; Sample.give_53_stake_10]).
Proof.
  split.
  - apply (offer_and_giving_pct_formula unicode_14
             [Sample.offer_5_stake_10; Sample.give_53_stake_10]
             Sample.offer_5_stake_10 [53] []);
      try solve [ simpl; auto | discriminate | reflexivity ].
    intros c [<- | []]; reflexivity.
  - apply (offer_and_giving_pct_formula unicode_14
             [Sample.offer_5_stake_10; Sample.give_53_stake_10]
             Sample.give_53_stake_10 [53; 1635] []);
      try solve [ simpl; auto | discriminate | reflexivity ].
    intros c [<- | [<- | []]]; reflexivity.
Defined.

(** Two floats that differ under [=?] are different. *)
Lemma float_neq (x y : float) : (x =? y)%float = false -> (y =? y)%float = true -> x <> y.
Proof. intros Hxy Hyy E; rewrite E, Hyy in Hxy; discriminate. Qed.

(** C2, as the specification states it, fails: with stake 10 the action
    [offer_5] does not decode to one half. *)
Lemma offer_5_stake_10_is_not_half :
  map Descriptive.offer_pct (Descriptive.proposer_data [Sample.offer_5_stake_10])
  <> [0.5%float].
Proof.
  intros E.
  assert (hd 0%float (map Descriptive.offer_pct
                        (Descriptive.proposer_data [Sample.offer_5_stake_10]))
          = 0.5%float) as H by now rewrite E.
  revert H; apply float_neq; reflexivity.
Qed.

(** C2, amended.  An ultimatum record with stake 10 and action [offer_5]
    decodes to [5 / (10 * 10)], the [float64] nearest to 0.05, on every
    proposer row made from it. *)
Theorem offer_5_stake_10_pct :
  forall (u : Unicode) (df : DataFrame) (r : DecisionRecord),
    In r df -> game_type r = "ultimatum" -> stake r = 10 -> action r = "offer_5" ->
    In (Descriptive.proposer_row r) (Descriptive.proposer_data df)
    /\ Descriptive.offer_amount (Descriptive.proposer_row r) = 5%float
    /\ Descriptive.offer_pct (Descriptive.proposer_row r) = (5 / 100)%float
    /\ (5 / 100)%float = 0x1.999999999999ap-5%float.
Proof.
  intros u df r Hr Hg Hs Ha.
  assert (astype_float (str_extract "offer_" (action r)) = 5%float) as Hex.
  { rewrite Ha; change (str "offer_5") with (str "offer_" ++ [53] ++ [])%list.
    rewrite str_extract_app; [|discriminate| |reflexivity].
    - unfold astype_float; cbn [digits_to_Z].
      now rewrite digit_value_ascii_digit by lia.
    - cbn [all_digits forallb]; now rewrite is_digit_ascii_digit by lia. }
  split; [|split; [|split]].
  - apply proposer_data_In; exists r; repeat split; auto.
    now rewrite Ha.
  - unfold Descriptive.proposer_row; cbn [Descriptive.offer_amount]; exact Hex.
  - unfold Descriptive.proposer_row; cbn [Descriptive.offer_pct]; now rewrite Hex, Hs.
  - reflexivity.
Qed.

Lemma offer_5_stake_10_pct_witness :
  Descriptive.offer_pct (Descriptive.proposer_row Sample.offer_5_stake_10)
  = (5 / 100)%float.
Proof.
  apply (offer_5_stake_10_pct unicode_14 [Sample.offer_5_stake_10]
           Sample.offer_5_stake_10);
    solve [ simpl; auto | reflexivity ].
Defined.

(** ** [inference.py]: the effect of the stake *)

Import Inference.

Lemma len_map {A B : Type} (f : A -> B) (l : list A) : len (map f l) = len l.
Proof. unfold len; now rewrite length_map. Qed.

(** The outcome rows are made from the rows of [stake_rows], one each. *)
Lemma stake_outcomes_rows {db : Unicode} (game : string) (df : DataFrame)
      (game_data : list OutcomeRow) :
  stake_outcomes game df = Result game_data ->
  map record game_data = stake_rows game df /\ supported_game game = true.
Proof.
  unfold stake_outcomes, stake_rows, supported_game.
  destruct (String.eqb game "prisoners-dilemma") eqn:E1.
  { apply String.eqb_eq in E1; subst game; simpl.
    intros [= <-]; rewrite map_map; simpl; now rewrite map_id. }
  destruct (String.eqb game "public-goods") eqn:E2.
  { apply String.eqb_eq in E2; subst game; simpl.
    intros [= <-]; rewrite map_map; simpl; now rewrite map_id. }
  destruct (String.eqb game "dictator") eqn:E3; [|discriminate].
  intros [= <-]; rewrite map_map; simpl; now rewrite map_id.
Qed.

Lemma stake_outcomes_unsupported {db : Unicode} (game : string) (df : DataFrame) :
  supported_game game = false ->
  stake_outcomes game df = Error ("Unsupported game type for stake analysis: " ++ game).
Proof.
  unfold stake_outcomes, supported_game; intros H.
  apply orb_false_elim in H as [H E3]; apply orb_false_elim in H as [E1 E2].
  now rewrite E1, E2, E3.
Qed.

Lemma stake_outcomes_supported {db : Unicode} (game : string) (df : DataFrame) :
  supported_game game = true -> exists game_data, stake_outcomes game df = Result game_data.
Proof.
  unfold stake_outcomes, supported_game; intros H.
  destruct (String.eqb game "prisoners-dilemma"); [eauto|].
  destruct (String.eqb game "public-goods"); [eauto|].
  destruct (String.eqb game "dictator"); [eauto|discriminate].
Qed.

(** One group per distinct stake. *)
Lemma stake_groups_length (game_data : list OutcomeRow) :
  len (stake_groups game_data)
  = Z.of_nat (List.length (nodup Z.eq_dec (map stake_of game_data))).
Proof.
  unfold stake_groups, len; now rewrite length_map, groupby_length.
Qed.

(** The groups hold every observation once. *)
Lemma n_total_stake_groups (game_data : list OutcomeRow) :
  n_total (stake_groups game_data) = len game_data.
Proof.
  unfold n_total, stake_groups; rewrite map_map.
  etransitivity; [|apply (groupby_sizes_total Z.eq_dec Z.leb stake_of game_data)].
  f_equal; apply map_ext; intros kg; apply len_map.
Qed.

Lemma stake_effect_test_result `{StatsLib} {db : Unicode} (df : DataFrame) (game : string)
      (res : StakeEffect) :
  stake_effect_test df game = Result res ->
  exists game_data,
    stake_outcomes game df = Result game_data
    /\ 2 <= len (stake_groups game_data)
    /\ res = mkStakeEffect game
               (mkKruskal (fst (kruskal (stake_groups game_data)))
                          (snd (kruskal (stake_groups game_data)))
                          (snd (kruskal (stake_groups game_data)) <? alpha)%float)
               (eta_sq (fst (kruskal (stake_groups game_data))) (stake_groups game_data))
               (map (pairwise_row game_data)
                    (pairs (sorted Z.leb (unique Z.eq_dec (map stake_of game_data))))).
Proof.
  unfold stake_effect_test.
  destruct (stake_outcomes game df) as [msg|game_data]; [discriminate|].
  destruct (len (stake_groups game_data) <? 2) eqn:E; [discriminate|].
  apply Z.ltb_ge in E.
  destruct (kruskal (stake_groups game_data)) as [h_stat p_value] eqn:Ek.
  intros [= <-]; exists game_data; rewrite Ek.
  split; [reflexivity|split; [exact E|reflexivity]].
Qed.

(** C3, as the specification states it, fails in its [k = 2] clause: the
    code computes [H - 2 + 1], and in [float64] that is not always [H - 1].
    On [Sample.pd_three_and_four] there are two groups and seven
    observations, and the rank formula with its correction for ties gives
    [H = 1/6]; the reported value is then
    [(1/6 - 2 + 1) / 5 = -0.16666666666666666], not
    [(1/6 - 1) / 5 = -0.16666666666666669]. *)
Lemma eta_squared_is_not_h_minus_1 :
  exists res,
    @stake_effect_test (Sample.lib (1 / 6) 0.5) unicode_14 Sample.pd_three_and_four
      "prisoners-dilemma" = Result res
    /\ h (kruskal_wallis res) = (1 / 6)%float
    /\ len (stake_groups (map cooperation_row Sample.pd_three_and_four)) = 2
    /\ len Sample.pd_three_and_four = 7
    /\ eta_squared res <> ((1 / 6 - 1) / (7 - 2))%float.
Proof.
  eexists; split; [reflexivity|].
  split; [reflexivity|split; [reflexivity|split; [reflexivity|]]].
  apply float_neq; reflexivity.
Qed.

(** C3, amended.  Whenever [stake_effect_test] runs its Kruskal-Wallis
    test, there are [k >= 2] groups, one per stake level of the analysed
    rows, holding the [N] observations between them, and the reported
    [eta_squared] is [(H - k + 1) / (N - k)] for the statistic [H] the test
    returned, as [float64] arithmetic evaluates it from the left.  For
    [k = 2] that is [(H - 2 + 1) / (N - 2)], which is [(H - 1) / (N - 2)]
    whenever the two numerators round alike. *)
Theorem eta_squared_formula :
  forall (lib : StatsLib) (u : Unicode) (df : DataFrame) (game : string) (res : StakeEffect),
    stake_effect_test df game = Result res ->
    exists game_data,
      stake_outcomes game df = Result game_data /\
      let groups := stake_groups game_data in
      let H := fst (kruskal groups) in
      let k := len groups in
      let N := len game_data in
      2 <= k
      /\ k = Z.of_nat (List.length (nodup Z.eq_dec (map stake (stake_rows game df))))
      /\ N = n_total groups
      /\ h (kruskal_wallis res) = H
      /\ eta_squared res = ((H - float_of_Z k + 1) / float_of_Z (N - k))%float
      /\ (k = 2 -> eta_squared res = ((H - 2 + 1) / float_of_Z (N - 2))%float)
      /\ (k = 2 -> (H - 2 + 1)%float = (H - 1)%float ->
          eta_squared res = ((H - 1) / float_of_Z (N - 2))%float).
Proof.
  intros lib u df game res Hres.
  apply stake_effect_test_result in Hres as (game_data & Hout & Hk & ->).
  exists game_data; split; [exact Hout|]; cbv zeta.
  apply stake_outcomes_rows in Hout as [Hrows _].
  assert (len (stake_groups game_data) = 2 ->
          eta_sq (fst (kruskal (stake_groups game_data))) (stake_groups game_data)
          = ((fst (kruskal (stake_groups game_data)) - 2 + 1)
             / float_of_Z (len game_data - 2))%float) as H2.
  { intros E; unfold eta_sq; rewrite n_total_stake_groups, E; reflexivity. }
  repeat split.
  - exact Hk.
  - rewrite stake_groups_length, <- Hrows, map_map; reflexivity.
  - now rewrite n_total_stake_groups.
  - simpl; unfold eta_sq; now rewrite n_total_stake_groups.
  - intros E; simpl; exact (H2 E).
  - intros E Hnum; simpl; rewrite (H2 E), Hnum; reflexivity.
Qed.

(** On [Sample.pd_two_stakes] the outcomes are [1, 0, 0] at stake 1 and
    [1, 1, 1] at stake 10; the rank formula with its correction for ties
    gives [H = 2.5] there, for which both numerators are [1.5]. *)
Lemma eta_squared_formula_witness :
  exists res,
    @stake_effect_test (Sample.lib 2.5 0.5) unicode_14 Sample.pd_two_stakes "prisoners-dilemma"
    = Result res
    /\ eta_squared res = ((2.5 - 2 + 1) / 4)%float
    /\ eta_squared res = ((2.5 - 1) / 4)%float.
Proof.
  destruct (@stake_effect_test (Sample.lib 2.5 0.5) unicode_14 Sample.pd_two_stakes
              "prisoners-dilemma") as [msg|res] eqn:E; [discriminate|].
  exists res; split; [reflexivity|].
  destruct (eta_squared_formula _ _ _ _ _ E) as (gd & Hgd & _ & _ & _ & _ & _ & H2 & H1).
  injection Hgd as <-; split; [exact (H2 eq_refl)|exact (H1 eq_refl eq_refl)].
Defined.

(** The hand-computed case of the specification: two groups of three whose
    ranks are 1, 2, 3 and 4, 5, 6, so that
    [H = 12 / (6 * 7) * (6 * 6 / 3 + 15 * 15 / 3) - 3 * 7 = 27 / 7].  There
    the value is [(H - 1) / (N - 2)] bit for bit. *)
Example eta_sq_two_groups_of_three :
  eta_sq (27 / 7) [[SFloat 1; SFloat 2; SFloat 3]; [SFloat 4; SFloat 5; SFloat 6]]
  = ((27 / 7 - 1) / (6 - 2))%float.
Proof. reflexivity. Qed.

(** C4, as the specification states it, fails on a game the test does not
    analyse: one trust decision is fewer than two stake levels, and the error
    returned is not the one about stake levels. *)
Lemma stake_effect_trust_other_error :
  (List.length (nodup Z.eq_dec (map stake (select_game "trust" Sample.one_trust))) < 2)%nat
  /\ @stake_effect_test (Sample.lib 0 1) unicode_14 Sample.one_trust "trust"
     = Error "Unsupported game type for stake analysis: trust"
  /\ @stake_effect_test (Sample.lib 0 1) unicode_14 Sample.one_trust "trust"
     <> Error "Need at least 2 stake levels".
Proof.
  split; [simpl; lia|split; [reflexivity|discriminate]].
Qed.

(** C4, amended.  When the rows analysed for the game ([stake_rows]) span
    fewer than two distinct stake levels, [stake_effect_test] returns an error
    and nothing else: ['Need at least 2 stake levels'] for the games it
    analyses, the unsupported-game error for any other game. *)
Theorem stake_effect_insufficient_groups :
  forall (lib : StatsLib) (u : Unicode) (df : DataFrame) (game : string),
    (List.length (nodup Z.eq_dec (map stake (stake_rows game df))) < 2)%nat ->
    stake_effect_test df game
    = Error (if supported_game game
             then "Need at least 2 stake levels"
             else "Unsupported game type for stake analysis: " ++ game).
Proof.
  intros lib u df game Hlt; unfold stake_effect_test.
  destruct (supported_game game) eqn:Hs.
  - destruct (stake_outcomes_supported game df Hs) as [game_data Hout].
    rewrite Hout.
    apply stake_outcomes_rows in Hout as [Hrows _].
    assert ((len (stake_groups game_data) <? 2) = true) as ->; [|reflexivity].
    apply Z.ltb_lt; rewrite stake_groups_length.
    rewrite <- Hrows, map_map in Hlt.
    change (fun x => stake (record x)) with stake_of in Hlt; lia.
  - now rewrite stake_outcomes_unsupported.
Qed.

Lemma stake_effect_insufficient_groups_witness :
  @stake_effect_test (Sample.lib 0 1) unicode_14 (firstn 3 Sample.pd_two_stakes) "prisoners-dilemma"
  = Error "Need at least 2 stake levels".
Proof.
  apply (stake_effect_insufficient_groups (Sample.lib 0 1) unicode_14
           (firstn 3 Sample.pd_two_stakes) "prisoners-dilemma").
  simpl; lia.
Defined.

(** ** [inference.py]: the comparison of the two models *)

Lemma comparison_outcomes_record {db : Unicode} (game : string) (df : DataFrame)
      (row : OutcomeRow) :
  In row (comparison_outcomes game df) -> In (record row) (select_game game df).
Proof.
  unfold comparison_outcomes, gives.
  destruct (String.eqb game "prisoners-dilemma");
    [|destruct (String.eqb game "dictator")];
    intros Hin; apply in_map_iff in Hin as (r & <- & Hr); simpl; auto.
  now apply filter_In in Hr.
Qed.

(** A provider with no row of the game has no outcome to compare. *)
Lemma provider_data_nil {db : Unicode} (provider game : string) (df : DataFrame) :
  filter (fun r => String.eqb (model_provider r) provider) (select_game game df) = [] ->
  provider_data provider (comparison_outcomes game df) = [].
Proof.
  intros Hnil; unfold provider_data, outcomes_where.
  destruct (filter _ (comparison_outcomes game df)) as [|row rows] eqn:E; [reflexivity|].
  assert (In row (filter (fun row => String.eqb (model_provider (record row)) provider)
                         (comparison_outcomes game df))) as Hin by (rewrite E; now left).
  apply filter_In in Hin as [Hin Hp].
  apply comparison_outcomes_record in Hin.
  assert (In (record row)
             (filter (fun r => String.eqb (model_provider r) provider) (select_game game df)))
    as Hin' by (apply filter_In; auto).
  rewrite Hnil in Hin'; contradiction.
Qed.

(** C5.  When the rows of the selected game hold no ['claude'] row, or no
    ['openai'] row, [model_comparison_test] returns the error
    ['Need data from both models'], and with it no statistic. *)
Theorem model_comparison_needs_both :
  forall (lib : StatsLib) (u : Unicode) (df : DataFrame) (game : string),
    filter (fun r => String.eqb (model_provider r) "claude") (select_game game df) = []
    \/ filter (fun r => String.eqb (model_provider r) "openai") (select_game game df) = [] ->
    model_comparison_test df game = Error "Need data from both models".
Proof.
  intros lib u df game Hempty; unfold model_comparison_test.
  destruct Hempty as [Hc | Ho].
  - now rewrite (provider_data_nil _ _ _ Hc).
  - rewrite (provider_data_nil _ _ _ Ho).
    now rewrite orb_true_r.
Qed.

Lemma model_comparison_needs_both_witness :
  @model_comparison_test (Sample.lib 0 1) unicode_14 Sample.one_trust "trust"
  = Error "Need data from both models".
Proof.
  apply (model_comparison_needs_both (Sample.lib 0 1) unicode_14 Sample.one_trust "trust").
  right; reflexivity.
Defined.

(** *** Zero and NaN in [float64] *)

Lemma Prim2SF_zero : Prim2SF 0 = S754_zero false.
Proof. reflexivity. Qed.

Lemma SFcompare_refl (x : spec_float) :
  x <> S754_nan -> SFcompare x x = Some Eq.
Proof.
  destruct x as [s|s| |s m e]; simpl; intros Hx; try reflexivity.
  - now destruct s.
  - contradiction.
  - rewrite Z.compare_refl, Pos.compare_cont_refl; now destruct s.
Qed.

(** [is_nan] recognises exactly the NaN of the specification. *)
Lemma is_nan_spec (x : float) : is_nan x = true <-> Prim2SF x = S754_nan.
Proof.
  unfold is_nan; rewrite eqb_spec; unfold SFeqb; split.
  - intros H; destruct (Prim2SF x) eqn:E; try reflexivity;
      rewrite SFcompare_refl in H by discriminate; discriminate.
  - now intros ->.
Qed.

(** The floats equal to zero are the two zeros. *)
Lemma eqb_zero_cases (x : float) :
  (x =? 0)%float = true -> x = 0%float \/ x = (-0)%float.
Proof.
  rewrite eqb_spec, Prim2SF_zero; unfold SFeqb; intros H.
  rewrite <- (SF2Prim_Prim2SF x).
  destruct (Prim2SF x) as [s|s| |s m e]; simpl in H; try discriminate.
  - destruct s; [right|left]; reflexivity.
  - destruct s; discriminate.
  - destruct s; discriminate.
Qed.

Lemma eqb_zero_not_positive (x : float) :
  (x =? 0)%float = true -> (0 <? x)%float = false.
Proof. intros H; destruct (eqb_zero_cases x H) as [-> | ->]; reflexivity. Qed.

(** A comparison with NaN is false. *)
Lemma nan_not_positive (x : float) : is_nan x = true -> (0 <? x)%float = false.
Proof.
  intros H; apply is_nan_spec in H.
  rewrite ltb_spec, H, Prim2SF_zero; reflexivity.
Qed.

Lemma model_comparison_test_result `{StatsLib} {db : Unicode} (df : DataFrame) (game : string)
      (res : ModelComparison) :
  model_comparison_test df game = Result res ->
  let a := provider_data "claude" (comparison_outcomes game df) in
  let b := provider_data "openai" (comparison_outcomes game df) in
  a <> [] /\ b <> []
  /\ res = mkModelComparison game (sample_mean a) (sample_mean b) (len a) (len b)
             (fst (mannwhitneyu a b)) (snd (mannwhitneyu a b))
             (snd (mannwhitneyu a b) <? alpha)%float (cohens_d a b).
Proof.
  unfold model_comparison_test; cbv zeta.
  set (a := provider_data "claude" (comparison_outcomes game df)).
  set (b := provider_data "openai" (comparison_outcomes game df)).
  destruct (len a =? 0) eqn:Ea; [discriminate|].
  destruct (len b =? 0) eqn:Eb; [discriminate|].
  simpl; destruct (mannwhitneyu a b) as [u pv]; simpl.
  intros [= <-]; apply Z.eqb_neq in Ea, Eb.
  split; [intros E; apply Ea; now rewrite E|].
  split; [intros E; apply Eb; now rewrite E|reflexivity].
Qed.

(** C6.  When [model_comparison_test] computes a comparison, the reported
    Cohen's d is the integer [0] whenever the pooled standard deviation is
    zero; in particular when both groups have a standard deviation of zero,
    for then the pooled one is zero.  It is [0] as well when the pooled
    standard deviation is NaN: no division takes place in either case. *)
Theorem cohens_d_degenerate :
  forall (lib : StatsLib) (u : Unicode) (df : DataFrame) (game : string) (res : ModelComparison),
    model_comparison_test df game = Result res ->
    let a := provider_data "claude" (comparison_outcomes game df) in
    let b := provider_data "openai" (comparison_outcomes game df) in
    ((pooled_std a b =? 0)%float = true -> mc_cohens_d res = SInt 0)
    /\ ((sample_std a =? 0)%float = true -> (sample_std b =? 0)%float = true ->
        pooled_std a b = 0%float /\ mc_cohens_d res = SInt 0)
    /\ (is_nan (pooled_std a b) = true -> mc_cohens_d res = SInt 0).
Proof.
  intros lib u df game res Hres a b.
  destruct (model_comparison_test_result df game res Hres) as (_ & _ & ->).
  fold a b; simpl; unfold cohens_d.
  assert ((pooled_std a b =? 0)%float = true ->
          (if (0 <? pooled_std a b)%float
           then SFloat ((sample_mean a - sample_mean b) / pooled_std a b)
           else SInt 0) = SInt 0) as Hzero.
  { intros Hp; now rewrite (eqb_zero_not_positive _ Hp). }
  split; [exact Hzero|split].
  - intros Ha Hb.
    assert (pooled_std a b = 0%float) as Hp.
    { unfold pooled_std.
      destruct (eqb_zero_cases _ Ha) as [-> | ->], (eqb_zero_cases _ Hb) as [-> | ->];
        reflexivity. }
    split; [exact Hp|]; apply Hzero; now rewrite Hp.
  - intros Hn; now rewrite (nan_not_positive _ Hn).
Qed.

Lemma cohens_d_degenerate_witness :
  exists res,
    @model_comparison_test (Sample.lib 0 1) unicode_14 Sample.pd_constant "prisoners-dilemma"
    = Result res
    /\ claude_mean res = 1%float /\ openai_mean res = 0%float
    /\ mc_cohens_d res = SInt 0.
Proof.
  destruct (@model_comparison_test (Sample.lib 0 1) unicode_14 Sample.pd_constant
              "prisoners-dilemma") as [msg|res] eqn:E; [discriminate|].
  exists res; split; [reflexivity|].
  pose proof (cohens_d_degenerate _ _ _ _ _ E) as (_ & H0 & _).
  injection E as <-.
  repeat split; apply H0; reflexivity.
Defined.

Lemma filter_map_comm {A B : Type} (f : B -> bool) (g : A -> B) (l : list A) :
  filter f (map g l) = map g (filter (fun x => f (g x)) l).
Proof.
  induction l as [|x l IH]; simpl; [reflexivity|].
  destruct (f (g x)); simpl; now rewrite IH.
Qed.



(** ** [inference.py]: the trend over rounds *)

Lemma group_rows_eqb {A : Type} (key : A -> Z) (k : Z) (rows : list A) :
  group_rows Z.eq_dec key k rows = filter (fun r => key r =? k) rows.
Proof.
  unfold group_rows; apply filter_ext; intros r.
  destruct (Z.eq_dec (key r) k) as [E|N].
  - symmetry; now apply Z.eqb_eq.
  - symmetry; now apply Z.eqb_neq.
Qed.

(** One rate per distinct round. *)
Lemma round_rates_length `{StatsLib} (df : DataFrame) :
  List.length (round_rates_of df)
  = List.length (nodup Z.eq_dec (map round (iterated_pd df))).
Proof.
  unfold round_rates_of; rewrite length_map.
  apply (groupby_length Z.eq_dec Z.leb round).
Qed.

(** ** [visualize.py]: the Gini coefficient *)

Import Visualize.

Lemma int64_add_wrap_l (a b : Z) : int64_add (wrap64 a) b = wrap64 (a + b).
Proof.
  unfold int64_add; apply wrap64_congr.
  rewrite <- Zplus_mod_idemp_l, wrap64_eqm, Zplus_mod_idemp_l; reflexivity.
Qed.

Lemma fold_int64_add (xs : list Z) (a : Z) :
  fold_left int64_add xs (wrap64 a) = wrap64 (a + fold_right Z.add 0 xs).
Proof.
  revert a; induction xs as [|x xs IH]; intros a; simpl.
  - f_equal; lia.
  - rewrite int64_add_wrap_l, IH; f_equal; lia.
Qed.

(** The [int64] sum is the sum of the integers, wrapped once. *)
Lemma np_sum_spec (xs : list Z) : np_sum xs = wrap64 (fold_right Z.add 0 xs).
Proof. apply (fold_int64_add xs 0). Qed.

Lemma sum_perm (xs ys : list Z) :
  Permutation xs ys -> fold_right Z.add 0 xs = fold_right Z.add 0 ys.
Proof. induction 1; simpl; lia. Qed.

(** Sorting the balances does not change their sum. *)
Lemma np_sum_sorted (xs : list Z) : np_sum (sorted Z.leb xs) = np_sum xs.
Proof.
  rewrite !np_sum_spec; f_equal; symmetry; apply sum_perm, sorted_perm.
Qed.

Lemma sorted_length (xs : list Z) : List.length (sorted Z.leb xs) = List.length xs.
Proof. symmetry; apply Permutation_length, sorted_perm. Qed.

(** The last running sum is the sum. *)
Lemma last_cumsum_from (xs : list Z) (acc d : Z) :
  xs <> [] -> last (cumsum_from acc xs) d = fold_left int64_add xs acc.
Proof.
  revert acc; induction xs as [|x xs IH]; intros acc Hne; [contradiction|].
  destruct xs as [|y ys]; [reflexivity|].
  change (cumsum_from acc (x :: y :: ys))
    with (int64_add acc x :: cumsum_from (int64_add acc x) (y :: ys)).
  change (fold_left int64_add (x :: y :: ys) acc)
    with (fold_left int64_add (y :: ys) (int64_add acc x)).
  rewrite <- IH by discriminate; reflexivity.
Qed.

Lemma last_np_cumsum (xs : list Z) (d : Z) : xs <> [] -> last (np_cumsum xs) d = np_sum xs.
Proof. apply last_cumsum_from. Qed.

(** C10.  [calculate_gini] returns the integer [0] on an empty list and on
    a list whose sum is zero.  On any other input (a non-empty list whose
    [int64] sum, the one the guard tests, is not zero) the divisor
    [cumsum[-1]] is that sum, hence not zero, and the result is
    [(n + 1 - 2 * sum(cumsum) / cumsum[-1]) / n] over the sorted balances.
    The [int64] sum is the sum of the integers when that fits 63 bits. *)
Theorem calculate_gini_guarded :
  forall balances : list Z,
    let total := fold_right Z.add 0 balances in
    let n := Z.of_nat (List.length balances) in
    let cumsum := np_cumsum (sorted Z.leb balances) in
    let last_cumsum := last cumsum 0 in
    let doubled := int64_mul 2 (np_sum cumsum) in
    (balances = [] -> calculate_gini balances = SInt 0)
    /\ (total = 0 -> calculate_gini balances = SInt 0)
    /\ (balances <> [] -> np_sum balances <> 0 ->
        last_cumsum = np_sum balances
        /\ last_cumsum <> 0
        /\ calculate_gini balances
           = SFloat ((float_of_Z (n + 1) - float_of_Z doubled / float_of_Z last_cumsum)
                     / float_of_Z n)%float)
    /\ (- 2 ^ 63 <= total < 2 ^ 63 -> np_sum balances = total).
Proof.
  intros balances total n cumsum last_cumsum doubled.
  split; [intros ->; reflexivity|].
  split; [|split].
  - intros Ht; unfold calculate_gini.
    rewrite np_sum_sorted, np_sum_spec; fold total; rewrite Ht.
    change (wrap64 0 =? 0) with true; now rewrite orb_true_r.
  - intros Hne Hsum.
    assert (last_cumsum = np_sum balances) as Hlast.
    { unfold last_cumsum, cumsum; rewrite last_np_cumsum, np_sum_sorted; [reflexivity|].
      intros E; apply Hne, length_zero_iff_nil.
      now rewrite <- sorted_length, E. }
    split; [exact Hlast|split; [now rewrite Hlast|]].
    unfold calculate_gini; rewrite np_sum_sorted, sorted_length.
    fold n cumsum last_cumsum doubled.
    assert ((n =? 0) = false) as ->.
    { apply Z.eqb_neq; unfold n; destruct balances; [contradiction|simpl; lia]. }
    apply Z.eqb_neq in Hsum; rewrite Hsum; reflexivity.
  - intros Hr; rewrite np_sum_spec; now apply wrap64_small.
Qed.

(** Sixteen agents with nothing, and one agent out of four holding
    everything. *)
Lemma calculate_gini_guarded_witness :
  calculate_gini (repeat 0 16) = SInt 0
  /\ calculate_gini [0; 10; 0; 0] = SFloat 0.75.
Proof.
  split.
  - destruct (calculate_gini_guarded (repeat 0 16)) as (_ & Hzero & _).
    apply Hzero; reflexivity.
  - destruct (calculate_gini_guarded [0; 10; 0; 0]) as (_ & _ & Hother & _).
    destruct Hother as (_ & _ & Hgini).
    + discriminate.
    + intros E; vm_compute in E; discriminate.
    + exact Hgini.
Defined.

(** No agent at all, and equal shares. *)
Example gini_empty : calculate_gini [] = SInt 0.
Proof. reflexivity. Qed.

Example gini_equal : calculate_gini [1000; 1000; 1000; 1000] = SFloat 0.
Proof. reflexivity. Qed.

(** ** [float64]: conversions and quotients that are numbers

    The counts of [dictator_stats] skip the NaN entries of [giving_pct], so
    they rest on which quotients [amount / (10 * stake)] are NaN.  The facts
    below follow the specification of binary64 rounding ([SpecFloat]). *)

(** One step of the right shift halves a non-negative mantissa. *)
Lemma shr_m_shr_1 (r : shr_record) :
  0 <= shr_m r -> shr_m (shr_1 r) = shr_m r / 2.
Proof.
  destruct r as [m r s]; simpl; intros Hm.
  destruct m as [|p|p]; [reflexivity| |lia].
  destruct p as [p|p|]; simpl.
  - rewrite Pos2Z.inj_xI; apply Z.div_unique with 1; lia.
  - rewrite Pos2Z.inj_xO; apply Z.div_unique with 0; lia.
  - reflexivity.
Qed.

Lemma shr_m_iter (p : positive) (r : shr_record) :
  0 <= shr_m r -> shr_m (iter_pos shr_1 p r) = shr_m r / 2 ^ Zpos p.
Proof.
  revert r; induction p as [p IH|p IH|]; intros r Hr; simpl iter_pos.
  - assert (0 <= shr_m (shr_1 r)) as H1
        by (rewrite shr_m_shr_1 by assumption; apply Z.div_pos; lia).
    assert (0 <= shr_m (iter_pos shr_1 p (shr_1 r))) as H2
        by (rewrite IH by assumption; apply Z.div_pos; lia).
    rewrite IH, IH, shr_m_shr_1 by assumption.
    rewrite !Z.div_div by lia.
    f_equal; replace (Z.pos p~1) with (1 + Z.pos p + Z.pos p) by lia.
    rewrite !Z.pow_add_r by lia; change (2 ^ 1) with 2; lia.
  - assert (0 <= shr_m (iter_pos shr_1 p r)) as H2
        by (rewrite IH by assumption; apply Z.div_pos; lia).
    rewrite IH, IH by assumption.
    rewrite Z.div_div by lia.
    f_equal; replace (Z.pos p~0) with (Z.pos p + Z.pos p) by lia.
    now rewrite Z.pow_add_r by lia.
  - rewrite shr_m_shr_1 by assumption; reflexivity.
Qed.

(** Shifting right by [n] bits divides the mantissa by [2 ^ n]. *)
Lemma shr_spec (r : shr_record) (e n : Z) :
  0 <= shr_m r ->
  shr_m (fst (shr r e n)) = shr_m r / 2 ^ Z.max 0 n /\ snd (shr r e n) = e + Z.max 0 n.
Proof.
  intros Hr; destruct n as [|p|p]; simpl.
  - rewrite Z.div_1_r; split; [reflexivity|lia].
  - rewrite shr_m_iter by assumption; split; reflexivity.
  - rewrite Z.div_1_r; split; [reflexivity|lia].
Qed.

Lemma shr_m_of_loc (m : Z) (l : location) : shr_m (shr_record_of_loc m l) = m.
Proof. destruct l as [|[ | | ]]; reflexivity. Qed.

Lemma shr_fexp_spec (m e : Z) (l : location) :
  0 <= m ->
  let n := Z.max 0 (fexp prec emax (Zdigits2 m + e) - e) in
  shr_m (fst (shr_fexp prec emax m e l)) = m / 2 ^ n
  /\ snd (shr_fexp prec emax m e l) = e + n.
Proof.
  intros Hm n; unfold shr_fexp.
  pose proof (shr_spec (shr_record_of_loc m l) e
                (fexp prec emax (Zdigits2 m + e) - e)) as H.
  rewrite shr_m_of_loc in H; exact (H Hm).
Qed.

Lemma round_nearest_even_bounds (m : Z) (l : location) :
  m <= round_nearest_even m l <= m + 1.
Proof.
  destruct l as [|[ | | ]]; simpl; try lia.
  destruct (Z.even m); lia.
Qed.

(** Rounding a non-negative mantissa never makes a NaN. *)
Lemma binary_round_aux_not_nan (s : bool) (m e : Z) (l : location) :
  0 <= m -> binary_round_aux prec emax s m e l <> S754_nan.
Proof.
  intros Hm; unfold binary_round_aux.
  pose proof (shr_fexp_spec m e l Hm) as [H1 _].
  destruct (shr_fexp prec emax m e l) as [mrs' e']; simpl in H1.
  set (m2 := round_nearest_even (shr_m mrs') (loc_of_shr_record mrs')).
  assert (0 <= m2) as Hm2.
  { pose proof (round_nearest_even_bounds (shr_m mrs') (loc_of_shr_record mrs')).
    assert (0 <= shr_m mrs') by (rewrite H1; apply Z.div_pos; lia).
    unfold m2; lia. }
  pose proof (shr_fexp_spec m2 e' loc_Exact Hm2) as [H2 _].
  destruct (shr_fexp prec emax m2 e' loc_Exact) as [mrs'' e'']; simpl in H2.
  assert (0 <= shr_m mrs'') as H3 by (rewrite H2; apply Z.div_pos; lia).
  destruct (shr_m mrs''); [discriminate| |lia].
  destruct (e'' <=? emax - prec); discriminate.
Qed.

Lemma binary_round_not_nan (s : bool) (m : positive) (e : Z) :
  binary_round prec emax s m e <> S754_nan.
Proof.
  unfold binary_round.
  destruct (shl_align m e _) as [mz ez].
  apply binary_round_aux_not_nan; lia.
Qed.

Lemma binary_normalize_not_nan (z e : Z) (szero : bool) :
  binary_normalize prec emax z e szero <> S754_nan.
Proof.
  destruct z; simpl; [discriminate| |]; apply binary_round_not_nan.
Qed.

Lemma SFopp_not_nan (x : spec_float) : x <> S754_nan -> SFopp x <> S754_nan.
Proof. destruct x; simpl; [discriminate|discriminate|auto|discriminate]. Qed.

Lemma SFldexp_not_nan (x : spec_float) (e : Z) :
  x <> S754_nan -> SFldexp prec emax x e <> S754_nan.
Proof.
  destruct x; simpl; auto; intros _; apply binary_round_not_nan.
Qed.

(** No float made from a specification value other than NaN is a NaN. *)
Lemma SF2Prim_not_nan (x : spec_float) :
  x <> S754_nan -> Prim2SF (SF2Prim x) <> S754_nan.
Proof.
  destruct x as [s|s| |s m e]; intros Hx.
  - destruct s; discriminate.
  - destruct s; discriminate.
  - contradiction.
  - assert (Prim2SF (Z.ldexp (of_uint63 (Uint63.of_Z (Zpos m))) e) <> S754_nan) as Hf.
    { rewrite FloatLemmas.Z_ldexp_spec, of_uint63_spec.
      apply SFldexp_not_nan, binary_normalize_not_nan. }
    simpl; destruct s; [|exact Hf].
    rewrite opp_spec; now apply SFopp_not_nan.
Qed.

(** An integer never converts to NaN. *)
Lemma float_of_Z_not_nan (z : Z) : is_nan (float_of_Z z) = false.
Proof.
  apply not_true_is_false; rewrite is_nan_spec.
  apply SF2Prim_not_nan, binary_normalize_not_nan.
Qed.

Lemma SFdiv_not_nan (x : spec_float) (s : bool) (m : positive) (e : Z) :
  x <> S754_nan -> SFdiv prec emax x (S754_finite s m e) <> S754_nan.
Proof.
  destruct x as [sx|sx| |sx mx ex]; intros Hx; simpl; try discriminate; [contradiction|].
  unfold SFdiv_core_binary.
  set (m' := match _ - _ with Z0 => Zpos mx | Zpos _ => _ | Zneg _ => 0 end).
  assert (0 <= m') as Hm'.
  { unfold m'; destruct (_ - _); try lia.
    apply Z.shiftl_nonneg; lia. }
  pose proof (Z.div_pos m' (Zpos m) Hm' ltac:(lia)) as Hq.
  unfold Z.div in Hq.
  destruct (Z.div_eucl m' (Zpos m)) as [q r]; simpl in Hq.
  now apply binary_round_aux_not_nan.
Qed.

(** Dividing a number by a finite non-zero number gives a number. *)
Lemma div_not_nan (x y : float) (s : bool) (m : positive) (e : Z) :
  is_nan x = false -> Prim2SF y = S754_finite s m e -> is_nan (x / y) = false.
Proof.
  intros Hx Hy; apply not_true_is_false; rewrite is_nan_spec, div_spec, Hy.
  apply SFdiv_not_nan; intros E; apply is_nan_spec in E; congruence.
Qed.

Lemma nan_div (y : float) : is_nan (nan / y) = true.
Proof. apply is_nan_spec; rewrite div_spec; reflexivity. Qed.

(** [digits2_pos] counts the binary digits. *)
Lemma digits2_bounds (p : positive) :
  2 ^ (Zpos (digits2_pos p) - 1) <= Zpos p < 2 ^ Zpos (digits2_pos p).
Proof.
  induction p as [p IH|p IH|]; simpl digits2_pos.
  - rewrite Pos2Z.inj_succ.
    rewrite Z.pow_succ_r by lia.
    replace (Z.succ (Zpos (digits2_pos p)) - 1) with (Z.succ (Zpos (digits2_pos p) - 1)) by lia.
    rewrite Z.pow_succ_r by lia; lia.
  - rewrite Pos2Z.inj_succ.
    rewrite Z.pow_succ_r by lia.
    replace (Z.succ (Zpos (digits2_pos p)) - 1) with (Z.succ (Zpos (digits2_pos p) - 1)) by lia.
    rewrite Z.pow_succ_r by lia; lia.
  - simpl; lia.
Qed.

Lemma Zdigits2_lower (m k : Z) : 0 <= k -> 2 ^ k <= m -> k < Zdigits2 m.
Proof.
  intros Hk Hm.
  assert (0 < m) as Hpos by (pose proof (Z.pow_pos_nonneg 2 k); lia).
  destruct m as [|p|p]; try lia; simpl.
  pose proof (digits2_bounds p) as [_ Hu].
  apply (Z.pow_lt_mono_r_iff 2); lia.
Qed.

Lemma Zdigits2_upper (m k : Z) : 0 < m -> 0 <= k -> m < 2 ^ k -> Zdigits2 m <= k.
Proof.
  intros Hpos Hk Hm.
  destruct m as [|p|p]; try lia; simpl.
  pose proof (digits2_bounds p) as [Hl _].
  assert (Zpos (digits2_pos p) - 1 < k); [|lia].
  apply (Z.pow_lt_mono_r_iff 2); lia.
Qed.

Lemma digits2_iter_xO (p k : positive) :
  digits2_pos (Pos.iter xO p k) = (digits2_pos p + k)%positive.
Proof.
  induction k as [|k IH] using Pos.peano_ind.
  - simpl; lia.
  - rewrite Pos.iter_succ; simpl; rewrite IH; lia.
Qed.

(** Rounding a mantissa of at least 53 bits, in the range of the normal
    numbers, gives a finite non-zero number. *)
Lemma binary_round_aux_finite (m e : Z) (l : location) :
  0 < m -> 53 <= Zdigits2 m -> - 1021 <= Zdigits2 m + e <= 1023 ->
  exists m' e', forall s, binary_round_aux prec emax s m e l = S754_finite s m' e'.
Proof.
  intros Hm Hd He.
  set (d := Zdigits2 m) in *.
  unfold binary_round_aux.
  pose proof (shr_fexp_spec m e l ltac:(lia)) as [H1 E1]; fold d in H1, E1.
  assert (Z.max 0 (fexp prec emax (d + e) - e) = d - 53) as Hn1
      by (unfold fexp, SpecFloat.emin, prec, emax; lia).
  rewrite Hn1 in H1, E1.
  destruct (shr_fexp prec emax m e l) as [mrs' e1]; simpl in H1, E1.
  assert (2 ^ 52 <= shr_m mrs' < 2 ^ 53) as Hm1.
  { rewrite H1.
    assert (2 ^ (d - 1) <= m < 2 ^ d) as Hb.
    { destruct m as [|p|p]; try lia; apply digits2_bounds. }
    assert (0 < 2 ^ (d - 53)) as HX by (apply Z.pow_pos_nonneg; lia).
    assert (2 ^ (d - 1) = 2 ^ (d - 53) * 2 ^ 52) as P1
        by (rewrite <- Z.pow_add_r by lia; f_equal; lia).
    assert (2 ^ d = 2 ^ (d - 53) * 2 ^ 53) as P2
        by (rewrite <- Z.pow_add_r by lia; f_equal; lia).
    rewrite P1, P2 in Hb.
    split.
    - apply Z.div_le_lower_bound; lia.
    - apply Z.div_lt_upper_bound; lia. }
  set (m2 := round_nearest_even (shr_m mrs') (loc_of_shr_record mrs')).
  pose proof (round_nearest_even_bounds (shr_m mrs') (loc_of_shr_record mrs')) as Hr.
  fold m2 in Hr.
  assert (2 ^ 52 <= m2 <= 2 ^ 53) as Hm2 by lia.
  set (d2 := Zdigits2 m2).
  assert (53 <= d2 <= 54) as Hd2.
  { split.
    - assert (52 < d2); [apply Zdigits2_lower|]; lia.
    - apply Zdigits2_upper; lia. }
  pose proof (shr_fexp_spec m2 e1 loc_Exact ltac:(lia)) as [H2 E2]; fold d2 in H2, E2.
  assert (Z.max 0 (fexp prec emax (d2 + e1) - e1) = d2 - 53) as Hn2
      by (unfold fexp, SpecFloat.emin, prec, emax; lia).
  rewrite Hn2 in H2, E2.
  destruct (shr_fexp prec emax m2 e1 loc_Exact) as [mrs'' e2]; simpl in H2, E2.
  assert (0 < shr_m mrs'') as Hm3.
  { rewrite H2.
    assert (d2 = 53 \/ d2 = 54) as [-> | ->] by lia.
    - change (2 ^ (53 - 53)) with 1; rewrite Z.div_1_r; lia.
    - change (2 ^ (54 - 53)) with 2.
      apply Z.div_str_pos; lia. }
  destruct (shr_m mrs'') as [|m3|m3]; try lia.
  exists m3, e2; intros s.
  assert ((e2 <=? emax - prec) = true) as ->; [|reflexivity].
  apply Z.leb_le; unfold emax, prec; lia.
Qed.

(** The conversion of a positive integer below [2 ^ 63] is finite and not
    zero, whatever the sign it is given. *)
Lemma binary_round_int63_finite (p : positive) :
  Zpos p < 2 ^ 63 ->
  exists m e, forall s, binary_round prec emax s p 0 = S754_finite s m e.
Proof.
  intros Hp; unfold binary_round.
  pose proof (digits2_bounds p) as Hb.
  assert (Zpos (digits2_pos p) <= 63) as Hd63
      by (apply (Zdigits2_upper (Zpos p)); lia).
  set (d := digits2_pos p) in *.
  assert (fexp prec emax (Zpos d + 0) = Zpos d - 53) as ->
      by (unfold fexp, SpecFloat.emin, prec, emax; lia).
  unfold shl_align.
  destruct (Zpos d - 53 - 0) as [|k|k] eqn:Ek.
  - apply binary_round_aux_finite; cbn [Zdigits2]; fold d; lia.
  - apply binary_round_aux_finite; cbn [Zdigits2]; fold d; lia.
  - apply binary_round_aux_finite; cbn [Zdigits2];
      rewrite ?digits2_iter_xO, ?Pos2Z.inj_add; fold d; lia.
Qed.

Lemma Prim2SF_float_of_Z (z : Z) :
  0 <= z < 2 ^ 63 -> Prim2SF (float_of_Z z) = binary_normalize prec emax z 0 false.
Proof.
  intros Hz; unfold float_of_Z.
  assert (Uint63.to_Z (Uint63.of_Z z) = z) as Hto
      by (rewrite Uint63.of_Z_spec; apply Z.mod_small; exact Hz).
  rewrite <- Hto at 1 2.
  now rewrite <- of_uint63_spec, SF2Prim_Prim2SF.
Qed.

(** A non-zero [int64] converts to a finite non-zero float. *)
Lemma float_of_Z_finite (z : Z) :
  z <> 0 -> - 2 ^ 63 <= z < 2 ^ 63 ->
  exists s m e, Prim2SF (float_of_Z z) = S754_finite s m e.
Proof.
  intros Hz Hr; destruct z as [|p|p]; [contradiction| |].
  - destruct (binary_round_int63_finite p) as (m & e & Hme); [lia|].
    exists false, m, e; rewrite Prim2SF_float_of_Z by lia; apply Hme.
  - destruct (Z.eq_dec (Zpos p) (2 ^ 63)) as [E|N].
    + injection E as ->; exists true; eexists; eexists; vm_compute; reflexivity.
    + destruct (binary_round_int63_finite p) as (m & e & Hme); [lia|].
      exists true, m, e.
      assert (float_of_Z (Zneg p) = (- float_of_Z (Zpos p))%float) as ->.
      { unfold float_of_Z; simpl binary_normalize; rewrite !Hme; reflexivity. }
      rewrite FloatAxioms.opp_spec, Prim2SF_float_of_Z by lia.
      simpl binary_normalize; rewrite Hme; reflexivity.
Qed.

(** ** [descriptive.py]: who is counted in [dictator_stats] *)

Import Descriptive.

(** Ten times a positive [int64] stake never wraps to zero. *)
Lemma int64_ten_stake_nonzero (s : Z) : 0 < s < 2 ^ 63 -> int64_mul 10 s <> 0.
Proof.
  intros Hs E; unfold int64_mul in E.
  pose proof (wrap64_eqm (10 * s)) as Hm; rewrite E in Hm.
  symmetry in Hm; rewrite Z.mod_0_l in Hm by lia.
  apply Z.mod_divide in Hm; [|lia].
  change (2 ^ 64) with (2 * 2 ^ 63) in Hm.
  replace (10 * s) with (2 * (5 * s)) in Hm by lia.
  apply Z.mul_divide_cancel_l in Hm; [|lia].
  apply Z.gauss in Hm; [|reflexivity].
  apply Z.divide_pos_le in Hm; lia.
Qed.

(** With a positive [int64] stake, the normalised amount is missing exactly
    when no amount was extracted. *)
Lemma pct_of_stake_isna `{Unicode} (o : option pystr) (s : Z) :
  0 < s < 2 ^ 63 ->
  isna (pct_of_stake (astype_float o) s)
  = match o with Some _ => false | None => true end.
Proof.
  intros Hs; unfold isna, pct_of_stake; destruct o as [ds|]; simpl astype_float.
  - destruct (float_of_Z_finite (int64_mul 10 s)) as (sg & m & e & Hy).
    + now apply int64_ten_stake_nonzero.
    + apply wrap64_range.
    + eapply div_not_nan; [apply float_of_Z_not_nan|exact Hy].
  - apply nan_div.
Qed.

Lemma filter_filter_and {A : Type} (f g : A -> bool) (l : list A) :
  filter f (filter g l) = filter (fun x => (g x && f x)%bool) l.
Proof.
  induction l as [|x l IH]; simpl; [reflexivity|].
  destruct (g x); simpl; [destruct (f x)|]; now rewrite IH.
Qed.

Lemma dropna_map {A : Type} (f : A -> float) (l : list A) :
  dropna (map f l) = map f (filter (fun x => negb (isna (f x))) l).
Proof. exact (filter_map_comm (fun y => negb (isna y)) f l). Qed.

(** The giving rows of a condition come from the records of that condition. *)
Lemma group_rows_dg_data `{Unicode} (k : condition) (df : DataFrame) :
  group_rows condition_eq_dec giving_condition k (dg_data df)
  = map giving_row
        (filter (fun r => startswith "give_" (action r))
                (group_rows condition_eq_dec record_condition k
                            (select_game "dictator" df))).
Proof.
  unfold group_rows, dg_data.
  rewrite filter_map_comm; f_equal.
  rewrite !filter_filter_and; apply filter_ext; intros r.
  unfold giving_condition; simpl; apply andb_comm.
Qed.

(** The values a group's statistics are computed over: the normalised
    amounts of its givers. *)
Lemma dropna_giving_pct `{Unicode} (k : condition) (df : DataFrame) :
  (forall r, In r df -> 0 < stake r < 2 ^ 63) ->
  dropna (map giving_pct (group_rows condition_eq_dec giving_condition k (dg_data df)))
  = map (fun r => giving_pct (giving_row r)) (givers k df).
Proof.
  intros Hstake; rewrite group_rows_dg_data, map_map, dropna_map; f_equal.
  unfold givers; rewrite filter_filter_and.
  apply filter_ext_in; intros r Hr.
  apply group_rows_In in Hr as [Hr _]; apply select_game_In in Hr as [Hr _].
  unfold is_giving, giving_row, giving_pct.
  rewrite pct_of_stake_isna by auto.
  now destruct (str_extract "give_" (action r)).
Qed.

Lemma dictator_stats_In `{StatsLib} `{Unicode} (df : DataFrame) (g : GivingStats) :
  In g (dictator_stats df) ->
  exists k,
    In k (group_keys condition_eq_dec condition_leb giving_condition (dg_data df))
    /\ g = let col := map giving_pct
                          (group_rows condition_eq_dec giving_condition k (dg_data df)) in
           mkGivingStats k (agg_mean col) (agg_median col) (agg_count col).
Proof.
  unfold dictator_stats, groupby; rewrite map_map; intros Hg.
  apply in_map_iff in Hg as (k & <- & Hk); eauto.
Qed.

(** Each condition is reported once. *)
Lemma dictator_stats_conditions `{StatsLib} `{Unicode} (df : DataFrame) :
  map gs_condition (dictator_stats df)
  = group_keys condition_eq_dec condition_leb giving_condition (dg_data df)
  /\ NoDup (map gs_condition (dictator_stats df)).
Proof.
  assert (map gs_condition (dictator_stats df)
          = group_keys condition_eq_dec condition_leb giving_condition (dg_data df)) as E.
  { unfold dictator_stats, groupby; rewrite !map_map; apply map_id. }
  split; [exact E|rewrite E; apply group_keys_NoDup].
Qed.

(** The givers of a condition, picked from the table in one pass. *)
Lemma givers_filter `{Unicode} (k : condition) (df : DataFrame) :
  givers k df
  = filter (fun r => (String.eqb (game_type r) "dictator"
                      && (if condition_eq_dec (record_condition r) k then true else false)
                      && is_giving (action r))%bool) df.
Proof.
  unfold givers, group_rows, select_game; rewrite !filter_filter_and.
  apply filter_ext; intros r; now rewrite ?andb_assoc.
Qed.

(** The actions an amount is taken from: those that start with [give_] and
    in which a digit follows some [give_]. *)
Lemma is_giving_iff `{Unicode} (a : pystr) :
  is_giving a = true <->
  (exists tail, a = (str "give_" ++ tail)%list)
  /\ exists pre c post, a = (pre ++ str "give_" ++ c :: post)%list /\ is_digit c = true.
Proof.
  unfold is_giving; rewrite andb_true_iff; split.
  - intros [Hs He]; split; [now apply startswith_inv|].
    destruct (str_extract "give_" a) as [ds|] eqn:E; [|discriminate].
    destruct (str_extract_some _ _ _ E) as (pre & post & Ha & Hne & Hd & _).
    destruct ds as [|c ds]; [contradiction|].
    simpl in Hd; apply andb_prop in Hd as [Hc _].
    exists pre, c, (ds ++ post)%list; split; [exact Ha|exact Hc].
  - intros [[tail Ht] (pre & c & post & Ha & Hc)]; split.
    + rewrite Ht; apply startswith_app.
    + destruct (str_extract "give_" a) as [ds|] eqn:E; [reflexivity|].
      rewrite (proj1 (str_extract_none _ _) E pre c post Ha) in Hc; discriminate.
Qed.

(** C8.  Whatever the Unicode database, over a table whose stakes are
    positive [int64] values: the actions [dictator_stats] reads an amount
    from are those that start with [give_] and in which a decimal digit
    directly follows some [give_], as in [give_<integer>]; and in every
    group reported, [n] is the number of dictator records of the group's
    condition with such an action, and the mean and the median are taken
    over the normalised amounts of those records and of no other.  A
    dictator record whose action is not of that kind is in no group's
    count, mean or median. *)
Theorem dictator_stats_counts_givers :
  forall (lib : StatsLib) (u : Unicode) (df : DataFrame),
    (forall r, In r df -> 0 < stake r < 2 ^ 63) ->
    let gives_integer (a : pystr) : Prop :=
      (exists tail, a = (str "give_" ++ tail)%list)
      /\ exists pre c post,
           a = (pre ++ str "give_" ++ c :: post)%list /\ is_digit c = true in
    (forall a, is_giving a = true <-> gives_integer a)
    /\ (forall ds rest, ds <> [] -> (forall c, In c ds -> is_digit c = true) ->
                        gives_integer (str "give_" ++ ds ++ rest)%list)
    /\ forall g, In g (dictator_stats df) ->
         let members :=
           filter (fun r =>
                     (String.eqb (game_type r) "dictator"
                      && (if condition_eq_dec (record_condition r) (gs_condition g)
                          then true else false)
                      && is_giving (action r))%bool) df in
         let pcts := map (fun r => SFloat (giving_pct (giving_row r))) members in
         n g = Z.of_nat (List.length members)
         /\ mean_giving_pct g = sample_mean pcts
         /\ median_giving_pct g = sample_median pcts
         /\ (forall r, In r members <->
                       In r df /\ game_type r = "dictator"
                       /\ record_condition r = gs_condition g
                       /\ gives_integer (action r)).
Proof.
  intros lib u df Hstake gives_integer.
  split; [exact is_giving_iff|split].
  - intros ds rest Hne Hd; split; [eauto|].
    destruct ds as [|c ds]; [contradiction|].
    exists [], c, (ds ++ rest)%list; split; [reflexivity|apply Hd; now left].
  - intros g Hg.
    apply dictator_stats_In in Hg as (k & _ & ->); cbv zeta.
    cbn [n mean_giving_pct median_giving_pct gs_condition].
    unfold agg_count, agg_mean, agg_median.
    rewrite (dropna_giving_pct k df Hstake), !map_map, length_map, givers_filter.
    split; [reflexivity|split; [reflexivity|split; [reflexivity|]]].
    intros r; rewrite filter_In, !andb_true_iff, String.eqb_eq, is_giving_iff.
    destruct (condition_eq_dec (record_condition r) k) as [E|N].
    + split.
      * intros (Hin & (Hg & _) & Hgi); split; [|split; [|split]]; assumption.
      * intros (Hin & Hg & _ & Hgi); split; [|split; [split|]];
          solve [assumption|reflexivity].
    + split; [intros (_ & (_ & Hf) & _); discriminate|].
      intros (_ & _ & E & _); contradiction.
Qed.

(** In [Sample.dictators] the condition of ['openai'] holds five records:
    [give_45], [give_] followed by the Arabic-Indic digit three, and
    [give_up, or give_5] are counted; [keep_100] and [give_nothing] are
    not. *)
Lemma dictator_stats_counts_givers_witness :
  map n (@dictator_stats (Sample.lib 0 1) unicode_14 Sample.dictators) = [1; 3]
  /\ (is_giving (str "give_" ++ [1635])%list = true
      /\ is_giving "give_up, or give_5" = true
      /\ is_giving "keep_100" = false /\ is_giving "give_nothing" = false)
  /\ let g := nth 1 (@dictator_stats (Sample.lib 0 1) unicode_14 Sample.dictators)
                   (mkGivingStats ("", "", 0) 0 0 0) in
     n g = 3.
Proof.
  split; [reflexivity|split; [repeat split|]].
  destruct (dictator_stats_counts_givers (Sample.lib 0 1) unicode_14 Sample.dictators)
    as (_ & _ & Hcount).
  - intros r Hr; repeat (destruct Hr as [<- | Hr]; [simpl; lia|]); contradiction.
  - destruct (Hcount (nth 1 (@dictator_stats (Sample.lib 0 1) unicode_14 Sample.dictators)
                         (mkGivingStats ("", "", 0) 0 0 0))) as [Hn _].
    + right; left; reflexivity.
    + exact Hn.
Defined.

(** * Further properties *)

(** ** Order *)

Lemma sorted_Z_strongly (l : list Z) : StronglySorted Z.le (sorted Z.leb l).
Proof.
  apply Sorted_StronglySorted; [intros x y z; lia|apply sorted_Z_ascending].
Qed.

(** Two ascending arrangements of the same integers are the same list. *)
Lemma ascending_unique (l1 l2 : list Z) :
  StronglySorted Z.le l1 -> StronglySorted Z.le l2 -> Permutation l1 l2 -> l1 = l2.
Proof.
  revert l2; induction l1 as [|a l1 IH]; intros l2 H1 H2 Hp.
  - now apply Permutation_nil in Hp.
  - destruct l2 as [|b l2]; [apply Permutation_sym, Permutation_nil in Hp; discriminate|].
    inversion H1 as [|? ? Hs1 Ha]; inversion H2 as [|? ? Hs2 Hb]; subst.
    assert (a = b) as ->.
    { assert (In a (b :: l2)) as Hina by (eapply Permutation_in; [exact Hp|now left]).
      assert (In b (a :: l1)) as Hinb
          by (eapply Permutation_in; [apply Permutation_sym, Hp|now left]).
      rewrite Forall_forall in Ha, Hb.
      destruct Hina as [->|Hina]; [reflexivity|].
      destruct Hinb as [->|Hinb]; [reflexivity|].
      specialize (Ha _ Hinb); specialize (Hb _ Hina); lia. }
    f_equal; apply IH; auto.
    now apply Permutation_cons_inv in Hp.
Qed.

(** [sorted] depends on the values only, not on their order. *)
Lemma sorted_Z_perm (l1 l2 : list Z) :
  Permutation l1 l2 -> sorted Z.leb l1 = sorted Z.leb l2.
Proof.
  intros Hp; apply ascending_unique; try apply sorted_Z_strongly.
  eapply perm_trans; [apply Permutation_sym, sorted_perm|].
  eapply perm_trans; [exact Hp|apply sorted_perm].
Qed.

(** Distinct values in ascending order are in strictly ascending order. *)
Lemma ascending_distinct (l : list Z) :
  StronglySorted Z.le l -> NoDup l -> StronglySorted Z.lt l.
Proof.
  induction 1 as [|a l Hs IH Ha]; intros Hnd; constructor.
  - apply IH; now inversion Hnd.
  - inversion Hnd as [|? ? Hnotin _]; subst.
    rewrite Forall_forall in *; intros x Hx.
    specialize (Ha x Hx).
    assert (a <> x) by (intros ->; contradiction); lia.
Qed.

Lemma group_keys_Z_ascending {A : Type} (key : A -> Z) (rows : list A) :
  StronglySorted Z.lt (group_keys Z.eq_dec Z.leb key rows).
Proof.
  apply ascending_distinct; [apply sorted_Z_strongly|apply group_keys_NoDup].
Qed.

(** ** The pairs of the two loops *)

Lemma pairs_length {K : Type} (ks : list K) :
  2 * len (pairs ks) = len ks * (len ks - 1).
Proof.
  unfold len; induction ks as [|k ks IH]; [reflexivity|].
  cbn [pairs]; rewrite length_app, length_map; cbn [List.length]; lia.
Qed.

Lemma pairs_In_fst {K : Type} (ks : list K) (a b : K) :
  In (a, b) (pairs ks) -> In a ks /\ In b ks.
Proof.
  induction ks as [|k ks IH]; simpl; [tauto|].
  intros Hin; apply in_app_or in Hin as [Hin|Hin].
  - apply in_map_iff in Hin as (y & [= <- <-] & Hy); auto.
  - destruct (IH Hin); auto.
Qed.

(** Over strictly ascending keys the loops visit each ordered pair once. *)
Lemma pairs_In_ascending (ks : list Z) (a b : Z) :
  StronglySorted Z.lt ks -> (In (a, b) (pairs ks) <-> In a ks /\ In b ks /\ a < b).
Proof.
  induction 1 as [|k ks Hs IH Hk]; simpl; [tauto|].
  rewrite Forall_forall in Hk.
  rewrite in_app_iff, in_map_iff, IH; split.
  - intros [(x & Hx & Hin) | (Ha & Hb & Hlt)].
    + injection Hx as <- <-; repeat split; auto.
    + repeat split; auto.
  - intros (Ha & Hb & Hlt).
    destruct Ha as [<- | Ha], Hb as [<- | Hb].
    + lia.
    + left; eauto.
    + specialize (Hk _ Ha); lia.
    + right; auto.
Qed.

Lemma pairs_NoDup {K : Type} (ks : list K) : NoDup ks -> NoDup (pairs ks).
Proof.
  induction 1 as [|k ks Hk Hnd IH]; simpl; [constructor|].
  apply NoDup_app; [|exact IH|].
  - clear IH Hk; induction Hnd as [|x l Hx Hl IHl]; simpl; constructor; auto.
    intros Hin; apply in_map_iff in Hin as (y & [= ->] & Hy); contradiction.
  - intros [a b] Hin Hin'.
    apply in_map_iff in Hin as (y & [= <- <-] & _).
    apply pairs_In_fst in Hin' as [Hin' _]; contradiction.
Qed.

(** ** Grouping: keys, members and sums *)

Section GroupByMore.
Context {A K : Type}.
Variable K_eq_dec : forall x y : K, {x = y} + {x <> y}.
Variable K_leb : K -> K -> bool.
Variable key : A -> K.

Lemma groupby_keys (rows : list A) :
  map fst (groupby K_eq_dec K_leb key rows) = group_keys K_eq_dec K_leb key rows.
Proof. unfold groupby; rewrite map_map; apply map_id. Qed.

Lemma groupby_In (rows : list A) (kg : K * list A) :
  In kg (groupby K_eq_dec K_leb key rows) <->
  In (fst kg) (group_keys K_eq_dec K_leb key rows)
  /\ snd kg = group_rows K_eq_dec key (fst kg) rows.
Proof.
  unfold groupby; rewrite in_map_iff; split.
  - intros (k & <- & Hk); auto.
  - intros [Hk Hs]; exists (fst kg); split; [|exact Hk].
    destruct kg as [k g]; simpl in *; now subst g.
Qed.

Lemma group_rows_map {B : Type} (f : B -> A) (k : K) (l : list B) :
  group_rows K_eq_dec key k (map f l)
  = map f (group_rows K_eq_dec (fun b => key (f b)) k l).
Proof. unfold group_rows; apply filter_map_comm. Qed.

Lemma group_keys_map {B : Type} (f : B -> A) (l : list B) :
  group_keys K_eq_dec K_leb key (map f l)
  = group_keys K_eq_dec K_leb (fun b => key (f b)) l.
Proof. unfold group_keys; now rewrite map_map. Qed.

Lemma group_weight_once (r : A) (c : Z) (ks : list K) :
  NoDup ks -> In (key r) ks ->
  fold_right Z.add 0 (map (fun k => if K_eq_dec (key r) k then c else 0) ks) = c.
Proof.
  induction 1 as [|k ks Hk Hnd IH]; simpl; [contradiction|].
  intros Hin; destruct (K_eq_dec (key r) k) as [E|N].
  - assert (fold_right Z.add 0
              (map (fun k => if K_eq_dec (key r) k then c else 0) ks) = 0) as ->; [|lia].
    rewrite E in *; clear IH Hnd Hin E.
    induction ks as [|k' ks IH']; simpl; [reflexivity|].
    destruct (K_eq_dec k k') as [E|_].
    + exfalso; apply Hk; now left.
    + rewrite IH'; [reflexivity|]; intros H; apply Hk; now right.
  - destruct Hin as [E|Hin]; [congruence|]; now rewrite IH.
Qed.

(** The groups partition the rows: what is added up group by group is what
    is added up over the table. *)
Lemma group_sums_total (w : A -> Z) (rows : list A) (ks : list K) :
  NoDup ks -> (forall r, In r rows -> In (key r) ks) ->
  fold_right Z.add 0
    (map (fun k => fold_right Z.add 0 (map w (group_rows K_eq_dec key k rows))) ks)
  = fold_right Z.add 0 (map w rows).
Proof.
  intros Hnd; induction rows as [|r rows IH]; intros Hall.
  - clear Hnd Hall; induction ks as [|k ks IHk]; simpl; [reflexivity|exact IHk].
  - assert (forall l : list K,
              fold_right Z.add 0
                (map (fun k => fold_right Z.add 0
                                 (map w (group_rows K_eq_dec key k (r :: rows)))) l)
              = fold_right Z.add 0 (map (fun k => if K_eq_dec (key r) k then w r else 0) l)
                + fold_right Z.add 0
                    (map (fun k => fold_right Z.add 0
                                     (map w (group_rows K_eq_dec key k rows))) l)) as Hsplit.
    { induction l as [|k l IHl]; cbn [map fold_right]; [reflexivity|].
      rewrite IHl; unfold group_rows; cbn [filter].
      destruct (K_eq_dec (key r) k); cbn [map fold_right]; lia. }
    rewrite Hsplit, IH, group_weight_once; auto.
    + apply Hall; now left.
    + intros r' Hr'; apply Hall; now right.
Qed.

Lemma groupby_sums_total (w : A -> Z) (rows : list A) :
  fold_right Z.add 0
    (map (fun kg => fold_right Z.add 0 (map w (snd kg))) (groupby K_eq_dec K_leb key rows))
  = fold_right Z.add 0 (map w rows).
Proof.
  unfold groupby; rewrite map_map; simpl.
  apply group_sums_total.
  - apply group_keys_NoDup.
  - intros r Hr; apply group_keys_In; eauto.
Qed.

(** A group has at least one member. *)
Lemma group_rows_length_pos (rows : list A) (k : K) :
  In k (group_keys K_eq_dec K_leb key rows) ->
  1 <= Z.of_nat (List.length (group_rows K_eq_dec key k rows)).
Proof.
  intros Hk; pose proof (group_rows_nonempty K_eq_dec K_leb key rows k Hk) as Hne.
  destruct (group_rows K_eq_dec key k rows); [contradiction|simpl; lia].
Qed.
End GroupByMore.

(** *** The order of the conditions *)

Lemma string_compare_total (a b : string) :
  String.compare a b = Lt \/ String.compare a b = Eq \/ String.compare b a = Lt.
Proof.
  rewrite (String.compare_antisym a b).
  destruct (String.compare b a); simpl; auto.
Qed.

Lemma string_compare_Eq_sym (a b : string) :
  String.compare a b = Eq -> String.compare b a = Eq.
Proof. intros H; rewrite String.compare_antisym, H; reflexivity. Qed.

Lemma condition_leb_total (a b : condition) :
  condition_leb a b = true \/ condition_leb b a = true.
Proof.
  destruct a as [[m1 k1] s1], b as [[m2 k2] s2]; simpl.
  destruct (string_compare_total m1 m2) as [-> | [E | ->]]; auto.
  rewrite E, (string_compare_Eq_sym _ _ E).
  destruct (string_compare_total k1 k2) as [-> | [E' | ->]]; auto.
  rewrite E', (string_compare_Eq_sym _ _ E'), !Z.leb_le; lia.
Qed.

(** The conditions of a summary come out in ascending order, each once. *)
Lemma condition_keys_ordered {A : Type} (key : A -> condition) (rows : list A) :
  Sorted (fun a b => condition_leb a b = true)
         (group_keys condition_eq_dec condition_leb key rows)
  /\ NoDup (group_keys condition_eq_dec condition_leb key rows).
Proof.
  split; [apply sorted_Sorted, condition_leb_total|apply group_keys_NoDup].
Qed.

(** ** [descriptive.py]: every decision is counted once *)

Lemma cooperation_rates_unfold `{StatsLib} (df : DataFrame) :
  GameStats.cooperation_rates df
  = map (fun k =>
           let x := map (fun r => SInt (cooperated r))
                        (group_rows condition_eq_dec record_condition k
                                    (select_game "prisoners-dilemma" df)) in
           GameStats.mkCooperationRate k (sample_mean x) (len x)
             (sample_std x / sqrt (float_of_Z (len x)))%float)
        (group_keys condition_eq_dec condition_leb record_condition
                    (select_game "prisoners-dilemma" df)).
Proof. unfold GameStats.cooperation_rates, groupby; now rewrite map_map. Qed.

(** X1.  [cooperation_rates] counts every prisoner's dilemma decision in
    exactly one condition: the [n_decisions] add up to the number of
    prisoner's dilemma rows, each is the number of rows of its condition and
    at least 1 (so [se] never divides by the root of zero), and the
    conditions reported are those that occur in such a row, each once, in
    ascending order. *)
Theorem cooperation_rates_partition :
  forall (lib : StatsLib) (df : DataFrame),
    let pd_data := select_game "prisoners-dilemma" df in
    let rates := GameStats.cooperation_rates df in
    fold_right Z.add 0 (map GameStats.n_decisions rates) = len pd_data
    /\ (forall c, In c rates ->
          1 <= GameStats.n_decisions c
          /\ GameStats.n_decisions c
             = len (group_rows condition_eq_dec record_condition
                               (GameStats.cr_condition c) pd_data))
    /\ (forall k, In k (map GameStats.cr_condition rates) <->
                  exists r, In r df /\ game_type r = "prisoners-dilemma"
                            /\ record_condition r = k)
    /\ NoDup (map GameStats.cr_condition rates)
    /\ Sorted (fun a b => condition_leb a b = true) (map GameStats.cr_condition rates).
Proof.
  intros lib df pd_data rates.
  assert (map GameStats.cr_condition rates
          = group_keys condition_eq_dec condition_leb record_condition pd_data) as Hk.
  { unfold rates; rewrite cooperation_rates_unfold, map_map; apply map_id. }
  split; [|split; [|split; [|split]]].
  - unfold rates; rewrite cooperation_rates_unfold, map_map; cbn.
    etransitivity;
      [|apply (group_sizes_total condition_eq_dec record_condition pd_data
                 (group_keys condition_eq_dec condition_leb record_condition pd_data))].
    + apply f_equal, map_ext; intros k; apply len_map.
    + apply group_keys_NoDup.
    + intros r Hr; apply group_keys_In; eauto.
  - intros c Hc; unfold rates in Hc; rewrite cooperation_rates_unfold in Hc.
    apply in_map_iff in Hc as (k & <- & Hk'); cbn; rewrite len_map.
    split; [|reflexivity].
    now apply (group_rows_length_pos condition_eq_dec condition_leb).
  - intros k; rewrite Hk, group_keys_In; split.
    + intros (r & Hr & Hc); apply select_game_In in Hr as [Hr Hg]; eauto.
    + intros (r & Hr & Hg & Hc); exists r; split; [now apply select_game_In|exact Hc].
  - rewrite Hk; apply group_keys_NoDup.
  - rewrite Hk; apply condition_keys_ordered.
Qed.

Lemma filter_disjoint_length {A : Type} (f g : A -> bool) (l : list A) :
  (forall x, In x l -> f x = true -> g x = false) ->
  (List.length (filter f l) + List.length (filter g l) <= List.length l)%nat.
Proof.
  induction l as [|x l IH]; intros Hd; simpl; [lia|].
  assert (forall y, In y l -> f y = true -> g y = false) as Hd'
      by (intros y Hy Hf; apply Hd; [now right|exact Hf]).
  specialize (IH Hd').
  destruct (f x) eqn:Ef.
  - rewrite (Hd x (or_introl eq_refl) Ef); simpl; lia.
  - destruct (g x); simpl; lia.
Qed.

Lemma sum_le_pointwise {K : Type} (f g : K -> Z) (ks : list K) :
  (forall k, In k ks -> f k <= g k) ->
  fold_right Z.add 0 (map f ks) <= fold_right Z.add 0 (map g ks).
Proof.
  induction ks as [|k ks IH]; intros Hle; simpl; [lia|].
  assert (f k <= g k) by (apply Hle; now left).
  assert (fold_right Z.add 0 (map f ks) <= fold_right Z.add 0 (map g ks))
    by (apply IH; intros; apply Hle; now right).
  lia.
Qed.

Lemma agg_count_le (xs : list float) : agg_count xs <= Z.of_nat (List.length xs).
Proof.
  unfold agg_count, dropna; pose proof (filter_length_le (fun x => negb (isna x)) xs); lia.
Qed.

(** X2.  [ultimatum_offers] counts no decision twice.  A row is a proposer
    row or a responder row, never both; the [n] of the acceptance table add
    up to the number of [accept] and [reject] rows, each being at least 1;
    the [n] of the offer table add up to at most the number of [offer_]
    rows; and the two tables together count at most the ultimatum rows. *)
Theorem ultimatum_counts_disjoint :
  forall (lib : StatsLib) (u : Unicode) (df : DataFrame),
    let offers := fst (ultimatum_offers df) in
    let acceptances := snd (ultimatum_offers df) in
    let total l := fold_right Z.add 0 l in
    (forall r, In r (responder_data df) -> startswith "offer_" (action r) = false)
    /\ total (map as_n acceptances) = len (responder_data df)
    /\ (forall a, In a acceptances -> 1 <= as_n a)
    /\ total (map os_n offers) <= len (proposer_data df)
    /\ total (map os_n offers) + total (map as_n acceptances)
       <= len (select_game "ultimatum" df).
Proof.
  intros lib u df offers acceptances total.
  assert (forall r : DecisionRecord,
             (eqb_str (action r) "accept" || eqb_str (action r) "reject")%bool = true ->
             startswith "offer_" (action r) = false) as Hdisj.
  { intros r Hr; apply orb_prop in Hr as [Hr|Hr];
      apply eqb_str_eq in Hr; rewrite Hr; reflexivity. }
  assert (total (map as_n acceptances) = len (responder_data df)) as Hacc.
  { unfold acceptances, ultimatum_offers, acceptance_stats, total; cbn [snd].
    unfold groupby; rewrite !map_map; cbn.
    apply (group_sizes_total condition_eq_dec record_condition).
    - apply group_keys_NoDup.
    - intros r Hr; apply group_keys_In; eauto. }
  assert (total (map os_n offers) <= len (proposer_data df)) as Hoff.
  { unfold offers, ultimatum_offers, offer_stats, total; cbn [fst].
    unfold groupby; rewrite !map_map; cbn.
    etransitivity;
      [|apply Z.eq_le_incl,
          (group_sizes_total condition_eq_dec proposer_condition (proposer_data df)
             (group_keys condition_eq_dec condition_leb proposer_condition
                         (proposer_data df)))].
    - apply sum_le_pointwise; intros k _.
      etransitivity; [apply agg_count_le|rewrite length_map; lia].
    - apply group_keys_NoDup.
    - intros r Hr; apply group_keys_In; eauto. }
  split; [|split; [exact Hacc|split; [|split; [exact Hoff|]]]].
  - intros r Hr; apply filter_In in Hr as [_ Hr]; now apply Hdisj.
  - intros a Ha; unfold acceptances, ultimatum_offers, acceptance_stats in Ha; cbn [snd] in Ha.
    unfold groupby in Ha; rewrite map_map in Ha.
    apply in_map_iff in Ha as (k & <- & Hk); cbn.
    now apply (group_rows_length_pos condition_eq_dec condition_leb).
  - rewrite Hacc.
    assert (len (proposer_data df) + len (responder_data df)
            <= len (select_game "ultimatum" df)); [|lia].
    unfold proposer_data, responder_data, len; rewrite length_map.
    pose proof (filter_disjoint_length
                  (fun r => (eqb_str (action r) "accept"
                             || eqb_str (action r) "reject")%bool)
                  (fun r => startswith "offer_" (action r))
                  (select_game "ultimatum" df)
                  (fun r _ => Hdisj r)); lia.
Qed.

(** ** [descriptive.py]: the trust and public-goods summaries *)

Lemma invest_not_return (a : pystr) :
  startswith "invest_" a = true -> startswith "return_" a = false.
Proof. intros H; apply startswith_inv in H as [rest ->]; reflexivity. Qed.

(** The investor rows of a table are those of its trust records whose
    action starts with [invest_]: dropping other records changes nothing. *)
Lemma investor_data_filter `{Unicode} (q : DecisionRecord -> bool) (df : DataFrame) :
  (forall r, startswith "invest_" (action r) = true -> game_type r = "trust" -> q r = true) ->
  GameStats.investor_data (filter q df) = GameStats.investor_data df.
Proof.
  intros Hq; unfold GameStats.investor_data, select_game; f_equal.
  rewrite !filter_filter_and; apply filter_ext; intros r.
  destruct (startswith "invest_" (action r)) eqn:Es; [|now rewrite !andb_false_r].
  destruct (String.eqb (game_type r) "trust") eqn:Eg; [|now rewrite !andb_false_r].
  apply String.eqb_eq in Eg; now rewrite (Hq r Es Eg).
Qed.

(** X3.  [trust_game_stats] reports investments only: the [return_] rows it
    extracts amounts from never reach its result.  Removing every [return_]
    row, or every row that is not an [invest_] row of the trust game, leaves
    the returned table unchanged. *)
Theorem trust_game_stats_ignores_returns :
  forall (lib : StatsLib) (u : Unicode) (df : DataFrame),
    GameStats.trust_game_stats
      (filter (fun r => negb (startswith "return_" (action r))) df)
    = GameStats.trust_game_stats df
    /\ GameStats.trust_game_stats
         (filter (fun r => (String.eqb (game_type r) "trust"
                            && startswith "invest_" (action r))%bool) df)
       = GameStats.trust_game_stats df.
Proof.
  intros lib u df; unfold GameStats.trust_game_stats; cbv zeta; split.
  - rewrite investor_data_filter; [reflexivity|].
    intros r Hs _; now rewrite (invest_not_return _ Hs).
  - rewrite investor_data_filter; [reflexivity|].
    intros r Hs Hg; rewrite Hs; apply String.eqb_eq in Hg; now rewrite Hg.
Qed.

(** The values that are present among the normalised amounts of some rows
    with positive [int64] stakes: those of the rows in which the pattern
    matches. *)
Lemma dropna_pct_of_stake `{Unicode} (lit : pystr) (rows : list DecisionRecord) :
  (forall r, In r rows -> 0 < stake r < 2 ^ 63) ->
  dropna (map (fun r => pct_of_stake (astype_float (str_extract lit (action r))) (stake r))
              rows)
  = map (fun r => pct_of_stake (astype_float (str_extract lit (action r))) (stake r))
        (filter (fun r => match str_extract lit (action r) with
                          | Some _ => true
                          | None => false
                          end) rows).
Proof.
  intros Hstake; rewrite dropna_map; f_equal.
  apply filter_ext_in; intros r Hr.
  rewrite pct_of_stake_isna by auto.
  now destruct (str_extract lit (action r)).
Qed.

Lemma public_goods_stats_unfold `{StatsLib} `{Unicode} (df : DataFrame) :
  GameStats.public_goods_stats df
  = map (fun k =>
           let col := map (fun r => GameStats.contribution_pct (GameStats.contribution_row r))
                          (group_rows GameStats.round_condition_eq_dec
                                      GameStats.record_round_condition k
                                      (select_game "public-goods" df)) in
           GameStats.mkContributionStats k (agg_mean col) (agg_count col))
        (group_keys GameStats.round_condition_eq_dec GameStats.round_condition_leb
                    GameStats.record_round_condition (select_game "public-goods" df)).
Proof.
  unfold GameStats.public_goods_stats, groupby, GameStats.pgg_data.
  rewrite map_map, group_keys_map; apply map_ext; intros k.
  now rewrite group_rows_map, map_map.
Qed.

(** The actions a contribution is taken from: those in which a digit
    follows some [contribute_]. *)
Lemma contributes_iff `{Unicode} (a : pystr) :
  GameStats.contributes a = true <->
  exists pre c post,
    a = (pre ++ str "contribute_" ++ c :: post)%list /\ is_digit c = true.
Proof.
  unfold GameStats.contributes; split.
  - destruct (str_extract "contribute_" a) as [ds|] eqn:E; [intros _|discriminate].
    destruct (str_extract_some _ _ _ E) as (pre & post & Ha & Hne & Hd & _).
    destruct ds as [|c ds]; [contradiction|].
    simpl in Hd; apply andb_prop in Hd as [Hc _].
    exists pre, c, (ds ++ post)%list; split; [exact Ha|exact Hc].
  - intros (pre & c & post & Ha & Hc).
    destruct (str_extract "contribute_" a) as [ds|] eqn:E; [reflexivity|].
    rewrite (proj1 (str_extract_none _ _) E pre c post Ha) in Hc; discriminate.
Qed.

Lemma contributors_filter `{Unicode} (k : GameStats.round_condition) (df : DataFrame) :
  GameStats.contributors k df
  = filter (fun r =>
              (String.eqb (game_type r) "public-goods"
               && (if GameStats.round_condition_eq_dec (GameStats.record_round_condition r) k
                   then true else false)
               && GameStats.contributes (action r))%bool) df.
Proof.
  unfold GameStats.contributors, group_rows, select_game; rewrite !filter_filter_and.
  apply filter_ext; intros r; now rewrite ?andb_assoc.
Qed.

(** X4.  Whatever the Unicode database, [public_goods_stats], over a table
    whose stakes are positive [int64] values, reports one row for every
    (provider, knowledge level, stake, round) that a public-goods record
    has, whether or not any action there holds an amount.  An amount is read
    from the actions in which a decimal digit directly follows some
    [contribute_], and from no other; [n] is the number of the key's
    public-goods records with such an action, which may be 0, and the mean
    is taken over the normalised amounts of those records only. *)
Theorem public_goods_stats_counts_contributors :
  forall (lib : StatsLib) (u : Unicode) (df : DataFrame),
    (forall r, In r df -> 0 < stake r < 2 ^ 63) ->
    let stats := GameStats.public_goods_stats df in
    let contributes_integer (a : pystr) : Prop :=
      exists pre c post,
        a = (pre ++ str "contribute_" ++ c :: post)%list /\ is_digit c = true in
    (forall r, In r df -> game_type r = "public-goods" ->
               In (GameStats.record_round_condition r) (map GameStats.cs_condition stats))
    /\ NoDup (map GameStats.cs_condition stats)
    /\ (forall a, GameStats.contributes a = true <-> contributes_integer a)
    /\ forall g, In g stats ->
         let members :=
           filter (fun r =>
                     (String.eqb (game_type r) "public-goods"
                      && (if GameStats.round_condition_eq_dec
                               (GameStats.record_round_condition r) (GameStats.cs_condition g)
                          then true else false)
                      && GameStats.contributes (action r))%bool) df in
         GameStats.cs_n g = len members
         /\ GameStats.mean_contribution_pct g
            = sample_mean
                (map (fun r => SFloat (GameStats.contribution_pct (GameStats.contribution_row r)))
                     members)
         /\ (forall r, In r members <->
                       In r df /\ game_type r = "public-goods"
                       /\ GameStats.record_round_condition r = GameStats.cs_condition g
                       /\ contributes_integer (action r)).
Proof.
  intros lib u df Hstake stats contributes_integer.
  assert (map GameStats.cs_condition stats
          = group_keys GameStats.round_condition_eq_dec GameStats.round_condition_leb
                       GameStats.record_round_condition (select_game "public-goods" df)) as Hk.
  { unfold stats; rewrite public_goods_stats_unfold, map_map; apply map_id. }
  split; [|split; [|split; [exact contributes_iff|]]].
  - intros r Hr Hg; rewrite Hk; apply group_keys_In.
    exists r; split; [now apply select_game_In|reflexivity].
  - rewrite Hk; apply group_keys_NoDup.
  - intros g Hg; unfold stats in Hg; rewrite public_goods_stats_unfold in Hg.
    apply in_map_iff in Hg as (k & <- & _).
    cbn [GameStats.cs_n GameStats.mean_contribution_pct GameStats.cs_condition]; cbv zeta.
    rewrite <- contributors_filter.
    split; [|split].
    + unfold agg_count, GameStats.contributors, GameStats.contributes.
      change (fun r => GameStats.contribution_pct (GameStats.contribution_row r))
        with (fun r => pct_of_stake (astype_float (str_extract "contribute_" (action r)))
                                    (stake r)).
      rewrite dropna_pct_of_stake.
      * unfold len; now rewrite !length_map.
      * intros r Hr; apply group_rows_In in Hr as [Hr _].
        apply select_game_In in Hr as [Hr _]; auto.
    + unfold agg_mean, GameStats.contributors, GameStats.contributes.
      change (fun r => GameStats.contribution_pct (GameStats.contribution_row r))
        with (fun r => pct_of_stake (astype_float (str_extract "contribute_" (action r)))
                                    (stake r)).
      rewrite dropna_pct_of_stake.
      * now rewrite !map_map.
      * intros r Hr; apply group_rows_In in Hr as [Hr _].
        apply select_game_In in Hr as [Hr _]; auto.
    + intros r; rewrite contributors_filter, filter_In, !andb_true_iff, String.eqb_eq.
      rewrite contributes_iff.
      destruct (GameStats.round_condition_eq_dec (GameStats.record_round_condition r) k)
        as [E|N].
      * split.
        -- intros (Hin & (Hg & _) & Hc); split; [|split; [|split]]; assumption.
        -- intros (Hin & Hg & _ & Hc); split; [|split; [split|]];
             solve [assumption|reflexivity].
      * split; [intros (_ & (_ & Hf) & _); discriminate|].
        intros (_ & _ & E & _); contradiction.
Qed.

(** In [Sample.contributions] round 1 holds one record, without an amount;
    round 2 holds two, one stating its amount in a sentence and one writing
    it with an Arabic-Indic digit. *)
Lemma public_goods_stats_counts_contributors_witness :
  In ("claude", "none", 10, 1)
     (map GameStats.cs_condition
          (@GameStats.public_goods_stats (Sample.lib 0 1) unicode_14 Sample.contributions))
  /\ map GameStats.cs_n
         (@GameStats.public_goods_stats (Sample.lib 0 1) unicode_14 Sample.contributions)
     = [0; 2].
Proof.
  split; [|reflexivity].
  destruct (public_goods_stats_counts_contributors (Sample.lib 0 1) unicode_14
              Sample.contributions) as (Hkey & _).
  - intros r Hr; repeat (destruct Hr as [<- | Hr]; [simpl; lia|]); contradiction.
  - apply (Hkey (Sample.row "claude" "public-goods" 10 1 3 "pass")); [left|]; reflexivity.
Defined.

(** X5.  Whatever the Unicode database, [public_goods_stats] reads a
    contribution from anywhere in the action, since it filters on no
    prefix: every public-goods record gets a row; its [contribution] is
    missing exactly when no decimal digit follows any occurrence of
    [contribute_] in the action; otherwise it is the integer written, in
    decimal notation and digit value by digit value, by the whole run of
    digits after the leftmost [contribute_] that a digit follows, whatever
    text comes before or after. *)
Theorem contribution_read_anywhere :
  forall (u : Unicode) (df : DataFrame) (r : DecisionRecord),
    In r df -> game_type r = "public-goods" ->
    In (GameStats.contribution_row r) (GameStats.pgg_data df)
    /\ (isna (GameStats.contribution (GameStats.contribution_row r)) = true <->
        forall pre c post,
          action r = (pre ++ str "contribute_" ++ c :: post)%list -> is_digit c = false)
    /\ forall pre ds post,
         action r = (pre ++ str "contribute_" ++ ds ++ post)%list ->
         ds <> [] -> (forall c, In c ds -> is_digit c = true) ->
         (forall c post', post = c :: post' -> is_digit c = false) ->
         (forall pre' c post',
             action r = (pre' ++ str "contribute_" ++ c :: post')%list ->
             is_digit c = true -> (List.length pre <= List.length pre')%nat) ->
         GameStats.contribution (GameStats.contribution_row r)
         = float_of_Z (decimal_number ds).
Proof.
  intros u df r Hr Hg; split; [|split].
  - unfold GameStats.pgg_data; apply in_map; now apply select_game_In.
  - unfold GameStats.contribution_row; cbn [GameStats.contribution].
    rewrite <- str_extract_none.
    destruct (str_extract "contribute_" (action r)) as [ds|]; simpl.
    + unfold isna; rewrite float_of_Z_not_nan; split; discriminate.
    + split; reflexivity.
  - intros pre ds post Ha Hne Hd Hp Hleft.
    apply all_digits_Forall in Hd; apply take_digits_nil_iff in Hp.
    unfold GameStats.contribution_row; cbn [GameStats.contribution].
    rewrite Ha, str_extract_intro; auto.
    + unfold astype_float; now rewrite digits_to_Z_number.
    + now rewrite <- Ha.
Qed.

(** [I contribute_5] followed by the Arabic-Indic digit three and by
    [ sats]: the contribution read is 53. *)
Lemma contribution_read_anywhere_witness :
  GameStats.contribution (GameStats.contribution_row Sample.contribute_53) = 53%float.
Proof.
  destruct (contribution_read_anywhere unicode_14 [Sample.contribute_53]
              Sample.contribute_53) as (_ & _ & Hread);
    [left; reflexivity|reflexivity|].
  apply (Hread (str "I ") [53; 1635] (str " sats")).
  - reflexivity.
  - discriminate.
  - intros c [<- | [<- | []]]; reflexivity.
  - intros c post' [= <- _]; reflexivity.
  - intros [|a [|b pre']] c post' Hs Hc; simpl; try lia; discriminate.
Defined.

(** ** [inference.py]: what is reported significant *)

(** A comparison [x < y] with a NaN on the left is false. *)
Lemma nan_not_below (x y : float) : is_nan x = true -> (x <? y)%float = false.
Proof.
  intros H; apply is_nan_spec in H.
  rewrite ltb_spec, H; unfold SFltb; simpl; now destruct (Prim2SF y).
Qed.

Lemma knowledge_effect_test_result `{StatsLib} `{TestLib} (df : DataFrame) (game : string)
      (res : Tests.KnowledgeEffect) :
  Tests.knowledge_effect_test df game = Result res ->
  let groups := Tests.knowledge_groups (Tests.knowledge_outcomes game df) in
  2 <= len groups
  /\ res = Tests.mkKnowledgeEffect game
             (map (fun kv => (fst kv, ndarray_mean (snd kv))) groups)
             (map (fun kv => (fst kv, len (snd kv))) groups)
             (mkKruskal (fst (kruskal (map snd groups))) (snd (kruskal (map snd groups)))
                        (snd (kruskal (map snd groups)) <? alpha)%float).
Proof.
  unfold Tests.knowledge_effect_test; cbv zeta.
  set (groups := Tests.knowledge_groups (Tests.knowledge_outcomes game df)).
  destruct (len groups <? 2) eqn:E; [discriminate|].
  apply Z.ltb_ge in E.
  destruct (kruskal (map snd groups)) as [h_stat p_value].
  intros [= <-]; split; [exact E|reflexivity].
Qed.

(** X6.  No test reports a missing p-value as significant.  In
    [stake_effect_test], [model_comparison_test], [knowledge_effect_test]
    and both comparisons of [pd_cooperation_test], the flag is [p < 0.05]
    on the p-value reported beside it, which is false when that p-value is
    NaN, as scipy returns on degenerate samples. *)
Theorem nan_p_value_not_significant :
  forall (lib : StatsLib) (u : Unicode) (tl : TestLib) (df : DataFrame) (game : string),
    (forall res, stake_effect_test df game = Result res ->
       sig (kruskal_wallis res) = (p (kruskal_wallis res) <? alpha)%float
       /\ (is_nan (p (kruskal_wallis res)) = true -> sig (kruskal_wallis res) = false))
    /\ (forall res, model_comparison_test df game = Result res ->
          significant res = (mc_p_value res <? alpha)%float
          /\ (is_nan (mc_p_value res) = true -> significant res = false))
    /\ (forall res, Tests.knowledge_effect_test df game = Result res ->
          sig (Tests.ke_kruskal_wallis res) = (p (Tests.ke_kruskal_wallis res) <? alpha)%float
          /\ (is_nan (p (Tests.ke_kruskal_wallis res)) = true ->
              sig (Tests.ke_kruskal_wallis res) = false))
    /\ (forall tt, tt = Tests.vs_nash (Tests.pd_cooperation_test df)
                   \/ tt = Tests.vs_human_50pct (Tests.pd_cooperation_test df) ->
          Tests.tt_sig tt = (Tests.tt_p tt <? alpha)%float
          /\ (is_nan (Tests.tt_p tt) = true -> Tests.tt_sig tt = false)).
Proof.
  intros lib u tl df game.
  assert (forall (b : bool) (x : float),
             b = (x <? alpha)%float ->
             b = (x <? alpha)%float /\ (is_nan x = true -> b = false)) as Hflag.
  { intros b x ->; split; [reflexivity|apply nan_not_below]. }
  split; [|split; [|split]].
  - intros res Hres.
    apply stake_effect_test_result in Hres as (game_data & _ & _ & ->).
    now apply Hflag.
  - intros res Hres.
    destruct (model_comparison_test_result df game res Hres) as (_ & _ & ->).
    now apply Hflag.
  - intros res Hres.
    destruct (knowledge_effect_test_result df game res Hres) as (_ & ->).
    now apply Hflag.
  - intros tt Htt; apply Hflag.
    unfold Tests.pd_cooperation_test in Htt; cbv zeta in Htt.
    destruct (ttest_1samp _ 0%float) as [t_nash p_nash].
    destruct (ttest_1samp _ 0.5%float) as [t_human p_human].
    destruct Htt as [-> | ->]; reflexivity.
Qed.

(** ** [inference.py]: the effect of the knowledge level *)

Lemma knowledge_outcomes_record (game : string) (df : DataFrame) :
  map record (Tests.knowledge_outcomes game df) = select_game game df.
Proof.
  unfold Tests.knowledge_outcomes.
  destruct (String.eqb game "prisoners-dilemma"); rewrite map_map; apply map_id.
Qed.

Lemma knowledge_levels (game : string) (df : DataFrame) :
  map Tests.level_of (Tests.knowledge_outcomes game df)
  = map knowledge_level (select_game game df).
Proof.
  rewrite <- (knowledge_outcomes_record game df), map_map; reflexivity.
Qed.

Lemma knowledge_groups_length (game : string) (df : DataFrame) :
  len (Tests.knowledge_groups (Tests.knowledge_outcomes game df))
  = Z.of_nat (List.length (nodup string_dec (map knowledge_level (select_game game df)))).
Proof.
  unfold Tests.knowledge_groups, len.
  now rewrite length_map, groupby_length, knowledge_levels.
Qed.

Lemma knowledge_group_length (game : string) (df : DataFrame) (l : string) :
  len (group_rows string_dec Tests.level_of l (Tests.knowledge_outcomes game df))
  = len (group_rows string_dec knowledge_level l (select_game game df)).
Proof.
  rewrite <- (knowledge_outcomes_record game df).
  rewrite group_rows_map; symmetry; apply len_map.
Qed.

(** X7.  [knowledge_effect_test] accepts every game and needs two knowledge
    levels.  With fewer than two distinct levels among the rows of the game
    it returns the error ['Need at least 2 knowledge levels']; with two or
    more it returns a result whose [ns] and [means] are keyed by the
    distinct levels in ascending order, each [ns] entry being the number of
    the game's rows at that level, at least 1, and the entries adding up to
    the number of rows of the game. *)
Theorem knowledge_effect_levels :
  forall (lib : StatsLib) (tl : TestLib) (df : DataFrame) (game : string),
    let rows := select_game game df in
    let levels := nodup string_dec (map knowledge_level rows) in
    ((List.length levels < 2)%nat ->
     Tests.knowledge_effect_test df game = Error "Need at least 2 knowledge levels")
    /\ ((2 <= List.length levels)%nat ->
        exists res,
          Tests.knowledge_effect_test df game = Result res
          /\ Tests.ke_game_type res = game
          /\ map fst (Tests.ns res) = sorted String.leb levels
          /\ map fst (Tests.means res) = sorted String.leb levels
          /\ (forall l k, In (l, k) (Tests.ns res) ->
                1 <= k /\ k = len (group_rows string_dec knowledge_level l rows))
          /\ fold_right Z.add 0 (map snd (Tests.ns res)) = len rows).
Proof.
  intros lib tl df game rows levels.
  pose proof (knowledge_groups_length game df) as Hlen; fold rows levels in Hlen.
  split; intros Hl.
  - unfold Tests.knowledge_effect_test; cbv zeta.
    assert ((len (Tests.knowledge_groups (Tests.knowledge_outcomes game df)) <? 2) = true)
      as ->; [apply Z.ltb_lt; lia|reflexivity].
  - destruct (Tests.knowledge_effect_test df game) as [msg|res] eqn:E.
    { exfalso; revert E; unfold Tests.knowledge_effect_test; cbv zeta.
      assert ((len (Tests.knowledge_groups (Tests.knowledge_outcomes game df)) <? 2) = false)
        as ->; [apply Z.ltb_ge; lia|].
      destruct (kruskal _); discriminate. }
    exists res; split; [reflexivity|].
    destruct (knowledge_effect_test_result df game res E) as (_ & ->).
    cbn [Tests.ke_game_type Tests.ns Tests.means].
    assert (map fst (Tests.knowledge_groups (Tests.knowledge_outcomes game df))
            = sorted String.leb levels) as Hkeys.
    { unfold Tests.knowledge_groups, groupby; rewrite !map_map; cbn [fst].
      rewrite map_id; unfold group_keys, unique; now rewrite knowledge_levels. }
    split; [reflexivity|].
    split; [rewrite map_map; exact Hkeys|].
    split; [rewrite map_map; exact Hkeys|].
    split.
    + intros l k Hin.
      unfold Tests.knowledge_groups, groupby in Hin; rewrite !map_map in Hin.
      apply in_map_iff in Hin as (l' & [= <- <-] & Hl'); cbn [fst snd].
      rewrite len_map, knowledge_group_length; split; [|reflexivity].
      rewrite <- knowledge_group_length.
      now apply (group_rows_length_pos string_dec String.leb).
    + unfold Tests.knowledge_groups, groupby; rewrite !map_map; cbn [fst snd].
      etransitivity;
        [|etransitivity;
           [apply (group_sizes_total string_dec Tests.level_of
                     (Tests.knowledge_outcomes game df)
                     (group_keys string_dec String.leb Tests.level_of
                                 (Tests.knowledge_outcomes game df)))|]].
      * apply f_equal, map_ext; intros l; apply len_map.
      * apply group_keys_NoDup.
      * intros r Hr; apply group_keys_In; eauto.
      * fold (len (Tests.knowledge_outcomes game df)).
        rewrite <- (len_map record), knowledge_outcomes_record; reflexivity.
Qed.

Lemma knowledge_effect_levels_witness :
  exists res,
    @Tests.knowledge_effect_test (Sample.lib 0 1) (Sample.testlib 0 1) Sample.two_levels
      "prisoners-dilemma" = Result res
    /\ map fst (Tests.ns res) = ["full"; "none"]
    /\ fold_right Z.add 0 (map snd (Tests.ns res)) = 3.
Proof.
  destruct (knowledge_effect_levels (Sample.lib 0 1) (Sample.testlib 0 1) Sample.two_levels
              "prisoners-dilemma") as [_ Hres].
  destruct Hres as (res & Hres & _ & Hns & _ & _ & Hsum); [simpl; lia|].
  exists res; split; [exact Hres|split; [exact Hns|exact Hsum]].
Defined.

(** ** [inference.py]: the pairwise comparisons of [stake_effect_test] *)

Lemma pairwise_row_unfold `{StatsLib} (game_data : list OutcomeRow) (ss : Z * Z) :
  pairwise_row game_data ss
  = let g1 := outcomes_where (fun row => Z.eqb (stake_of row) (fst ss)) game_data in
    let g2 := outcomes_where (fun row => Z.eqb (stake_of row) (snd ss)) game_data in
    mkPairwise (fst ss) (snd ss) (fst (mannwhitneyu g1 g2)) (snd (mannwhitneyu g1 g2))
               (sample_mean g1) (sample_mean g2).
Proof. unfold pairwise_row; cbv zeta; now destruct (mannwhitneyu _ _). Qed.

(** The sample of a stake level is one of the groups given to the
    Kruskal-Wallis test. *)
Lemma stake_level_group (game_data : list OutcomeRow) (s : Z) :
  In s (group_keys Z.eq_dec Z.leb stake_of game_data) ->
  In (outcomes_where (fun row => Z.eqb (stake_of row) s) game_data)
     (stake_groups game_data).
Proof.
  intros Hs; unfold stake_groups, groupby; rewrite map_map; cbn [snd].
  apply in_map_iff; exists s; split; [|exact Hs].
  unfold outcomes_where; now rewrite group_rows_eqb.
Qed.

Lemma stake_levels_In {db : Unicode} (game : string) (df : DataFrame)
      (game_data : list OutcomeRow) (s : Z) :
  stake_outcomes game df = Result game_data ->
  In s (group_keys Z.eq_dec Z.leb stake_of game_data)
  <-> In s (nodup Z.eq_dec (map stake (stake_rows game df))).
Proof.
  intros Hout; apply stake_outcomes_rows in Hout as [Hrows _].
  rewrite <- Hrows, map_map, nodup_In.
  unfold group_keys, unique.
  split; intros Hin.
  - apply (Permutation_in _ (Permutation_sym (sorted_perm Z.leb _))) in Hin.
    now apply nodup_In in Hin.
  - apply (Permutation_in _ (sorted_perm Z.leb _)); now apply nodup_In.
Qed.

(** X8.  When [stake_effect_test] returns a result, its pairwise list
    compares every two distinct stake levels of the analysed rows exactly
    once, the lower stake first: [k] levels give [k (k - 1) / 2]
    comparisons.  The two samples of a comparison are the outcomes at its
    two stakes, both among the groups given to the Kruskal-Wallis test, and
    the reported statistic, p-value and means are computed on them. *)
Theorem stake_effect_pairwise :
  forall (lib : StatsLib) (u : Unicode) (df : DataFrame) (game : string) (res : StakeEffect),
    stake_effect_test df game = Result res ->
    let levels := nodup Z.eq_dec (map stake (stake_rows game df)) in
    let compared := map (fun pw => (stake_1 pw, stake_2 pw)) (pairwise res) in
    2 * len (pairwise res) = len levels * (len levels - 1)
    /\ NoDup compared
    /\ (forall s1 s2, In (s1, s2) compared <-> In s1 levels /\ In s2 levels /\ s1 < s2)
    /\ exists game_data,
         stake_outcomes game df = Result game_data
         /\ forall pw, In pw (pairwise res) ->
              let g1 := outcomes_where (fun row => stake_of row =? stake_1 pw) game_data in
              let g2 := outcomes_where (fun row => stake_of row =? stake_2 pw) game_data in
              In g1 (stake_groups game_data) /\ In g2 (stake_groups game_data)
              /\ u_stat pw = fst (mannwhitneyu g1 g2)
              /\ pw_p_value pw = snd (mannwhitneyu g1 g2)
              /\ mean_1 pw = sample_mean g1 /\ mean_2 pw = sample_mean g2.
Proof.
  intros lib u df game res Hres levels compared.
  apply stake_effect_test_result in Hres as (game_data & Hout & _ & ->).
  cbn [pairwise] in *.
  set (stakes := sorted Z.leb (unique Z.eq_dec (map stake_of game_data))) in *.
  assert (StronglySorted Z.lt stakes) as Hasc
      by (apply (group_keys_Z_ascending stake_of game_data)).
  assert (forall s, In s stakes <-> In s levels) as Hlev
      by (intros s; apply (stake_levels_In game df game_data s Hout)).
  assert (compared = pairs stakes) as Hcmp.
  { unfold compared; rewrite map_map; etransitivity; [|apply map_id].
    apply map_ext; intros [s1 s2]; now rewrite pairwise_row_unfold. }
  assert (len stakes = len levels) as Hlen.
  { unfold stakes, len, levels.
    rewrite sorted_length; unfold unique.
    apply stake_outcomes_rows in Hout as [Hrows _].
    now rewrite <- Hrows, map_map. }
  split; [|split; [|split]].
  - rewrite len_map, pairs_length, Hlen; reflexivity.
  - rewrite Hcmp; apply pairs_NoDup.
    apply (group_keys_NoDup Z.eq_dec Z.leb stake_of game_data).
  - intros s1 s2; rewrite Hcmp, (pairs_In_ascending stakes s1 s2 Hasc), !Hlev; reflexivity.
  - exists game_data; split; [exact Hout|].
    intros pw Hpw; apply in_map_iff in Hpw as ([s1 s2] & <- & Hin).
    rewrite pairwise_row_unfold; cbn.
    apply pairs_In_fst in Hin as [H1 H2].
    split; [now apply stake_level_group|].
    split; [now apply stake_level_group|auto].
Qed.

Lemma stake_effect_pairwise_witness :
  exists res,
    @stake_effect_test (Sample.lib 2.5 0.5) unicode_14 Sample.pd_two_stakes "prisoners-dilemma"
    = Result res
    /\ map (fun pw => (stake_1 pw, stake_2 pw)) (pairwise res) = [(1, 10)]
    /\ 2 * len (pairwise res) = 2 * (2 - 1).
Proof.
  destruct (@stake_effect_test (Sample.lib 2.5 0.5) unicode_14 Sample.pd_two_stakes
              "prisoners-dilemma") as [msg|res] eqn:E; [discriminate|].
  exists res; split; [reflexivity|].
  pose proof (stake_effect_pairwise _ _ _ _ _ E) as (Hcount & _).
  injection E as <-; split; [reflexivity|exact Hcount].
Defined.

(** ** [inference.py]: when the two models can be compared *)

(** The rows [model_comparison_test] analyses are those of [stake_rows]. *)
Lemma comparison_outcomes_rows {db : Unicode} (game : string) (df : DataFrame) :
  map record (comparison_outcomes game df) = stake_rows game df.
Proof.
  unfold comparison_outcomes, stake_rows.
  destruct (String.eqb game "prisoners-dilemma") eqn:E1.
  { apply String.eqb_eq in E1; subst game; simpl.
    rewrite map_map; apply map_id. }
  destruct (String.eqb game "dictator"); rewrite map_map; apply map_id.
Qed.

Lemma provider_data_length {db : Unicode} (provider game : string) (df : DataFrame) :
  len (provider_data provider (comparison_outcomes game df))
  = len (filter (fun r => String.eqb (model_provider r) provider) (stake_rows game df)).
Proof.
  unfold provider_data, outcomes_where.
  rewrite <- comparison_outcomes_rows, filter_map_comm, !len_map; reflexivity.
Qed.

Lemma len_zero_iff {A : Type} (l : list A) : len l = 0 <-> l = [].
Proof.
  unfold len; split; [|now intros ->].
  destruct l; [reflexivity|simpl; lia].
Qed.

Lemma len_pos {A : Type} (l : list A) : l <> [] -> 1 <= len l.
Proof. unfold len; destruct l; [contradiction|simpl; lia]. Qed.

(** X9.  [model_comparison_test] compares exactly when both providers have
    a row among those it analyses: the rows of the game, and for the
    dictator game only those whose action starts with [give_].  Otherwise it
    returns ['Need data from both models'].  In a result, [claude_n] and
    [openai_n] are the numbers of such rows of each provider, each at least
    1, and together at most the number of analysed rows. *)
Theorem model_comparison_runs_iff :
  forall (lib : StatsLib) (u : Unicode) (df : DataFrame) (game : string),
    let rows provider :=
      filter (fun r => String.eqb (model_provider r) provider) (stake_rows game df) in
    ((exists res, model_comparison_test df game = Result res)
     <-> rows "claude" <> [] /\ rows "openai" <> [])
    /\ (model_comparison_test df game = Error "Need data from both models"
        <-> rows "claude" = [] \/ rows "openai" = [])
    /\ forall res, model_comparison_test df game = Result res ->
         claude_n res = len (rows "claude") /\ openai_n res = len (rows "openai")
         /\ 1 <= claude_n res /\ 1 <= openai_n res
         /\ claude_n res + openai_n res <= len (stake_rows game df).
Proof.
  intros lib u df game rows.
  pose proof (provider_data_length "claude" game df) as Hc.
  pose proof (provider_data_length "openai" game df) as Ho.
  fold (rows "claude") in Hc; fold (rows "openai") in Ho.
  assert (model_comparison_test df game = Error "Need data from both models"
          <-> rows "claude" = [] \/ rows "openai" = []) as Herr.
  { unfold model_comparison_test; cbv zeta; rewrite Hc, Ho.
    rewrite <- (len_zero_iff (rows "claude")), <- (len_zero_iff (rows "openai")).
    destruct (len (rows "claude") =? 0) eqn:Ec; destruct (len (rows "openai") =? 0) eqn:Eo;
      rewrite ?Z.eqb_eq, ?Z.eqb_neq in *; simpl.
    - tauto.
    - tauto.
    - tauto.
    - destruct (mannwhitneyu _ _); split; [discriminate|tauto]. }
  split; [|split; [exact Herr|]].
  - split.
    + intros [res Hres]; split; intros E;
        [assert (rows "claude" = [] \/ rows "openai" = []) as H by now left
        |assert (rows "claude" = [] \/ rows "openai" = []) as H by now right];
        apply Herr in H; congruence.
    + intros [Hne1 Hne2].
      destruct (model_comparison_test df game) as [msg|res] eqn:E; [|eauto].
      exfalso; revert E; unfold model_comparison_test; cbv zeta; rewrite Hc, Ho.
      apply len_pos in Hne1, Hne2.
      assert ((len (rows "claude") =? 0) = false) as -> by (apply Z.eqb_neq; lia).
      assert ((len (rows "openai") =? 0) = false) as -> by (apply Z.eqb_neq; lia).
      simpl; destruct (mannwhitneyu _ _); discriminate.
  - intros res Hres.
    destruct (model_comparison_test_result df game res Hres) as (Hne1 & Hne2 & ->).
    cbn [claude_n openai_n]; rewrite Hc, Ho.
    apply len_pos in Hne1, Hne2; rewrite Hc in Hne1; rewrite Ho in Hne2.
    split; [reflexivity|split; [reflexivity|split; [exact Hne1|split; [exact Hne2|]]]].
    pose proof (filter_disjoint_length
                  (fun r => String.eqb (model_provider r) "claude")
                  (fun r => String.eqb (model_provider r) "openai")
                  (stake_rows game df)) as Hd.
    unfold len, rows; apply inj_le in Hd; [rewrite Nat2Z.inj_add in Hd; exact Hd|].
    intros r _ Hr; apply String.eqb_eq in Hr; now rewrite Hr.
Qed.

Lemma model_comparison_runs_iff_witness :
  exists res,
    @model_comparison_test (Sample.lib 0 1) unicode_14 Sample.pd_constant "prisoners-dilemma"
    = Result res
    /\ claude_n res = 2 /\ openai_n res = 2.
Proof.
  destruct (model_comparison_runs_iff (Sample.lib 0 1) unicode_14 Sample.pd_constant
              "prisoners-dilemma") as ([_ Hruns] & _ & Hn).
  destruct Hruns as [res Hres]; [split; discriminate|].
  exists res; split; [exact Hres|].
  destruct (Hn res Hres) as (Hc & Ho & _); split; [exact Hc|exact Ho].
Defined.

(** What a provider's sample is does not depend on the rows of the other
    games and providers. *)
Lemma provider_data_filter {db : Unicode} (q : DecisionRecord -> bool) (provider game : string)
      (df : DataFrame) :
  (forall r, game_type r = game -> model_provider r = provider -> q r = true) ->
  provider_data provider (comparison_outcomes game (filter q df))
  = provider_data provider (comparison_outcomes game df).
Proof.
  intros Hq.
  assert (forall r, String.eqb (game_type r) game = true ->
                    String.eqb (model_provider r) provider = true -> q r = true) as Hq'
      by (intros r Hg Hp; apply String.eqb_eq in Hg, Hp; auto).
  unfold provider_data, outcomes_where, comparison_outcomes, gives, select_game.
  destruct (String.eqb game "prisoners-dilemma");
    [|destruct (String.eqb game "dictator")];
    rewrite !filter_map_comm, !map_map, !filter_filter_and;
    apply (f_equal (map _)), filter_ext; intros r;
    cbn [record cooperation_row pct_row payoff_row];
    destruct (q r) eqn:Eq, (String.eqb (game_type r) game) eqn:Eg,
             (String.eqb (model_provider r) provider) eqn:Ep,
             (startswith "give_" (action r));
    try reflexivity; rewrite (Hq' r Eg Ep) in Eq; discriminate.
Qed.

(** X10.  [model_comparison_test] looks at nothing but the rows of the
    selected game that belong to ['claude'] or ['openai']: removing every
    other row from the table (other games, other providers) leaves what it
    returns unchanged, error or result. *)
Theorem model_comparison_ignores_other_rows :
  forall (lib : StatsLib) (u : Unicode) (df : DataFrame) (game : string),
    model_comparison_test
      (filter (fun r => (String.eqb (game_type r) game
                         && (String.eqb (model_provider r) "claude"
                             || String.eqb (model_provider r) "openai"))%bool) df)
      game
    = model_comparison_test df game.
Proof.
  intros lib u df game; unfold model_comparison_test; cbv zeta.
  rewrite !provider_data_filter; [reflexivity| |];
    intros r Hg Hp; apply String.eqb_eq in Hg; rewrite Hg, Hp; reflexivity.
Qed.

(** ** [inference.py]: the rounds of [learning_analysis] *)

Lemma learning_round_rates_of `{StatsLib} (df : DataFrame) :
  round_rates (learning_analysis df) = round_rates_of df.
Proof.
  unfold learning_analysis; cbv zeta.
  destruct (2 <? len (round_rates_of df)); [destruct (spearmanr _ _)|]; reflexivity.
Qed.

Lemma iterated_pd_In (df : DataFrame) (r : DecisionRecord) :
  In r (iterated_pd df)
  <-> In r df /\ game_type r = "prisoners-dilemma" /\ 1 < total_rounds r.
Proof.
  unfold iterated_pd; rewrite filter_In, andb_true_iff, String.eqb_eq, Z.ltb_lt; tauto.
Qed.

Lemma iterated_pd_idempotent (df : DataFrame) : iterated_pd (iterated_pd df) = iterated_pd df.
Proof.
  unfold iterated_pd; rewrite filter_filter_and; apply filter_ext; intros r.
  apply andb_diag.
Qed.

(** C7.  [learning_analysis] looks at the rows of the prisoner's dilemma
    with more than one round in total, and at no other row.  With fewer
    than three distinct rounds among them it reports the constants
    [rho = 0], [p = 1] and the direction ["decreasing"].  With three or more
    it reports what [spearmanr] returns on the distinct rounds, in strictly
    ascending order, against the mean in each round of the column that is
    1 where the action is [cooperate] and 0 elsewhere; the direction is
    ["increasing"] exactly when that [rho] is positive. *)
Theorem learning_trend :
  forall (lib : StatsLib) (df : DataFrame),
    let selected r := game_type r = "prisoners-dilemma" /\ 1 < total_rounds r in
    let pd :=
      filter (fun r => (String.eqb (game_type r) "prisoners-dilemma"
                        && (1 <? total_rounds r))%bool) df in
    let distinct := List.length (nodup Z.eq_dec (map round pd)) in
    let rounds := sorted Z.leb (nodup Z.eq_dec (map round pd)) in
    let coop r := if eqb_str (action r) "cooperate" then 1 else 0 in
    let rate k :=
      sample_mean (map (fun r => SInt (coop r)) (filter (fun r => round r =? k) pd)) in
    let sp := spearmanr rounds (map rate rounds) in
    (forall r, In r pd <-> In r df /\ selected r)
    /\ StronglySorted Z.lt rounds
    /\ (forall k, In k rounds <-> exists r, In r df /\ selected r /\ round r = k)
    /\ (forall r, (action r = "cooperate" -> coop r = 1)
                  /\ (action r <> "cooperate" -> coop r = 0))
    /\ ((distinct < 3)%nat ->
        trend (learning_analysis df) = mkTrend (SInt 0) (SInt 1) "decreasing")
    /\ ((3 <= distinct)%nat ->
        trend (learning_analysis df)
        = mkTrend (SFloat (fst sp)) (SFloat (snd sp))
                  (if (0 <? fst sp)%float then "increasing" else "decreasing")).
Proof.
  intros lib df selected pd distinct rounds coop rate sp.
  assert (pd = iterated_pd df) as Hpd by reflexivity.
  assert (rounds = group_keys Z.eq_dec Z.leb round (iterated_pd df)) as Hrounds
      by reflexivity.
  assert (map rr_round (round_rates_of df) = rounds) as Hr.
  { unfold round_rates_of, groupby; rewrite !map_map; simpl; apply map_id. }
  assert (map cooperation_rate (round_rates_of df) = map rate rounds) as Hc.
  { unfold round_rates_of, groupby; rewrite !map_map; simpl.
    apply map_ext; intros k; unfold rate; now rewrite group_rows_eqb. }
  assert (List.length (round_rates_of df) = distinct) as Hlen
      by apply round_rates_length.
  split; [intros r; rewrite Hpd; apply iterated_pd_In|].
  split; [rewrite Hrounds; apply group_keys_Z_ascending|].
  split.
  { intros k; rewrite Hrounds, group_keys_In; split.
    - intros (r & Hin & Hround); apply iterated_pd_In in Hin; exists r.
      unfold selected; tauto.
    - intros (r & Hin & [Hg Ht] & Hround); exists r; split; [|exact Hround].
      apply iterated_pd_In; auto. }
  split.
  { intros r; unfold coop; split; intros Ha.
    - now rewrite (proj2 (eqb_str_eq _ _) Ha).
    - destruct (eqb_str (action r) "cooperate") eqn:E; [|reflexivity].
      now apply eqb_str_eq in E. }
  unfold learning_analysis; rewrite Hr, Hc; fold sp.
  split; intros Hd.
  - assert ((2 <? len (round_rates_of df)) = false) as ->
        by (apply Z.ltb_ge; unfold len; lia).
    reflexivity.
  - assert ((2 <? len (round_rates_of df)) = true) as ->
        by (apply Z.ltb_lt; unfold len; lia).
    destruct sp as [rho pv]; reflexivity.
Qed.

(** An ultimatum offer and a one-shot prisoner's dilemma do not count as
    rounds: with two rounds of the iterated game beside them the constants
    are reported.  With three rounds, [spearmanr] receives the rounds 1, 2, 3
    and the rates 0.5, 1, 0. *)
Lemma learning_trend_witness :
  trend (@learning_analysis (Sample.lib 0.5 0.25) Sample.two_rounds_and_others)
  = mkTrend (SInt 0) (SInt 1) "decreasing"
  /\ trend (@learning_analysis Sample.lib_sums Sample.three_rounds_and_others)
     = mkTrend (SFloat 1.5) (SFloat 6) "increasing".
Proof.
  split.
  - destruct (learning_trend (Sample.lib 0.5 0.25) Sample.two_rounds_and_others)
      as (_ & _ & _ & _ & Hfew & _).
    apply Hfew; simpl; lia.
  - destruct (learning_trend Sample.lib_sums Sample.three_rounds_and_others)
      as (_ & _ & _ & _ & _ & Hmany).
    rewrite Hmany; [reflexivity|simpl; lia].
Defined.

(** X11.  The round rates of [learning_analysis] cover the iterated
    prisoner's dilemma and nothing else.  The rounds reported are those of
    the prisoner's dilemma rows with more than one round in total, in
    strictly ascending order; each [n] is the number of such rows in its
    round, at least 1, and the [n] add up to the number of such rows.
    One-shot games and other games never enter: the analysis of the table
    is the analysis of its iterated prisoner's dilemma rows. *)
Theorem learning_round_rates :
  forall (lib : StatsLib) (df : DataFrame),
    let rates := round_rates (learning_analysis df) in
    StronglySorted Z.lt (map rr_round rates)
    /\ (forall k, In k (map rr_round rates) <->
                  exists r, In r df /\ game_type r = "prisoners-dilemma"
                            /\ 1 < total_rounds r /\ round r = k)
    /\ (forall rr, In rr rates ->
          1 <= rr_n rr
          /\ rr_n rr = len (filter (fun r => round r =? rr_round rr) (iterated_pd df)))
    /\ fold_right Z.add 0 (map rr_n rates) = len (iterated_pd df)
    /\ learning_analysis (iterated_pd df) = learning_analysis df.
Proof.
  intros lib df rates.
  assert (rates = map (fun k => round_rate (k, group_rows Z.eq_dec round k (iterated_pd df)))
                      (group_keys Z.eq_dec Z.leb round (iterated_pd df))) as Hrates.
  { unfold rates; rewrite learning_round_rates_of.
    unfold round_rates_of, groupby; now rewrite map_map. }
  assert (map rr_round rates = group_keys Z.eq_dec Z.leb round (iterated_pd df)) as Hk.
  { rewrite Hrates, map_map; apply map_id. }
  split; [|split; [|split; [|split]]].
  - rewrite Hk; apply group_keys_Z_ascending.
  - intros k; rewrite Hk, group_keys_In; split.
    + intros (r & Hr & Hround); apply iterated_pd_In in Hr; exists r; tauto.
    + intros (r & Hr & Hg & Ht & Hround); exists r; split; [|exact Hround].
      apply iterated_pd_In; auto.
  - intros rr Hrr; rewrite Hrates in Hrr.
    apply in_map_iff in Hrr as (k & <- & Hin); cbn.
    rewrite len_map, <- group_rows_eqb; split; [|reflexivity].
    now apply (group_rows_length_pos Z.eq_dec Z.leb).
  - rewrite Hrates, map_map; cbn.
    etransitivity;
      [|apply (group_sizes_total Z.eq_dec round (iterated_pd df)
                 (group_keys Z.eq_dec Z.leb round (iterated_pd df)))].
    + apply f_equal, map_ext; intros k; apply len_map.
    + apply group_keys_NoDup.
    + intros r Hr; apply group_keys_In; eauto.
  - unfold learning_analysis, round_rates_of; now rewrite iterated_pd_idempotent.
Qed.

(** ** [visualize.py]: inequality over the rounds *)

(** X12.  [calculate_gini] depends on the balances only, not on the order
    in which the agents are listed: any rearrangement of the list gives the
    same coefficient. *)
Theorem calculate_gini_order_independent :
  forall l1 l2 : list Z, Permutation l1 l2 -> calculate_gini l1 = calculate_gini l2.
Proof.
  intros l1 l2 Hp; unfold calculate_gini.
  now rewrite (sorted_Z_perm l1 l2 Hp).
Qed.

Lemma calculate_gini_order_independent_witness :
  calculate_gini [0; 10; 0; 0] = calculate_gini [0; 0; 0; 10].
Proof.
  apply (calculate_gini_order_independent [0; 10; 0; 0] [0; 0; 0; 10]).
  apply perm_skip, (Permutation_cons_append [0; 0] 10).
Defined.

Lemma Permutation_filter {A : Type} (f : A -> bool) (l l' : list A) :
  Permutation l l' -> Permutation (filter f l) (filter f l').
Proof.
  induction 1 as [|x l l' Hp IH|x y l|l l' l'' H1 IH1 H2 IH2]; simpl.
  - constructor.
  - destruct (f x); [now constructor|exact IH].
  - destruct (f x), (f y); try apply Permutation_refl; apply perm_swap.
  - eapply perm_trans; eauto.
Qed.

Lemma range_In (n : nat) (r : Z) : In r (Wealth.range n) <-> 0 <= r < Z.of_nat n.
Proof.
  unfold Wealth.range; rewrite in_map_iff; split.
  - intros (k & <- & Hk); apply in_seq in Hk; lia.
  - intros Hr; exists (Z.to_nat r); split; [lia|apply in_seq; lia].
Qed.

(** X13.  [plot_gini_over_time] draws exactly 101 coefficients per
    condition, one for each round from 0 to 100, whatever the table holds:
    entry [r] is the coefficient of the balances recorded at round [r], the
    integer [0] when no balance is recorded there; rounds outside 0..100
    are never looked at, and the order of the rows of the table does not
    matter. *)
Theorem gini_series_rounds :
  forall bal : list Wealth.BalanceRecord,
    let series := Wealth.gini_series bal in
    List.length series = 101%nat
    /\ (forall other, fst (Wealth.plot_gini_over_time bal other) = series
                      /\ snd (Wealth.plot_gini_over_time other bal) = series)
    /\ (forall r, 0 <= r <= 100 ->
          nth (Z.to_nat r) series (SInt 0) = calculate_gini (Wealth.balances_at r bal))
    /\ (forall r, (forall b, In b bal -> Wealth.round b <> r) ->
          calculate_gini (Wealth.balances_at r bal) = SInt 0)
    /\ (forall bal', Permutation bal bal' -> Wealth.gini_series bal' = series)
    /\ Wealth.gini_series
         (filter (fun b => (Z.leb 0 (Wealth.round b) && Z.leb (Wealth.round b) 100)%bool) bal)
       = series.
Proof.
  intros bal series; split; [|split; [|split; [|split; [|split]]]].
  - unfold series, Wealth.gini_series, Wealth.range; now rewrite !length_map, length_seq.
  - intros other; split; reflexivity.
  - intros r Hr; unfold series, Wealth.gini_series, Wealth.range.
    rewrite map_map.
    rewrite (nth_indep _ (SInt 0)
               (calculate_gini (Wealth.balances_at (Z.of_nat 0) bal)))
      by (rewrite length_map, length_seq; lia).
    rewrite (map_nth (fun k => calculate_gini (Wealth.balances_at (Z.of_nat k) bal))).
    rewrite seq_nth by lia; simpl Nat.add; now rewrite Z2Nat.id by lia.
  - intros r Hnone; unfold Wealth.balances_at.
    assert (filter (fun b => Wealth.round b =? r) bal = []) as ->; [|reflexivity].
    induction bal as [|b bal IH]; simpl; [reflexivity|].
    assert (Wealth.round b <> r) as Hb by (apply Hnone; now left).
    apply Z.eqb_neq in Hb; rewrite Hb; apply IH.
    intros b' Hb'; apply Hnone; now right.
  - intros bal' Hp; unfold series, Wealth.gini_series.
    apply map_ext; intros r; unfold calculate_gini, Wealth.balances_at.
    rewrite (sorted_Z_perm _ _ (Permutation_map Wealth.balance
                                  (Permutation_filter (fun b => Wealth.round b =? r)
                                                      bal' bal (Permutation_sym Hp)))).
    reflexivity.
  - unfold series, Wealth.gini_series.
    apply map_ext_in; intros r Hr; apply range_In in Hr.
    unfold Wealth.balances_at; rewrite filter_filter_and; do 2 f_equal.
    apply filter_ext; intros b.
    destruct (Wealth.round b =? r) eqn:E; [|now rewrite andb_false_r].
    apply Z.eqb_eq in E; rewrite E, andb_true_r.
    apply andb_true_iff; rewrite !Z.leb_le; lia.
Qed.

(** ** [visualize.py]: the flow of transfers between primings *)

Lemma contains_primings (x : string) :
  Transfers.contains x Transfers.primings = true <-> In x Transfers.primings.
Proof.
  unfold Transfers.contains; rewrite existsb_exists; split.
  - intros (y & Hy & E); apply String.eqb_eq in E; now subst.
  - intros Hx; exists x; split; [exact Hx|apply String.eqb_refl].
Qed.

(** Assigning the cell of two listed primings changes that entry of the
    table and no other. *)
Lemma set_cell_flow_table (g : string -> string -> float) (a b : string) (v : float) :
  In a Transfers.primings -> In b Transfers.primings ->
  Transfers.set_cell (Transfers.index a Transfers.primings)
                     (Transfers.index b Transfers.primings) v (Transfers.flow_table g)
  = Transfers.flow_table
      (fun a' b' => if Transfers.priming_pair_eq_dec (a', b') (a, b) then v else g a' b').
Proof.
  intros Ha Hb.
  repeat (destruct Ha as [<- | Ha]; [|]); try contradiction;
    repeat (destruct Hb as [<- | Hb]; [|]); try contradiction; reflexivity.
Qed.

Lemma flow_table_ext (g g' : string -> string -> float) :
  (forall a b, In a Transfers.primings -> In b Transfers.primings -> g a b = g' a b) ->
  Transfers.flow_table g = Transfers.flow_table g'.
Proof.
  intros H; unfold Transfers.flow_table.
  apply map_ext_in; intros a Ha; apply map_ext_in; intros b Hb; auto.
Qed.

(** The loop over the rows of [flow]: with one row per pair, each listed
    pair's cell ends up holding that pair's total, and every other cell
    keeps what it held. *)
Lemma flow_fold (F : list (Transfers.priming_pair * Z)) :
  NoDup (map fst F) ->
  forall g, exists g',
    fold_left
      (fun matrix row =>
         let '(from_p, to_p, total) := row in
         if (Transfers.contains from_p Transfers.primings
             && Transfers.contains to_p Transfers.primings)%bool
         then Transfers.set_cell (Transfers.index from_p Transfers.primings)
                                 (Transfers.index to_p Transfers.primings)
                                 (float_of_Z total) matrix
         else matrix)
      F (Transfers.flow_table g)
    = Transfers.flow_table g'
    /\ (forall a b total, In a Transfers.primings -> In b Transfers.primings ->
                          In ((a, b), total) F -> g' a b = float_of_Z total)
    /\ (forall a b, ~ In (a, b) (map fst F) -> g' a b = g a b).
Proof.
  induction F as [|[[a0 b0] t0] F IH]; intros Hnd g.
  - exists g; simpl; split; [reflexivity|split; [contradiction|reflexivity]].
  - cbn [map fst] in Hnd; inversion Hnd as [|k ks Hnotin Hnd']; subst.
    cbn [fold_left].
    destruct (Transfers.contains a0 Transfers.primings
              && Transfers.contains b0 Transfers.primings)%bool eqn:Ec.
    + apply andb_prop in Ec as [Ea Eb]; apply contains_primings in Ea, Eb.
      rewrite set_cell_flow_table by assumption.
      destruct (IH Hnd' (fun a' b' =>
                           if Transfers.priming_pair_eq_dec (a', b') (a0, b0)
                           then float_of_Z t0 else g a' b'))
        as (g' & Hfold & Hin & Hout).
      exists g'; split; [exact Hfold|split].
      * intros a b total Ha Hb [[= <- <- <-] | Hin']; [|eauto].
        rewrite Hout by exact Hnotin.
        now destruct (Transfers.priming_pair_eq_dec (a0, b0) (a0, b0)).
      * intros a b Hnot; rewrite Hout by (intros H; apply Hnot; now right).
        destruct (Transfers.priming_pair_eq_dec (a, b) (a0, b0)) as [E|_]; [|reflexivity].
        exfalso; apply Hnot; left; now symmetry.
    + destruct (IH Hnd' g) as (g' & Hfold & Hin & Hout).
      exists g'; split; [exact Hfold|split].
      * intros a b total Ha Hb [[= <- <- <-] | Hin']; [|eauto].
        apply contains_primings in Ha, Hb; rewrite Ha, Hb in Ec; discriminate.
      * intros a b Hnot; apply Hout; intros H; apply Hnot; now right.
Qed.

Lemma group_rows_pair (a b : string) (trans : list Transfers.TransferRecord) :
  group_rows Transfers.priming_pair_eq_dec Transfers.pair_of (a, b) trans
  = filter (fun t => (String.eqb (Transfers.from_priming t) a
                      && String.eqb (Transfers.to_priming t) b)%bool) trans.
Proof.
  unfold group_rows; apply filter_ext; intros t; unfold Transfers.pair_of.
  destruct (Transfers.priming_pair_eq_dec _ _) as [E|N].
  - injection E as -> ->; now rewrite !String.eqb_refl.
  - destruct (String.eqb (Transfers.from_priming t) a) eqn:Ea; [|reflexivity].
    destruct (String.eqb (Transfers.to_priming t) b) eqn:Eb; [|reflexivity].
    apply String.eqb_eq in Ea, Eb; subst; contradiction.
Qed.

Lemma flow_unfold (trans : list Transfers.TransferRecord) :
  Transfers.flow trans
  = map (fun k => (k, Transfers.flow_total (fst k) (snd k) trans))
        (group_keys Transfers.priming_pair_eq_dec Transfers.priming_pair_leb
                    Transfers.pair_of trans).
Proof.
  unfold Transfers.flow, groupby; rewrite map_map; apply map_ext; intros [a b].
  unfold Transfers.flow_total; cbn [fst snd]; now rewrite group_rows_pair.
Qed.

(** X14.  The matrix of [plot_transfer_flow_matrix] holds, in the row of
    the sender's priming and the column of the recipient's, the total
    amount transferred between the two primings: the [int64] sum of the
    amounts, as a float, and 0 where there was no transfer.  A transfer
    whose sender or recipient has a priming outside the four listed ones
    changes no cell. *)
Theorem flow_matrix_cells :
  forall trans : list Transfers.TransferRecord,
    Transfers.flow_matrix trans
    = Transfers.flow_table (fun a b => float_of_Z (Transfers.flow_total a b trans))
    /\ Transfers.flow_matrix
         (filter (fun t => (Transfers.contains (Transfers.from_priming t) Transfers.primings
                            && Transfers.contains (Transfers.to_priming t) Transfers.primings)%bool)
                 trans)
       = Transfers.flow_matrix trans.
Proof.
  assert (forall trans,
             Transfers.flow_matrix trans
             = Transfers.flow_table
                 (fun a b => float_of_Z (Transfers.flow_total a b trans))) as Hcells.
  { intros trans; unfold Transfers.flow_matrix.
    change (Transfers.zeros 4 4) with (Transfers.flow_table (fun _ _ => 0%float)).
    destruct (flow_fold (Transfers.flow trans)) with (g := fun _ _ : string => 0%float)
      as (g' & -> & Hin & Hout).
    { rewrite flow_unfold, map_map; cbn [fst]; rewrite map_id; apply group_keys_NoDup. }
    apply flow_table_ext; intros a b Ha Hb.
    destruct (in_dec Transfers.priming_pair_eq_dec (a, b)
                (group_keys Transfers.priming_pair_eq_dec Transfers.priming_pair_leb
                            Transfers.pair_of trans)) as [Hk|Hk].
    - apply Hin; auto; rewrite flow_unfold.
      apply in_map_iff; exists (a, b); split; [reflexivity|exact Hk].
    - rewrite Hout by (rewrite flow_unfold, map_map; cbn [fst]; now rewrite map_id).
      unfold Transfers.flow_total; rewrite <- group_rows_pair.
      destruct (group_rows Transfers.priming_pair_eq_dec Transfers.pair_of (a, b) trans)
        as [|t ts] eqn:E; [reflexivity|].
      exfalso; apply Hk, group_keys_In; exists t.
      assert (In t (group_rows Transfers.priming_pair_eq_dec Transfers.pair_of (a, b) trans))
        as Ht by (rewrite E; now left).
      apply group_rows_In in Ht as [Ht Hp]; auto. }
  intros trans; split; [apply Hcells|].
  rewrite !Hcells; apply flow_table_ext; intros a b Ha Hb.
  unfold Transfers.flow_total; rewrite filter_filter_and; do 3 f_equal.
  apply filter_ext; intros t.
  destruct (String.eqb (Transfers.from_priming t) a) eqn:Ea;
    [|now rewrite andb_false_r].
  destruct (String.eqb (Transfers.to_priming t) b) eqn:Eb;
    [|now rewrite andb_false_r].
  apply String.eqb_eq in Ea, Eb; subst a b.
  apply contains_primings in Ha, Hb; now rewrite Ha, Hb.
Qed.

(** The transfer of the agent without a listed priming is in no cell. *)
Example flow_matrix_sample :
  Transfers.flow_matrix Sample.transfers
  = [ [0; 0; 30; 0]; [5; 0; 0; 0]; [0; 0; 0; 0]; [0; 0; 0; 0] ]%float.
Proof. reflexivity. Qed.

(** ** [visualize.py]: the volume of transfers *)

Lemma sum_wrap64_eqm (xs : list Z) :
  fold_right Z.add 0 (map wrap64 xs) mod 2 ^ 64 = fold_right Z.add 0 xs mod 2 ^ 64.
Proof.
  induction xs as [|x xs IH]; cbn [map fold_right]; [reflexivity|].
  rewrite Zplus_mod, IH, wrap64_eqm, <- Zplus_mod; reflexivity.
Qed.

Lemma sum_filter_bounds {A : Type} (w : A -> Z) (f : A -> bool) (l : list A) :
  (forall x, In x l -> 0 <= w x) ->
  0 <= fold_right Z.add 0 (map w (filter f l)) <= fold_right Z.add 0 (map w l).
Proof.
  induction l as [|x l IH]; intros Hpos; simpl; [lia|].
  assert (0 <= w x) by (apply Hpos; now left).
  assert (0 <= fold_right Z.add 0 (map w (filter f l)) <= fold_right Z.add 0 (map w l))
    by (apply IH; intros; apply Hpos; now right).
  destruct (f x); simpl; lia.
Qed.

Lemma round_volume_unfold (trans : list Transfers.TransferRecord) :
  Transfers.round_volume trans
  = map (fun k => (k, np_sum (map Transfers.amount
                                  (group_rows Z.eq_dec Transfers.round k trans))))
        (group_keys Z.eq_dec Z.leb Transfers.round trans).
Proof. unfold Transfers.round_volume, groupby; now rewrite map_map. Qed.

(** X15.  The volumes per round of [plot_transfer_volume_over_time] account
    for every transfer once.  The rounds are those in which a transfer took
    place, in strictly ascending order; each volume is the [int64] sum of
    the amounts of its round; the [int64] sum of the volumes is the total
    volume that [generate_summary_stats] reports; and when no amount is
    negative and the total stays below [2 ^ 63], nothing wraps: the volumes
    add up to the total as integers. *)
Theorem round_volume_total :
  forall trans : list Transfers.TransferRecord,
    let vol := Transfers.round_volume trans in
    StronglySorted Z.lt (map fst vol)
    /\ (forall r, In r (map fst vol) <-> exists t, In t trans /\ Transfers.round t = r)
    /\ (forall r v, In (r, v) vol ->
          v = np_sum (map Transfers.amount
                          (filter (fun t => Transfers.round t =? r) trans)))
    /\ np_sum (map snd vol) = Transfers.total_volume trans
    /\ ((forall t, In t trans -> 0 <= Transfers.amount t) ->
        fold_right Z.add 0 (map Transfers.amount trans) < 2 ^ 63 ->
        fold_right Z.add 0 (map snd vol) = Transfers.total_volume trans
        /\ Transfers.total_volume trans = fold_right Z.add 0 (map Transfers.amount trans)).
Proof.
  intros trans vol.
  assert (map fst vol = group_keys Z.eq_dec Z.leb Transfers.round trans) as Hk.
  { unfold vol; rewrite round_volume_unfold, map_map; apply map_id. }
  assert (fold_right Z.add 0
            (map (fun k => fold_right Z.add 0
                             (map Transfers.amount
                                  (group_rows Z.eq_dec Transfers.round k trans)))
                 (group_keys Z.eq_dec Z.leb Transfers.round trans))
          = fold_right Z.add 0 (map Transfers.amount trans)) as Hsum.
  { apply group_sums_total; [apply group_keys_NoDup|].
    intros t Ht; apply group_keys_In; eauto. }
  split; [|split; [|split; [|split]]].
  - rewrite Hk; apply group_keys_Z_ascending.
  - intros r; rewrite Hk; apply group_keys_In.
  - intros r v Hin; unfold vol in Hin; rewrite round_volume_unfold in Hin.
    apply in_map_iff in Hin as (k & [= <- <-] & _); now rewrite group_rows_eqb.
  - unfold vol, Transfers.total_volume; rewrite round_volume_unfold, map_map; cbn [snd].
    rewrite !np_sum_spec; apply wrap64_congr.
    assert (map (fun k => np_sum (map Transfers.amount
                                      (group_rows Z.eq_dec Transfers.round k trans)))
                (group_keys Z.eq_dec Z.leb Transfers.round trans)
            = map wrap64
                  (map (fun k => fold_right Z.add 0
                                   (map Transfers.amount
                                        (group_rows Z.eq_dec Transfers.round k trans)))
                       (group_keys Z.eq_dec Z.leb Transfers.round trans))) as ->
        by (rewrite map_map; apply map_ext; intros k; apply np_sum_spec).
    now rewrite sum_wrap64_eqm, Hsum.
  - intros Hpos Hlt.
    pose proof (sum_filter_bounds Transfers.amount (fun _ => true) trans Hpos) as [H0 _].
    assert (Transfers.total_volume trans = fold_right Z.add 0 (map Transfers.amount trans))
      as Htot.
    { unfold Transfers.total_volume; rewrite np_sum_spec; apply wrap64_small.
      pose proof (sum_filter_bounds Transfers.amount (fun _ => false) trans Hpos); simpl in *.
      lia. }
    split; [|exact Htot].
    rewrite Htot, <- Hsum; unfold vol; rewrite round_volume_unfold, map_map; cbn [snd].
    f_equal; apply map_ext; intros k.
    rewrite np_sum_spec; apply wrap64_small.
    pose proof (sum_filter_bounds Transfers.amount
                  (fun t => if Z.eq_dec (Transfers.round t) k then true else false)
                  trans Hpos) as Hb.
    unfold group_rows; lia.
Qed.

Lemma round_volume_total_witness :
  Transfers.round_volume Sample.transfers = [(1, 5); (2, 37)]
  /\ fold_right Z.add 0 (map snd (Transfers.round_volume Sample.transfers))
     = Transfers.total_volume Sample.transfers.
Proof.
  split; [reflexivity|].
  destruct (round_volume_total Sample.transfers) as (_ & _ & _ & _ & Hexact).
  apply Hexact.
  - intros t Ht; repeat (destruct Ht as [<- | Ht]; [simpl; lia|]); contradiction.
  - simpl; lia.
Defined.

(** ** [figures.py]: the prosocial heatmap *)

Lemma shown_not_nan (x : scalar) : isna (Figures.shown x) = false.
Proof.
  unfold Figures.shown; destruct (isna (to_float x)) eqn:E; [reflexivity|exact E].
Qed.

Lemma filter_none {A : Type} (f : A -> bool) (l : list A) :
  (forall x, In x l -> f x = false) -> filter f l = [].
Proof.
  induction l as [|x l IH]; intros H; simpl; [reflexivity|].
  rewrite (H x (or_introl eq_refl)); apply IH; intros y Hy; apply H; now right.
Qed.

(** X16.  The heatmap of [fig1_cooperation_heatmap] is a 2 x 5 array that
    never holds a NaN, whatever the statistics library returns.  A model
    with no decision in a game is drawn with rate 0 there, as if it had
    never been prosocial: always so for the four games with amounts, and
    for the prisoner's dilemma when the mean of an empty sample is NaN, as
    it is in pandas. *)
Theorem heatmap_missing_is_zero :
  forall (lib : StatsLib) (u : Unicode) (df : DataFrame),
    List.length (Figures.heatmap df) = 2%nat
    /\ (forall row, In row (Figures.heatmap df) ->
          List.length row = 5%nat /\ forall x, In x row -> isna x = false)
    /\ forall model game,
         (forall r, In r df -> model_provider r = model ->
                    game_type r <> Figures.game_name game) ->
         (game <> Figures.PrisonersDilemma \/ isna (sample_mean []) = true) ->
         Figures.shown (Figures.rate df model game) = 0%float.
Proof.
  intros lib u df; split; [reflexivity|split].
  - intros row Hrow; unfold Figures.heatmap in Hrow.
    apply in_map_iff in Hrow as (model & <- & _).
    split; [reflexivity|].
    intros x Hx; apply in_map_iff in Hx as (game & <- & _); apply shown_not_nan.
  - intros model game Hnone Hgame; unfold Figures.rate; cbv zeta.
    rewrite filter_none.
    + destruct game; try reflexivity.
      destruct Hgame as [Hpd|Hnan]; [contradiction|].
      unfold Figures.shown; cbn [map to_float]; now rewrite Hnan.
    + intros r Hr.
      destruct (String.eqb (model_provider r) model) eqn:Em; [|reflexivity].
      apply String.eqb_eq in Em; apply (Hnone r Hr) in Em.
      apply String.eqb_neq in Em; now rewrite Em.
Qed.

Lemma heatmap_missing_is_zero_witness :
  Figures.shown (@Figures.rate (Sample.lib 0 1) unicode_14 [Sample.offer_5_stake_10] "openai"
                               Figures.Ultimatum) = 0%float
  /\ Figures.shown (@Figures.rate (Sample.lib 0 1) unicode_14 [Sample.offer_5_stake_10] "openai"
                                  Figures.PrisonersDilemma) = 0%float.
Proof.
  destruct (heatmap_missing_is_zero (Sample.lib 0 1) unicode_14 [Sample.offer_5_stake_10])
    as (_ & _ & Hzero).
  split; apply Hzero.
  - intros r [<- | []]; discriminate.
  - left; discriminate.
  - intros r [<- | []]; discriminate.
  - right; reflexivity.
Defined.

(** ** [figures.py]: the points of the trust scatter plot *)

Lemma slice_to_len {A B : Type} (l : list A) (xs : list B) :
  Figures.slice_to (len l) xs = firstn (List.length l) xs.
Proof. unfold Figures.slice_to, len; now rewrite Nat2Z.id. Qed.

(** X17.  [fig5_trust_scatter] plots a model only when it has both an
    investment and a return, and then the two arrays given to [scatter]
    have the same length, the smaller of the two counts: the k-th point
    pairs the k-th investment of the model with its k-th return in table
    order, and what is left over on the longer side is dropped. *)
Theorem trust_points_paired :
  forall (u : Unicode) (model : string) (df : DataFrame),
    let investments := Figures.investment_pcts model df in
    let returns := Figures.return_amounts model df in
    let m := Nat.min (List.length investments) (List.length returns) in
    (Figures.trust_points model df = None <-> investments = [] \/ returns = [])
    /\ forall xs ys, Figures.trust_points model df = Some (xs, ys) ->
         (1 <= m)%nat
         /\ xs = firstn m investments /\ ys = firstn m returns
         /\ List.length xs = m /\ List.length ys = m
         /\ combine xs ys = firstn m (combine investments returns).
Proof.
  intros u model df investments returns m.
  unfold Figures.trust_points; fold investments returns; cbv zeta.
  rewrite !slice_to_len.
  assert (firstn (List.length returns) investments = firstn m investments) as Hx.
  { unfold m; destruct (Nat.le_ge_cases (List.length investments) (List.length returns)).
    - rewrite Nat.min_l, !firstn_all2 by lia; reflexivity.
    - now rewrite Nat.min_r. }
  assert ((if len returns >=? len investments
           then firstn (List.length investments) returns else returns)
          = firstn m returns) as Hy.
  { unfold m, len; destruct (Z.geb_spec (Z.of_nat (List.length returns))
                                        (Z.of_nat (List.length investments))).
    - now rewrite Nat.min_l by lia.
    - rewrite Nat.min_r, firstn_all by lia; reflexivity. }
  rewrite Hx, Hy.
  destruct (0 <? len investments) eqn:Ei; destruct (0 <? len returns) eqn:Er;
    rewrite ?Z.ltb_lt, ?Z.ltb_ge in *; simpl; unfold len in *.
  - split.
    + split; [discriminate|].
      intros [E|E]; rewrite E in *; simpl in *; lia.
    + intros xs ys [= <- <-].
      assert (List.length (firstn m investments) = m) as Hlx
          by (rewrite length_firstn; unfold m; lia).
      assert (List.length (firstn m returns) = m) as Hly
          by (rewrite length_firstn; unfold m; lia).
      split; [unfold m; lia|].
      split; [reflexivity|split; [reflexivity|split; [exact Hlx|split; [exact Hly|]]]].
      symmetry; apply combine_firstn.
  - split; [|discriminate].
    split; [intros _; right|reflexivity].
    destruct returns; [reflexivity|simpl in Er; lia].
  - split; [|discriminate].
    split; [intros _; left|reflexivity].
    destruct investments; [reflexivity|simpl in Ei; lia].
  - split; [|discriminate].
    split; [intros _; left|reflexivity].
    destruct investments; [reflexivity|simpl in Ei; lia].
Qed.

(** Two investments and one return: one point, the first investment with
    the only return. *)
Lemma trust_points_paired_witness :
  Figures.trust_points "claude" Sample.trust_session = Some ([0.5%float], [30%float])
  /\ combine [0.5%float] [30%float]
     = firstn 1 (combine (Figures.investment_pcts "claude" Sample.trust_session)
                         (Figures.return_amounts "claude" Sample.trust_session)).
Proof.
  split; [reflexivity|].
  destruct (trust_points_paired unicode_14 "claude" Sample.trust_session) as [_ Hpts].
  destruct (Hpts [0.5%float] [30%float] eq_refl) as (_ & _ & _ & _ & _ & Hzip).
  exact Hzip.
Defined.

(** ** [inference.py]: the sample of [pd_cooperation_test] *)

(** X18.  [pd_cooperation_test] runs both t-tests, against 0 and against
    0.5, on one and the same sample: the 0/1 cooperation column of all the
    prisoner's dilemma rows, whose mean is the overall rate.  Its [n] is the
    number of those rows, which is also what the [n_decisions] of
    [cooperation_rates] add up to on the same table. *)
Theorem pd_cooperation_test_sample :
  forall (lib : StatsLib) (tl : TestLib) (df : DataFrame),
    let col := map (fun r => SInt (cooperated r)) (select_game "prisoners-dilemma" df) in
    let res := Tests.pd_cooperation_test df in
    Tests.overall_cooperation_rate res = sample_mean col
    /\ Tests.ct_n res = len col
    /\ Tests.ct_n res
       = fold_right Z.add 0 (map GameStats.n_decisions (GameStats.cooperation_rates df))
    /\ (Tests.t (Tests.vs_nash res), Tests.tt_p (Tests.vs_nash res))
       = ttest_1samp col 0%float
    /\ (Tests.t (Tests.vs_human_50pct res), Tests.tt_p (Tests.vs_human_50pct res))
       = ttest_1samp col 0.5%float.
Proof.
  intros lib tl df col res.
  assert (Tests.ct_n res = len (select_game "prisoners-dilemma" df)) as Hn.
  { unfold res, Tests.pd_cooperation_test; cbv zeta.
    now destruct (ttest_1samp _ 0%float), (ttest_1samp _ 0.5%float). }
  split; [|split; [|split; [|split]]].
  - unfold res, Tests.pd_cooperation_test; cbv zeta.
    now destruct (ttest_1samp _ 0%float), (ttest_1samp _ 0.5%float).
  - rewrite Hn; unfold col; now rewrite len_map.
  - rewrite Hn, cooperation_rates_unfold, map_map; cbn.
    symmetry; etransitivity;
      [|apply (group_sizes_total condition_eq_dec record_condition
                 (select_game "prisoners-dilemma" df)
                 (group_keys condition_eq_dec condition_leb record_condition
                             (select_game "prisoners-dilemma" df)))].
    + apply f_equal, map_ext; intros k; apply len_map.
    + apply group_keys_NoDup.
    + intros r Hr; apply group_keys_In; eauto.
  - unfold res, Tests.pd_cooperation_test; cbv zeta; fold col.
    now destruct (ttest_1samp col 0%float), (ttest_1samp col 0.5%float).
  - unfold res, Tests.pd_cooperation_test; cbv zeta; fold col.
    now destruct (ttest_1samp col 0%float), (ttest_1samp col 0.5%float).
Qed.

(** ** A stake of zero *)

(** A positive integer below [2 ^ 63] converts to a positive finite float. *)
Lemma float_of_Z_pos_finite (z : Z) :
  0 < z < 2 ^ 63 -> exists m e, Prim2SF (float_of_Z z) = S754_finite false m e.
Proof.
  intros Hz; destruct z as [|q|q]; try lia.
  destruct (binary_round_int63_finite q) as (m & e & Hme); [lia|].
  exists m, e; rewrite Prim2SF_float_of_Z by lia; apply Hme.
Qed.

Lemma float_of_Prim2SF (x : float) (y : spec_float) : Prim2SF x = y -> x = SF2Prim y.
Proof. intros <-; symmetry; apply SF2Prim_Prim2SF. Qed.

(** X19.  Whatever the Unicode database, a stake of zero raises nothing:
    the division by [10 * stake] is a [float64] division by zero.  For a
    dictator record with stake 0 whose action is [give_] followed by a run
    of decimal digits (and then by nothing, or by text that does not start
    with a digit), [giving_pct] is missing when the digits write zero, so
    the record is left out of every count and mean, and it is plus infinity
    when they write a positive integer (below [2 ^ 63]), so the record is
    counted with an infinite share. *)
Theorem zero_stake_division :
  forall (u : Unicode) (r : DecisionRecord) (ds rest : pystr),
    stake r = 0 -> action r = (str "give_" ++ ds ++ rest)%list ->
    ds <> [] -> (forall c, In c ds -> is_digit c = true) ->
    (forall c rest', rest = c :: rest' -> is_digit c = false) ->
    let N := decimal_number ds in
    0 <= N
    /\ (N = 0 -> isna (giving_pct (giving_row r)) = true)
    /\ (0 < N < 2 ^ 63 ->
        giving_pct (giving_row r) = infinity /\ isna (giving_pct (giving_row r)) = false).
Proof.
  intros u r ds rest Hs Ha Hne Hd Hrest N.
  apply all_digits_Forall in Hd; apply take_digits_nil_iff in Hrest.
  assert (giving_pct (giving_row r) = (float_of_Z N / 0)%float) as ->.
  { unfold giving_row; cbn [giving_pct]; rewrite Ha, Hs, str_extract_app by assumption.
    unfold astype_float, N; rewrite digits_to_Z_number; reflexivity. }
  split; [apply decimal_number_nonneg|split].
  - intros ->; reflexivity.
  - intros HN; destruct (float_of_Z_pos_finite N HN) as (m & e & Hme).
    assert ((float_of_Z N / 0)%float = infinity) as ->; [|split; reflexivity].
    change infinity with (SF2Prim (S754_infinity false)).
    apply float_of_Prim2SF; rewrite div_spec, Hme; reflexivity.
Qed.

(** [give_0] and [give_0] followed by the Arabic-Indic digit three, both at
    stake 0: zero over zero, and three over zero. *)
Lemma zero_stake_division_witness :
  isna (giving_pct (giving_row (Sample.row "claude" "dictator" 0 1 1 "give_0"))) = true
  /\ giving_pct (giving_row (Sample.row "claude" "dictator" 0 1 1
                                        (str "give_0" ++ [1635])%list)) = infinity.
Proof.
  split.
  - apply (zero_stake_division unicode_14
             (Sample.row "claude" "dictator" 0 1 1 "give_0") [48] []);
      try solve [reflexivity|discriminate].
    + intros c [<- | []]; reflexivity.
  - apply (zero_stake_division unicode_14
             (Sample.row "claude" "dictator" 0 1 1 (str "give_0" ++ [1635])%list)
             [48; 1635] []);
      try solve [reflexivity|discriminate|split; reflexivity].
    + intros c [<- | [<- | []]]; reflexivity.
Defined.
